(** * Project-Management-Portal: the Express/PostgreSQL backend of [server.js]

    A shallow embedding of the route handlers of [src/server.js] and of the
    relational schema they create, followed by the properties of the CRUD
    contract.

    Conventions of the embedding.
    - A JavaScript string is a [string]; each [ascii] stands for one UTF-16
      code unit in the range 0..255 (the Latin-1 part of the BMP), which is
      closed under [toLowerCase] and [trim].
    - A request-body field that is absent or [null] is [None], or [JNull]
      for the flags that a handler only tests for truthiness.  The email
      and the password of the account routes, which the handlers test for
      presence only, are any [scalar].
    - A nullable SQL column is an [option]; [TEXT] is [string], [INTEGER] is
      [Z]; a [SERIAL] column is drawn from a per-table counter.
    - [new Date().toISOString()] and the salt drawn by [bcrypt.hash] are
      inputs of the handler.
    - [JSON.stringify] and [JSON.parse] are the library's: the profile
      routes are embedded over a class [JSON] of values with these two
      functions, and what a property needs of them is a stated law
      ([JSONLaws]).  The type [json] and the module [Json] are a fragment
      with integer numbers, used for the flags and as the stand-in of the
      worked examples.
    - A route parameter [:id] is the integer it denotes.
    - The store refuses a statement on the constraints declared in the
      schema (unique and foreign keys).  Where a property depends on it,
      the handler also has the two refusals of the parameters themselves:
      an integer outside the range of [INTEGER] ([int4], in the delete of
      a history entry) and a NUL character in a text ([has_nul], in the
      email of the account routes). *)

From Stdlib Require Import String Ascii List ZArith NArith Bool Lia.
From Stdlib Require Import Sorted Permutation.
From Stdlib Require DecimalFacts DecimalPos.
Import ListNotations.

Set Implicit Arguments.

(* ================================================================== *)
(** * JavaScript values used by the handlers *)
(* ================================================================== *)

Module Js.

Local Open Scope N_scope.

(** Code units that [String.prototype.toLowerCase] maps to another unit:
    A-Z and the Latin-1 capitals (U+00C0..U+00DE without U+00D7). *)
Definition is_upper (n : N) : bool :=
  ((65 <=? n) && (n <=? 90)) ||
  ((192 <=? n) && (n <=? 222) && negb (n =? 215)).

Definition lower_unit (c : ascii) : ascii :=
  let n := N_of_ascii c in
  if is_upper n then ascii_of_N (n + 32) else c.

Fixpoint toLowerCase (s : string) : string :=
  match s with
  | EmptyString => EmptyString
  | String c r => String (lower_unit c) (toLowerCase r)
  end.

(** WhiteSpace and LineTerminator code units stripped by
    [String.prototype.trim]: TAB, LF, VT, FF, CR, SP, NBSP. *)
Definition is_space (c : ascii) : bool :=
  let n := N_of_ascii c in
  ((9 <=? n) && (n <=? 13)) || (n =? 32) || (n =? 160).

Fixpoint trimStart (s : string) : string :=
  match s with
  | EmptyString => EmptyString
  | String c r => if is_space c then trimStart r else s
  end.

Fixpoint trimEnd (s : string) : string :=
  match s with
  | EmptyString => EmptyString
  | String c r =>
      match trimEnd r with
      | EmptyString => if is_space c then EmptyString else String c EmptyString
      | r' => String c r'
      end
  end.

Definition trim (s : string) : string := trimStart (trimEnd s).

(** The JSON values with integer numbers.  [JNull] also stands for an
    absent field: the handlers that take a [json] only test it for
    truthiness. *)
#[local] Unset Elimination Schemes.
Inductive json : Type :=
| JNull
| JBool (b : bool)
| JNum (n : Z)
| JStr (s : string)
| JArr (l : list json)
| JObj (m : list (string * json)).
#[local] Set Elimination Schemes.

(** ToBoolean. *)
Definition truthy (v : json) : bool :=
  match v with
  | JNull => false
  | JBool b => b
  | JNum n => negb (n =? 0)%Z
  | JStr s => negb (s =? "")%string
  | JArr _ | JObj _ => true
  end.

(** [x || d] and [!x] on the typed optional fields. *)
Definition str_truthy (x : option string) : bool :=
  match x with
  | Some s => negb (s =? "")%string
  | None => false
  end.

Definition int_truthy (x : option Z) : bool :=
  match x with
  | Some n => negb (n =? 0)%Z
  | None => false
  end.

Definition str_or (x : option string) (d : string) : string :=
  match x with
  | Some s => if (s =? "")%string then d else s
  | None => d
  end.

Definition int_or (x : option Z) (d : Z) : Z :=
  match x with
  | Some n => if (n =? 0)%Z then d else n
  | None => d
  end.

(** [Boolean(v)] on an [INTEGER] column value. *)
Definition Boolean (x : option Z) : bool := int_truthy x.

(** A body field on which the handler fixes no type, as [body-parser]
    hands it over: absent or [null], or a boolean, a number or a string.
    A field that holds an array or an object stays outside the
    embedding. *)
Inductive scalar : Type :=
| SNull
| SBool (b : bool)
| SNum (n : Z)
| SStr (s : string).

(** ToBoolean. *)
Definition scalar_truthy (v : scalar) : bool :=
  match v with
  | SNull => false
  | SBool b => b
  | SNum n => negb (n =? 0)%Z
  | SStr s => negb (s =? "")%string
  end.

(** [typeof v === "string"]: the methods of [String.prototype] exist on
    no other value, and [bcryptjs] rejects every other argument. *)
Definition as_string (v : scalar) : option string :=
  match v with
  | SStr s => Some s
  | _ => None
  end.

(** [v.length < n]: a number and a boolean have no [length], and
    [undefined < n] is false. *)
Definition shorter (v : scalar) (n : nat) : bool :=
  match v with
  | SStr s => (String.length s <? n)%nat
  | _ => false
  end.

End Js.
Export Js.

(* ================================================================== *)
(** * A printer and a parser for the values of [json] *)
(* ================================================================== *)

Module Json.

Local Open Scope char_scope.
Local Open Scope N_scope.

Definition chars (s : string) : list ascii := list_ascii_of_string s.

Definition dquote : ascii := "034".
Definition bslash : ascii := "092".

(** ** Serialisation *)

Definition hex_digit (n : N) : ascii :=
  if n <? 10 then ascii_of_N (48 + n) else ascii_of_N (87 + n).

(** QuoteJSONString, one code unit. *)
Definition escape_unit (c : ascii) : list ascii :=
  let n := N_of_ascii c in
  if n =? 8 then [bslash; "b"]
  else if n =? 9 then [bslash; "t"]
  else if n =? 10 then [bslash; "n"]
  else if n =? 12 then [bslash; "f"]
  else if n =? 13 then [bslash; "r"]
  else if n =? 34 then [bslash; dquote]
  else if n =? 92 then [bslash; bslash]
  else if n <? 32 then
    [bslash; "u"; "0"; "0"; hex_digit (n / 16); hex_digit (n mod 16)]
  else [c].

Fixpoint quote_body (s : string) : list ascii :=
  match s with
  | EmptyString => []
  | String c r => escape_unit c ++ quote_body r
  end.

Definition quote (s : string) : list ascii :=
  dquote :: quote_body s ++ [dquote].

Fixpoint uint_chars (u : Decimal.uint) : list ascii :=
  match u with
  | Decimal.Nil => []
  | Decimal.D0 u => "0" :: uint_chars u
  | Decimal.D1 u => "1" :: uint_chars u
  | Decimal.D2 u => "2" :: uint_chars u
  | Decimal.D3 u => "3" :: uint_chars u
  | Decimal.D4 u => "4" :: uint_chars u
  | Decimal.D5 u => "5" :: uint_chars u
  | Decimal.D6 u => "6" :: uint_chars u
  | Decimal.D7 u => "7" :: uint_chars u
  | Decimal.D8 u => "8" :: uint_chars u
  | Decimal.D9 u => "9" :: uint_chars u
  end.

Definition print_int (n : Z) : list ascii :=
  match n with
  | Z0 => ["0"]
  | Zpos p => uint_chars (Pos.to_uint p)
  | Zneg p => "-" :: uint_chars (Pos.to_uint p)
  end.

Fixpoint print (v : json) : list ascii :=
  match v with
  | JNull => chars "null"
  | JBool true => chars "true"
  | JBool false => chars "false"
  | JNum n => print_int n
  | JStr s => quote s
  | JArr l =>
      "[" :: (fix elems (l : list json) : list ascii :=
                match l with
                | [] => ["]"]
                | x :: r =>
                    print x ++
                    match r with [] => ["]"] | _ :: _ => "," :: elems r end
                end) l
  | JObj m =>
      "{" :: (fix members (m : list (string * json)) : list ascii :=
                match m with
                | [] => ["}"]
                | (k, x) :: r =>
                    quote k ++ ":" :: print x ++
                    match r with [] => ["}"] | _ :: _ => "," :: members r end
                end) m
  end.

Definition stringify (v : json) : string :=
  string_of_list_ascii (print v).

(** ** Parsing *)

Definition is_ws (c : ascii) : bool :=
  let n := N_of_ascii c in (n =? 32) || (n =? 9) || (n =? 10) || (n =? 13).

Fixpoint skip_ws (s : list ascii) : list ascii :=
  match s with
  | [] => []
  | c :: r => if is_ws c then skip_ws r else s
  end.

Fixpoint strip (p s : list ascii) : option (list ascii) :=
  match p with
  | [] => Some s
  | a :: p' =>
      match s with
      | [] => None
      | b :: s' => if (a =? b)%char then strip p' s' else None
      end
  end.

Definition hex_value (c : ascii) : option N :=
  let n := N_of_ascii c in
  if (48 <=? n) && (n <=? 57) then Some (n - 48)
  else if (97 <=? n) && (n <=? 102) then Some (n - 87)
  else if (65 <=? n) && (n <=? 70) then Some (n - 55)
  else None.

Definition hex4 (a b c d : ascii) : option N :=
  match hex_value a, hex_value b, hex_value c, hex_value d with
  | Some x, Some y, Some z, Some w => Some (((x * 16 + y) * 16 + z) * 16 + w)
  | _, _, _, _ => None
  end.

Definition unescape (e : ascii) : option ascii :=
  let n := N_of_ascii e in
  if n =? 34 then Some dquote
  else if n =? 92 then Some bslash
  else if n =? 47 then Some "/"
  else if n =? 98 then Some "008"
  else if n =? 102 then Some "012"
  else if n =? 110 then Some "010"
  else if n =? 114 then Some "013"
  else if n =? 116 then Some "009"
  else None.

Definition push (c : ascii) (r : option (string * list ascii))
  : option (string * list ascii) :=
  match r with
  | Some (s, rest) => Some (String c s, rest)
  | None => None
  end.

(** The characters after an opening quote, up to the closing one.  An
    escape above U+00FF has no code unit in this model and is refused. *)
Fixpoint parse_string_body (s : list ascii) : option (string * list ascii) :=
  match s with
  | [] => None
  | c :: r =>
      if (c =? dquote)%char then Some (EmptyString, r)
      else if (c =? bslash)%char then
        match r with
        | [] => None
        | e :: r1 =>
            if (e =? "u")%char then
              match r1 with
              | h1 :: h2 :: h3 :: h4 :: r2 =>
                  match hex4 h1 h2 h3 h4 with
                  | Some n =>
                      if n <? 256 then push (ascii_of_N n) (parse_string_body r2)
                      else None
                  | None => None
                  end
              | _ => None
              end
            else
              match unescape e with
              | Some c' => push c' (parse_string_body r1)
              | None => None
              end
        end
      else if N_of_ascii c <? 32 then None
      else push c (parse_string_body r)
  end.

Definition digit_cons (c : ascii) : option (Decimal.uint -> Decimal.uint) :=
  match N_of_ascii c with
  | 48 => Some Decimal.D0 | 49 => Some Decimal.D1 | 50 => Some Decimal.D2
  | 51 => Some Decimal.D3 | 52 => Some Decimal.D4 | 53 => Some Decimal.D5
  | 54 => Some Decimal.D6 | 55 => Some Decimal.D7 | 56 => Some Decimal.D8
  | 57 => Some Decimal.D9
  | _ => None
  end.

Fixpoint take_uint (s : list ascii) : Decimal.uint * list ascii :=
  match s with
  | [] => (Decimal.Nil, [])
  | c :: r =>
      match digit_cons c with
      | Some d => let (u, r') := take_uint r in (d u, r')
      | None => (Decimal.Nil, s)
      end
  end.

Definition leading_zero (u : Decimal.uint) : bool :=
  match u with
  | Decimal.D0 Decimal.Nil => false
  | Decimal.D0 _ => true
  | _ => false
  end.

(** A fraction or an exponent continues the literal; such numbers are not
    integers and have no [JNum]. *)
Definition continues_number (s : list ascii) : bool :=
  match s with
  | c :: _ => (c =? ".")%char || (c =? "e")%char || (c =? "E")%char
  | [] => false
  end.

Definition parse_digits (neg : bool) (s : list ascii)
  : option (json * list ascii) :=
  let (u, r) := take_uint s in
  match u with
  | Decimal.Nil => None
  | _ =>
      if leading_zero u || continues_number r then None
      else
        let n := Z.of_N (N.of_uint u) in
        Some (JNum (if neg then Z.opp n else n), r)
  end.

Definition parse_number (s : list ascii) : option (json * list ascii) :=
  match s with
  | c :: r => if (c =? "-")%char then parse_digits true r
              else parse_digits false s
  | [] => None
  end.

Definition is_num_start (c : ascii) : bool :=
  (c =? "-")%char ||
  match digit_cons c with Some _ => true | None => false end.

(** CreateDataProperty during parsing: a repeated key overwrites in place. *)
Fixpoint obj_set (k : string) (v : json) (m : list (string * json))
  : list (string * json) :=
  match m with
  | [] => [(k, v)]
  | (k', v') :: r =>
      if (k' =? k)%string then (k', v) :: r else (k', v') :: obj_set k v r
  end.

Definition build_object (ms : list (string * json)) : list (string * json) :=
  fold_left (fun m kv => obj_set (fst kv) (snd kv) m) ms [].

Fixpoint parse_value (fuel : nat) (s : list ascii) {struct fuel}
  : option (json * list ascii) :=
  match fuel with
  | O => None
  | S f =>
      match skip_ws s with
      | [] => None
      | c :: r =>
          if is_num_start c then parse_number (c :: r)
          else if (c =? "n")%char then
            option_map (pair JNull) (strip (chars "ull") r)
          else if (c =? "t")%char then
            option_map (pair (JBool true)) (strip (chars "rue") r)
          else if (c =? "f")%char then
            option_map (pair (JBool false)) (strip (chars "alse") r)
          else if (c =? dquote)%char then
            match parse_string_body r with
            | Some (str, r') => Some (JStr str, r')
            | None => None
            end
          else if (c =? "[")%char then
            match strip ["]"] (skip_ws r) with
            | Some r' => Some (JArr [], r')
            | None =>
                match parse_elements f r with
                | Some (l, r') => Some (JArr l, r')
                | None => None
                end
            end
          else if (c =? "{")%char then
            match strip ["}"] (skip_ws r) with
            | Some r' => Some (JObj [], r')
            | None =>
                match parse_members f r with
                | Some (m, r') => Some (JObj (build_object m), r')
                | None => None
                end
            end
          else None
      end
  end
with parse_elements (fuel : nat) (s : list ascii) {struct fuel}
  : option (list json * list ascii) :=
  match fuel with
  | O => None
  | S f =>
      match parse_value f s with
      | Some (v, r) =>
          match skip_ws r with
          | c :: r' =>
              if (c =? ",")%char then
                match parse_elements f r' with
                | Some (vs, r'') => Some (v :: vs, r'')
                | None => None
                end
              else if (c =? "]")%char then Some ([v], r')
              else None
          | [] => None
          end
      | None => None
      end
  end
with parse_members (fuel : nat) (s : list ascii) {struct fuel}
  : option (list (string * json) * list ascii) :=
  match fuel with
  | O => None
  | S f =>
      match strip [dquote] (skip_ws s) with
      | Some r =>
          match parse_string_body r with
          | Some (k, r1) =>
              match strip [":"] (skip_ws r1) with
              | Some r2 =>
                  match parse_value f r2 with
                  | Some (v, r3) =>
                      match skip_ws r3 with
                      | c :: r4 =>
                          if (c =? ",")%char then
                            match parse_members f r4 with
                            | Some (m, r5) => Some ((k, v) :: m, r5)
                            | None => None
                            end
                          else if (c =? "}")%char then Some ([(k, v)], r4)
                          else None
                      | [] => None
                      end
                  | None => None
                  end
              | None => None
              end
          | None => None
          end
      | None => None
      end
  end.

(** ** Well-formed values

    A JavaScript object has no two properties of one name. *)

Fixpoint distinct (ks : list string) : bool :=
  match ks with
  | [] => true
  | k :: r => negb (existsb (String.eqb k) r) && distinct r
  end.

Fixpoint wf_json (v : json) : bool :=
  match v with
  | JArr l => forallb wf_json l
  | JObj m => distinct (map fst m) && forallb (fun kv => wf_json (snd kv)) m
  | _ => true
  end.

(** The parser: [None] for a text that is not the text of a [json]. *)
Definition parse (s : string) : option json :=
  let cs := chars s in
  match parse_value (2 * length cs) cs with
  | Some (v, r) =>
      match skip_ws r with
      | [] => Some v
      | _ :: _ => None
      end
  | None => None
  end.

(** ** Notions used to state the round trip *)

(** The printed form of the elements of an array, and of the members of an
    object, up to and including the closing bracket. *)
Fixpoint print_elems (l : list json) : list ascii :=
  match l with
  | [] => ["]"]
  | x :: r =>
      print x ++ match r with [] => ["]"] | _ :: _ => "," :: print_elems r end
  end.

Fixpoint print_members (m : list (string * json)) : list ascii :=
  match m with
  | [] => ["}"]
  | (k, x) :: r =>
      quote k ++ ":" :: print x ++
      match r with [] => ["}"] | _ :: _ => "," :: print_members r end
  end.

(** What may follow a value inside a document. *)
Definition delimited (rest : list ascii) : bool :=
  match rest with
  | [] => true
  | c :: _ => (c =? ",")%char || (c =? "]")%char || (c =? "}")%char
  end.

Definition is_digit (c : ascii) : bool :=
  match digit_cons c with Some _ => true | None => false end.

Definition opens_value (c : ascii) : Prop :=
  is_ws c = false /\ (c =? "]")%char = false /\ (c =? "}")%char = false.

(** Fuel that parsing the printed form of [v] consumes. *)
Fixpoint need (v : json) : nat :=
  match v with
  | JArr l => S (list_sum (map (fun x => S (need x)) l))
  | JObj m => S (list_sum (map (fun kv => S (need (snd kv))) m))
  | _ => 1%nat
  end.

Definition roundtrips (v : json) : Prop :=
  wf_json v = true ->
  forall f rest, (need v <= f)%nat -> delimited rest = true ->
  parse_value f (print v ++ rest) = Some (v, rest).

End Json.

(* ================================================================== *)
(** * The relational store *)
(* ================================================================== *)

Module Sql.

(** ** Column values and [ORDER BY] *)

(** The three-way comparison of the values of a sort key. *)
Class Cmp (K : Type) : Type := cmp : K -> K -> comparison.

(** [TEXT] compares code unit by code unit. *)
#[export] Instance text_cmp : Cmp string := String.compare.

#[export] Instance integer_cmp : Cmp Z := Z.compare.

(** A nullable column: [NULL] sorts after every value ([NULLS LAST], the
    default of an ascending key). *)
Definition cmp_nullable {K} `{Cmp K} (a b : option K) : comparison :=
  match a, b with
  | Some x, Some y => cmp x y
  | Some _, None => Lt
  | None, Some _ => Gt
  | None, None => Eq
  end.

#[export] Instance nullable_cmp {K} `{Cmp K} : Cmp (option K) := cmp_nullable.

(** A [DESC] key: the order is reversed, so [NULL] comes first. *)
Record Desc (K : Type) : Type := desc { undesc : K }.

Definition cmp_desc {K} `{Cmp K} (a b : Desc K) : comparison :=
  cmp (undesc b) (undesc a).

#[export] Instance desc_cmp {K} `{Cmp K} : Cmp (Desc K) := cmp_desc.

(** Two keys: the second one breaks the ties of the first. *)
Definition cmp_pair {K1 K2} `{Cmp K1} `{Cmp K2} (a b : K1 * K2)
  : comparison :=
  match cmp (fst a) (fst b) with
  | Eq => cmp (snd a) (snd b)
  | c => c
  end.

#[export] Instance pair_cmp {K1 K2} `{Cmp K1} `{Cmp K2} : Cmp (K1 * K2) :=
  cmp_pair.

Definition le_key {K} `{Cmp K} (a b : K) : bool :=
  match cmp a b with Gt => false | _ => true end.

(** [ORDER BY key]: rows with equal keys stay in table order. *)
Section OrderBy.
Context {R K : Type} `{Cmp K}.
Variable key : R -> K.

Fixpoint insert_row (x : R) (l : list R) : list R :=
  match l with
  | [] => [x]
  | y :: t =>
      if le_key (key x) (key y) then x :: l else y :: insert_row x t
  end.

Fixpoint order_by (l : list R) : list R :=
  match l with
  | [] => []
  | x :: t => insert_row x (order_by t)
  end.

Definition ordered (l : list R) : Prop :=
  StronglySorted (fun a b => le_key (key a) (key b) = true) l.
End OrderBy.

(** ** Tables *)

(** The rows in table order and the next value of the [SERIAL] sequence. *)
Record table (R : Type) : Type := { rows : list R; serial : Z }.

Definition empty {R} : table R := {| rows := []; serial := 1 |}.

(** [SELECT * FROM t WHERE p]. *)
Definition select {R} (p : R -> bool) (t : table R) : list R :=
  filter p (rows t).

(** [DELETE FROM t WHERE p], with its [rowCount]. *)
Definition delete_where {R} (p : R -> bool) (t : table R) : table R * nat :=
  ({| rows := filter (fun r => negb (p r)) (rows t); serial := serial t |},
   length (filter p (rows t))).

(** [UPDATE t SET ... WHERE p], with its [rowCount]. *)
Definition update_where {R} (p : R -> bool) (f : R -> R) (t : table R)
  : table R * nat :=
  ({| rows := map (fun r => if p r then f r else r) (rows t);
      serial := serial t |},
   length (filter p (rows t))).

(** [INSERT INTO t ... RETURNING *]: the row takes the next [id]. *)
Definition insert {R} (mk : Z -> R) (t : table R) : table R * R :=
  let r := mk (serial t) in
  ({| rows := rows t ++ [r]; serial := serial t + 1 |}, r).

(** An [INSERT] refused by a constraint: the sequence has advanced. *)
Definition refused {R} (t : table R) : table R :=
  {| rows := rows t; serial := serial t + 1 |}.

(** [col = $1] on a nullable text column: [NULL] matches nothing. *)
Definition text_is (col : option string) (v : string) : bool :=
  match col with
  | Some s => (s =? v)%string
  | None => false
  end.

(** SQLSTATE codes raised by the schema's constraints. *)
Definition unique_violation : string := "23505".
Definition foreign_key_violation : string := "23503".

(** A [TEXT] value holds no NUL character: a statement with a text
    parameter that contains one is refused before it runs (SQLSTATE
    22021). *)
Fixpoint has_nul (s : string) : bool :=
  match s with
  | EmptyString => false
  | String c r => Ascii.eqb c Ascii.zero || has_nul r
  end.

Definition invalid_text : string := "22021".

(** The values of the type [INTEGER].  A statement with a parameter that
    is compared with an [INTEGER] column and lies outside this range is
    refused before it runs (SQLSTATE 22003). *)
Definition int4 (n : Z) : bool :=
  ((-2147483648 <=? n) && (n <=? 2147483647))%Z.

End Sql.
Export Sql.

(* ================================================================== *)
(** * The schema created by [initializeDatabase] *)
(* ================================================================== *)

(** One module per table; a record field is a column.  [users.email] and
    [users.password] are only ever written with strings. *)
Module Users.
Record row : Type := {
  id : Z;
  email : string;
  password : string
}.
End Users.

Module Projects.
(** The 28 columns of the project description. *)
Record description_columns : Type := {
  project_title : option string;
  notes : option string;
  colleague_name : option string;
  colleague_phone : option string;
  colleague_email : option string;
  colleague_address1 : option string;
  colleague_address2 : option string;
  colleague_address3 : option string;
  your_name : option string;
  your_phone : option string;
  your_email : option string;
  your_address1 : option string;
  your_address2 : option string;
  your_address3 : option string;
  objectives : option string;
  timeline : option string;
  primary_audience : option string;
  secondary_audience : option string;
  call_action : option string;
  competition : option string;
  graphics : option string;
  photography : option string;
  multimedia : option string;
  other_info : option string;
  client_name : option string;
  client_comments : option string;
  approval_date : option string;
  approval_signature : option string
}.

(** The columns [idea], [career_goals], [future_work] and [deadlines] are
    written by no statement and are left out. *)
Record row : Type := {
  id : Z;
  name : option string;
  owner_email : option string;
  colleagues : option string;
  progress : option Z;
  description : description_columns
}.

Definition no_description : description_columns := {|
  project_title := None;
  notes := None;
  colleague_name := None;
  colleague_phone := None;
  colleague_email := None;
  colleague_address1 := None;
  colleague_address2 := None;
  colleague_address3 := None;
  your_name := None;
  your_phone := None;
  your_email := None;
  your_address1 := None;
  your_address2 := None;
  your_address3 := None;
  objectives := None;
  timeline := None;
  primary_audience := None;
  secondary_audience := None;
  call_action := None;
  competition := None;
  graphics := None;
  photography := None;
  multimedia := None;
  other_info := None;
  client_name := None;
  client_comments := None;
  approval_date := None;
  approval_signature := None
|}.
End Projects.

Module Description.
(** The camelCase shape of the description, in requests and responses. *)
Record t : Type := {
  projectTitle : option string;
  notes : option string;
  colleagueName : option string;
  colleaguePhone : option string;
  colleagueEmail : option string;
  colleagueAddress1 : option string;
  colleagueAddress2 : option string;
  colleagueAddress3 : option string;
  yourName : option string;
  yourPhone : option string;
  yourEmail : option string;
  yourAddress1 : option string;
  yourAddress2 : option string;
  yourAddress3 : option string;
  objectives : option string;
  timeline : option string;
  primaryAudience : option string;
  secondaryAudience : option string;
  callAction : option string;
  competition : option string;
  graphics : option string;
  photography : option string;
  multimedia : option string;
  otherInfo : option string;
  clientName : option string;
  clientComments : option string;
  approvalDate : option string;
  approvalSignature : option string
}.

Definition to_columns (d : t) : Projects.description_columns := {|
  Projects.project_title := projectTitle d;
  Projects.notes := notes d;
  Projects.colleague_name := colleagueName d;
  Projects.colleague_phone := colleaguePhone d;
  Projects.colleague_email := colleagueEmail d;
  Projects.colleague_address1 := colleagueAddress1 d;
  Projects.colleague_address2 := colleagueAddress2 d;
  Projects.colleague_address3 := colleagueAddress3 d;
  Projects.your_name := yourName d;
  Projects.your_phone := yourPhone d;
  Projects.your_email := yourEmail d;
  Projects.your_address1 := yourAddress1 d;
  Projects.your_address2 := yourAddress2 d;
  Projects.your_address3 := yourAddress3 d;
  Projects.objectives := objectives d;
  Projects.timeline := timeline d;
  Projects.primary_audience := primaryAudience d;
  Projects.secondary_audience := secondaryAudience d;
  Projects.call_action := callAction d;
  Projects.competition := competition d;
  Projects.graphics := graphics d;
  Projects.photography := photography d;
  Projects.multimedia := multimedia d;
  Projects.other_info := otherInfo d;
  Projects.client_name := clientName d;
  Projects.client_comments := clientComments d;
  Projects.approval_date := approvalDate d;
  Projects.approval_signature := approvalSignature d
|}.

Definition to_json (c : Projects.description_columns) : t := {|
  projectTitle := Projects.project_title c;
  notes := Projects.notes c;
  colleagueName := Projects.colleague_name c;
  colleaguePhone := Projects.colleague_phone c;
  colleagueEmail := Projects.colleague_email c;
  colleagueAddress1 := Projects.colleague_address1 c;
  colleagueAddress2 := Projects.colleague_address2 c;
  colleagueAddress3 := Projects.colleague_address3 c;
  yourName := Projects.your_name c;
  yourPhone := Projects.your_phone c;
  yourEmail := Projects.your_email c;
  yourAddress1 := Projects.your_address1 c;
  yourAddress2 := Projects.your_address2 c;
  yourAddress3 := Projects.your_address3 c;
  objectives := Projects.objectives c;
  timeline := Projects.timeline c;
  primaryAudience := Projects.primary_audience c;
  secondaryAudience := Projects.secondary_audience c;
  callAction := Projects.call_action c;
  competition := Projects.competition c;
  graphics := Projects.graphics c;
  photography := Projects.photography c;
  multimedia := Projects.multimedia c;
  otherInfo := Projects.other_info c;
  clientName := Projects.client_name c;
  clientComments := Projects.client_comments c;
  approvalDate := Projects.approval_date c;
  approvalSignature := Projects.approval_signature c
|}.
End Description.

Module Colleagues.
Record row : Type := {
  id : Z;
  project_id : option Z;
  name : option string;
  email : option string
}.
End Colleagues.

Module Meetings.
Record row : Type := {
  id : Z;
  colleague_email : option string;
  date : option string;
  description : option string
}.
End Meetings.

Module Ideas.
Record row : Type := {
  id : Z;
  user_email : option string;
  title : option string;
  content : option string;
  category : option string;
  created_date : option string
}.
End Ideas.

Module Notes.
Record row : Type := {
  id : Z;
  user_email : option string;
  title : option string;
  content : option string;
  created_date : option string
}.
End Notes.

Module CareerGoals.
Record row : Type := {
  id : Z;
  user_email : option string;
  title : option string;
  description : option string;
  progress : option Z;
  goal_type : option string;
  target_date : option string;
  created_date : option string;
  total_stages : option Z;
  current_stage : option Z;
  start_date : option string;
  stage_description : option string
}.
End CareerGoals.

Module StageHistory.
Record row : Type := {
  id : Z;
  goal_id : option Z;
  stage : option Z;
  description : option string;
  updated_date : option string
}.
End StageHistory.

Module FutureWork.
Record row : Type := {
  id : Z;
  user_email : option string;
  title : option string;
  description : option string;
  priority : option string;
  timeline : option string;
  created_date : option string
}.
End FutureWork.

Module Deadlines.
Record row : Type := {
  id : Z;
  user_email : option string;
  title : option string;
  description : option string;
  due_date : option string;
  priority : option string;
  status : option string;
  created_date : option string
}.
End Deadlines.

Module CalendarEvents.
Record row : Type := {
  id : Z;
  user_email : option string;
  title : option string;
  description : option string;
  event_date : option string;
  start_time : option string;
  end_time : option string;
  location : option string;
  category : option string;
  attendees : option string;
  reminder : option Z;
  is_all_day : option Z;
  recurrence : option string;
  recurrence_end : option string;
  show_as : option string;
  priority : option string;
  is_online : option Z;
  meeting_link : option string;
  attachments : option string;
  repeat_weekly : option Z;
  created_date : option string;
  modified_date : option string
}.
End CalendarEvents.

Module Profiles.
Record row : Type := {
  id : Z;
  user_email : option string;
  full_name : option string;
  designation : option string;
  department : option string;
  institution : option string;
  office_address : option string;
  official_email : option string;
  alternate_email : option string;
  phone : option string;
  website : option string;
  degrees : option string;
  employment : option string;
  research_keywords : option string;
  research_description : option string;
  scholar_link : option string;
  courses : option string;
  grants : option string;
  professional_activities : option string;
  awards : option string;
  skills : option string;
  outreach_service : option string;
  created_date : option string;
  modified_date : option string
}.
End Profiles.

(** The database: one table per [CREATE TABLE]. *)
Record db : Type := {
  users : table Users.row;
  projects : table Projects.row;
  colleagues : table Colleagues.row;
  meetings : table Meetings.row;
  ideas : table Ideas.row;
  notes : table Notes.row;
  career_goals : table CareerGoals.row;
  career_stage_history : table StageHistory.row;
  future_work : table FutureWork.row;
  deadlines : table Deadlines.row;
  calendar_events : table CalendarEvents.row;
  profiles : table Profiles.row
}.

Definition db_empty : db := {|
  users := empty;
  projects := empty;
  colleagues := empty;
  meetings := empty;
  ideas := empty;
  notes := empty;
  career_goals := empty;
  career_stage_history := empty;
  future_work := empty;
  deadlines := empty;
  calendar_events := empty;
  profiles := empty
|}.

Definition set_users (t : table Users.row) (d : db) : db := {|
  users := t;
  projects := projects d;
  colleagues := colleagues d;
  meetings := meetings d;
  ideas := ideas d;
  notes := notes d;
  career_goals := career_goals d;
  career_stage_history := career_stage_history d;
  future_work := future_work d;
  deadlines := deadlines d;
  calendar_events := calendar_events d;
  profiles := profiles d
|}.

Definition set_projects (t : table Projects.row) (d : db) : db := {|
  users := users d;
  projects := t;
  colleagues := colleagues d;
  meetings := meetings d;
  ideas := ideas d;
  notes := notes d;
  career_goals := career_goals d;
  career_stage_history := career_stage_history d;
  future_work := future_work d;
  deadlines := deadlines d;
  calendar_events := calendar_events d;
  profiles := profiles d
|}.

Definition set_colleagues (t : table Colleagues.row) (d : db) : db := {|
  users := users d;
  projects := projects d;
  colleagues := t;
  meetings := meetings d;
  ideas := ideas d;
  notes := notes d;
  career_goals := career_goals d;
  career_stage_history := career_stage_history d;
  future_work := future_work d;
  deadlines := deadlines d;
  calendar_events := calendar_events d;
  profiles := profiles d
|}.

Definition set_meetings (t : table Meetings.row) (d : db) : db := {|
  users := users d;
  projects := projects d;
  colleagues := colleagues d;
  meetings := t;
  ideas := ideas d;
  notes := notes d;
  career_goals := career_goals d;
  career_stage_history := career_stage_history d;
  future_work := future_work d;
  deadlines := deadlines d;
  calendar_events := calendar_events d;
  profiles := profiles d
|}.

Definition set_ideas (t : table Ideas.row) (d : db) : db := {|
  users := users d;
  projects := projects d;
  colleagues := colleagues d;
  meetings := meetings d;
  ideas := t;
  notes := notes d;
  career_goals := career_goals d;
  career_stage_history := career_stage_history d;
  future_work := future_work d;
  deadlines := deadlines d;
  calendar_events := calendar_events d;
  profiles := profiles d
|}.

Definition set_notes (t : table Notes.row) (d : db) : db := {|
  users := users d;
  projects := projects d;
  colleagues := colleagues d;
  meetings := meetings d;
  ideas := ideas d;
  notes := t;
  career_goals := career_goals d;
  career_stage_history := career_stage_history d;
  future_work := future_work d;
  deadlines := deadlines d;
  calendar_events := calendar_events d;
  profiles := profiles d
|}.

Definition set_career_goals (t : table CareerGoals.row) (d : db) : db := {|
  users := users d;
  projects := projects d;
  colleagues := colleagues d;
  meetings := meetings d;
  ideas := ideas d;
  notes := notes d;
  career_goals := t;
  career_stage_history := career_stage_history d;
  future_work := future_work d;
  deadlines := deadlines d;
  calendar_events := calendar_events d;
  profiles := profiles d
|}.

Definition set_career_stage_history (t : table StageHistory.row) (d : db) : db := {|
  users := users d;
  projects := projects d;
  colleagues := colleagues d;
  meetings := meetings d;
  ideas := ideas d;
  notes := notes d;
  career_goals := career_goals d;
  career_stage_history := t;
  future_work := future_work d;
  deadlines := deadlines d;
  calendar_events := calendar_events d;
  profiles := profiles d
|}.

Definition set_future_work (t : table FutureWork.row) (d : db) : db := {|
  users := users d;
  projects := projects d;
  colleagues := colleagues d;
  meetings := meetings d;
  ideas := ideas d;
  notes := notes d;
  career_goals := career_goals d;
  career_stage_history := career_stage_history d;
  future_work := t;
  deadlines := deadlines d;
  calendar_events := calendar_events d;
  profiles := profiles d
|}.

Definition set_deadlines (t : table Deadlines.row) (d : db) : db := {|
  users := users d;
  projects := projects d;
  colleagues := colleagues d;
  meetings := meetings d;
  ideas := ideas d;
  notes := notes d;
  career_goals := career_goals d;
  career_stage_history := career_stage_history d;
  future_work := future_work d;
  deadlines := t;
  calendar_events := calendar_events d;
  profiles := profiles d
|}.

Definition set_calendar_events (t : table CalendarEvents.row) (d : db) : db := {|
  users := users d;
  projects := projects d;
  colleagues := colleagues d;
  meetings := meetings d;
  ideas := ideas d;
  notes := notes d;
  career_goals := career_goals d;
  career_stage_history := career_stage_history d;
  future_work := future_work d;
  deadlines := deadlines d;
  calendar_events := t;
  profiles := profiles d
|}.

Definition set_profiles (t : table Profiles.row) (d : db) : db := {|
  users := users d;
  projects := projects d;
  colleagues := colleagues d;
  meetings := meetings d;
  ideas := ideas d;
  notes := notes d;
  career_goals := career_goals d;
  career_stage_history := career_stage_history d;
  future_work := future_work d;
  deadlines := deadlines d;
  calendar_events := calendar_events d;
  profiles := t
|}.

(* ================================================================== *)
(** * Requests and responses *)
(* ================================================================== *)

(** What a handler sends: [res.json(body)] (status 200), the
    [{ success: false, message }] shape of the auth routes, or the
    [{ error, details }] shape of the others. *)
Inductive response (A : Type) : Type :=
| Json (body : A)
| AuthFailure (status : nat) (message : string)
| Failure (status : nat) (error : string) (details : option string).

Arguments AuthFailure {A} status message.
Arguments Failure {A} status error details.

Definition status {A} (r : response A) : nat :=
  match r with
  | Json _ => 200
  | AuthFailure s _ => s
  | Failure s _ _ => s
  end.

(** The result of a statement: its rows, or the SQLSTATE it raised. *)
Inductive outcome (A : Type) : Type :=
| Done (a : A)
| Raised (code : string).

Arguments Raised {A} code.

(** [{ updated: n }] and [{ deleted: n }]. *)
Inductive count : Type :=
| Updated (n : nat)
| Deleted (n : nat).

(** The two functions of [bcryptjs] the server calls: [hash(data, rounds)]
    with the salt it draws, and [compare(data, hash)]. *)
Class Bcrypt : Type := {
  bcrypt_hash : string -> nat -> string -> string;
  bcrypt_compare : string -> string -> bool
}.

(** A password verifies against its own hash. *)
Class BcryptVerifies (B : Bcrypt) : Prop :=
  compare_hash : forall p n salt, bcrypt_compare p (bcrypt_hash p n salt) = true.

(** The two functions of the built-in [JSON] object that the profile
    routes call, over the values that [body-parser] hands to a handler:
    [value] is any such value (a number is the double it denotes, compared
    as [===] compares), [array] the array of the given elements,
    [truthy_value] is ToBoolean, [JSON_parse] answers [None] where
    [JSON.parse] throws.  The text that [JSON_stringify] returns is a token
    to the handlers: they store it, test a stored one for emptiness and
    hand it to [JSON_parse]; it is a [string] as every [TEXT] of the store
    is. *)
Class JSON : Type := {
  value : Type;
  array : list value -> value;
  truthy_value : value -> bool;
  JSON_stringify : value -> string;
  JSON_parse : string -> option value
}.

(** An array is an object, and so truthy; the text of a value is never
    empty; parsing the text of a value gives the value back. *)
Class JSONLaws (J : JSON) : Prop := {
  array_truthy : forall l, truthy_value (array l) = true;
  stringify_nonempty : forall v, JSON_stringify v <> EmptyString;
  parse_stringify : forall v, JSON_parse (JSON_stringify v) = Some v
}.

(** [x || d] on a field that holds any value, [None] when it is absent. *)
Definition value_or {J : JSON} (x : option value) (d : value) : value :=
  match x with
  | Some v => if truthy_value v then v else d
  | None => d
  end.

(** The handlers test [email] and [password] for presence only, so each
    may arrive as any scalar. *)
Module Credentials.
Record body : Type := {
  name : option string;
  email : scalar;
  password : scalar
}.
End Credentials.

Module Account.
Record t : Type := {
  success : bool;
  id : Z;
  email : string;
  message : string
}.
End Account.

Module Session.
Record t : Type := {
  success : bool;
  email : string;
  message : string
}.
End Session.

Module PostProjects.
Record body : Type := {
  name : option string;
  owner_email : option string;
  colleagues : option string;
  progress : option Z
}.
End PostProjects.

Module PutProjects.
(** [progress] is tested against [undefined]: [None] is an absent field,
    [Some None] is [null]. *)
Record body : Type := {
  name : option string;
  colleagues : option string;
  progress : option (option Z)
}.
End PutProjects.

Module PutDescription.
Record reply : Type := {
  updated : nat;
  data : Description.t
}.
End PutDescription.

Module PostMeetings.
Record body : Type := {
  colleague_email : option string;
  date : option string;
  description : option string
}.
End PostMeetings.

Module PostIdeas.
Record body : Type := {
  user_email : option string;
  title : option string;
  content : option string;
  category : option string;
  created_date : option string
}.
End PostIdeas.

Module PutIdeas.
Record body : Type := {
  title : option string;
  content : option string;
  category : option string
}.
End PutIdeas.

Module PostNotes.
Record body : Type := {
  user_email : option string;
  title : option string;
  content : option string;
  created_date : option string
}.
End PostNotes.

Module PutNotes.
Record body : Type := {
  title : option string;
  content : option string
}.
End PutNotes.

Module PostCareerGoals.
Record body : Type := {
  user_email : option string;
  title : option string;
  description : option string;
  progress : option Z;
  goal_type : option string;
  target_date : option string;
  total_stages : option Z;
  current_stage : option Z;
  start_date : option string;
  stage_description : option string;
  created_date : option string
}.
End PostCareerGoals.

Module PutCareerGoals.
Record body : Type := {
  title : option string;
  description : option string;
  progress : option Z;
  goal_type : option string;
  target_date : option string;
  total_stages : option Z;
  current_stage : option Z;
  start_date : option string;
  stage_description : option string
}.
End PutCareerGoals.

Module PostHistory.
Record body : Type := {
  stage : option Z;
  description : option string
}.
End PostHistory.

Module PostFutureWork.
Record body : Type := {
  user_email : option string;
  title : option string;
  description : option string;
  priority : option string;
  timeline : option string;
  created_date : option string
}.
End PostFutureWork.

Module PutFutureWork.
Record body : Type := {
  title : option string;
  description : option string;
  priority : option string;
  timeline : option string
}.
End PutFutureWork.

Module PostDeadlines.
Record body : Type := {
  user_email : option string;
  title : option string;
  description : option string;
  due_date : option string;
  priority : option string;
  status : option string;
  created_date : option string
}.
End PostDeadlines.

Module PutDeadlines.
Record body : Type := {
  title : option string;
  description : option string;
  due_date : option string;
  priority : option string;
  status : option string
}.
End PutDeadlines.

Module PostEvents.
(** [created_date] may be sent by a caller; the handler does not read it. *)
Record body : Type := {
  userEmail : option string;
  title : option string;
  description : option string;
  date : option string;
  start : option string;
  end_ : option string;
  location : option string;
  category : option string;
  attendees : option string;
  reminder : option Z;
  isAllDay : json;
  recurrence : option string;
  recurrenceEnd : option string;
  showAs : option string;
  priority : option string;
  isOnline : json;
  meetingLink : option string;
  attachments : option string;
  repeatWeekly : json;
  created_date : option string
}.
End PostEvents.

Module PutEvents.
Record body : Type := {
  title : option string;
  description : option string;
  date : option string;
  start : option string;
  end_ : option string;
  location : option string;
  category : option string;
  attendees : option string;
  reminder : option Z;
  isAllDay : json;
  recurrence : option string;
  recurrenceEnd : option string;
  showAs : option string;
  priority : option string;
  isOnline : json;
  meetingLink : option string;
  attachments : option string;
  repeatWeekly : json
}.
End PutEvents.

Module EventView.
(** A row of [GET /events/:email]: the selected columns under their
    aliases, which PostgreSQL folds to lower case, and the three
    properties the handler adds. *)
Record t : Type := {
  id : Z;
  title : option string;
  description : option string;
  date : option string;
  start : option string;
  end_ : option string;
  location : option string;
  category : option string;
  attendees : option string;
  reminder : option Z;
  isallday : option Z;
  recurrence : option string;
  recurrenceend : option string;
  showas : option string;
  priority : option string;
  isonline : option Z;
  meetinglink : option string;
  attachments : option string;
  repeatweekly : option Z;
  createddate : option string;
  modifieddate : option string;
  isAllDay : bool;
  isOnline : bool;
  repeatWeekly : bool
}.
End EventView.

Module PostCalendarEvents.
Record body : Type := {
  user_email : option string;
  title : option string;
  description : option string;
  event_date : option string;
  start_time : option string;
  end_time : option string;
  repeat_weekly : option Z;
  created_date : option string
}.
End PostCalendarEvents.

Module PutCalendarEvents.
Record body : Type := {
  title : option string;
  description : option string;
  event_date : option string;
  start_time : option string;
  end_time : option string;
  repeat_weekly : option Z
}.
End PutCalendarEvents.

Module PostProfile.
Record body {J : JSON} : Type := {
  userEmail : option string;
  fullName : option string;
  designation : option string;
  department : option string;
  institution : option string;
  officeAddress : option string;
  officialEmail : option string;
  alternateEmail : option string;
  phone : option string;
  website : option string;
  degrees : option value;
  employment : option value;
  researchKeywords : option string;
  researchDescription : option string;
  scholarLink : option string;
  courses : option value;
  grants : option value;
  professionalActivities : option string;
  awards : option value;
  skills : option string;
  outreachService : option string
}.

Record reply : Type := {
  message : string;
  id : option Z
}.
End PostProfile.

Module ProfileView.
Record t {J : JSON} : Type := {
  userEmail : option string;
  fullName : option string;
  designation : option string;
  department : option string;
  institution : option string;
  officeAddress : option string;
  officialEmail : option string;
  alternateEmail : option string;
  phone : option string;
  website : option string;
  degrees : value;
  employment : value;
  researchKeywords : option string;
  researchDescription : option string;
  scholarLink : option string;
  courses : value;
  grants : value;
  professionalActivities : option string;
  awards : value;
  skills : option string;
  outreachService : option string
}.
End ProfileView.

Module DeleteProfile.
Record reply : Type := {
  deleted : nat;
  message : string
}.
End DeleteProfile.

(* ================================================================== *)
(** * Route handlers *)
(* ================================================================== *)

Local Open Scope string_scope.
Local Open Scope Z_scope.

(** The string a checked field holds. *)
Definition text (x : option string) : string :=
  match x with
  | Some s => s
  | None => ""
  end.

(** [col = $1] on a nullable integer column. *)
Definition int_is (col : option Z) (v : Z) : bool :=
  match col with
  | Some n => n =? v
  | None => false
  end.

Definition user_exists (d : db) (e : string) : bool :=
  existsb (fun u => (Users.email u =? e)%string) (rows (users d)).

(** [REFERENCES users(email)]: a [NULL] reference is not checked. *)
Definition references_user (d : db) (owner : option string) : bool :=
  match owner with
  | Some e => user_exists d e
  | None => true
  end.

(** An [INSERT] into a table whose [user_email] references [users(email)]. *)
Definition insert_owned {R} (d : db) (owner : option string) (mk : Z -> R)
  (t : table R) : table R * outcome R :=
  if references_user d owner then
    let (t', r) := insert mk t in (t', Done r)
  else (refused t, Raised foreign_key_violation).

(** ** Auth *)

(** [INSERT INTO users (email, password) VALUES ($1, $2) RETURNING id, email]
    under [email TEXT UNIQUE].  The hash that [bcryptjs] returns is
    radix-64 text; the email is whatever text the client sent. *)
Definition insert_user (d : db) (e h : string) : db * outcome Users.row :=
  if has_nul e then (d, Raised invalid_text)
  else if user_exists d e then
    (set_users (refused (users d)) d, Raised unique_violation)
  else
    let (t, r) :=
      insert (fun i => {| Users.id := i; Users.email := e;
                          Users.password := h |}) (users d) in
    (set_users t d, Done r).

(** Inside the [try], [bcrypt.hash] rejects a password that is not a
    string and [email.toLowerCase] does not exist on an email that is not
    one: both throw, and the [catch] answers 500, as it does for every
    error of the store other than 23505. *)
Definition post_register `{Bcrypt} (d : db) (salt : string)
  (b : Credentials.body) : db * response Account.t :=
  let email := Credentials.email b in
  let password := Credentials.password b in
  if negb (scalar_truthy email) || negb (scalar_truthy password) then
    (d, AuthFailure 400 "Email and password are required.")
  else if shorter password 6 then
    (d, AuthFailure 400 "Password must be at least 6 characters long.")
  else
    let saltRounds := 10%nat in
    match as_string password, as_string email with
    | Some password, Some email =>
        let hashedPassword := bcrypt_hash password saltRounds salt in
        match insert_user d (trim (toLowerCase email)) hashedPassword with
        | (d', Done row) =>
            (d', Json {| Account.success := true;
                         Account.id := Users.id row;
                         Account.email := Users.email row;
                         Account.message := "Account created successfully!" |})
        | (d', Raised code) =>
            if (code =? "23505")%string then
              (d', AuthFailure 400 "User already exists.")
            else (d', AuthFailure 500 "Server error during signup.")
        end
    | _, _ => (d, AuthFailure 500 "Server error during signup.")
    end.

Definition post_signup `{Bcrypt} (d : db) (salt : string)
  (b : Credentials.body) : db * response Account.t :=
  let email := Credentials.email b in
  let password := Credentials.password b in
  if negb (scalar_truthy email) || negb (scalar_truthy password) then
    (d, AuthFailure 400 "Email and password are required.")
  else if shorter password 6 then
    (d, AuthFailure 400 "Password must be at least 6 characters long.")
  else
    let saltRounds := 10%nat in
    match as_string password, as_string email with
    | Some password, Some email =>
        let hashedPassword := bcrypt_hash password saltRounds salt in
        match insert_user d (trim (toLowerCase email)) hashedPassword with
        | (d', Done row) =>
            (d', Json {| Account.success := true;
                         Account.id := Users.id row;
                         Account.email := Users.email row;
                         Account.message := "Account created successfully!" |})
        | (d', Raised code) =>
            if (code =? "23505")%string then
              (d', AuthFailure 400 "User already exists.")
            else (d', AuthFailure 500 "Server error during signup.")
        end
    | _, _ => (d, AuthFailure 500 "Server error during signup.")
    end.

(** Everything after the presence test runs inside the [try]: an email
    that is not a string has no [toLowerCase], the store refuses a NUL
    character in the parameter of the [SELECT], and [bcrypt.compare]
    rejects a password that is not a string.  Each throws, and the [catch]
    answers 500. *)
Definition post_login `{Bcrypt} (d : db) (b : Credentials.body)
  : response Session.t :=
  let email := Credentials.email b in
  let password := Credentials.password b in
  if negb (scalar_truthy email) || negb (scalar_truthy password) then
    AuthFailure 400 "Email and password are required."
  else
    match as_string email with
    | None => AuthFailure 500 "Login failed."
    | Some email =>
        if has_nul (trim (toLowerCase email)) then
          AuthFailure 500 "Login failed."
        else
          match select (fun u => (Users.email u =? trim (toLowerCase email))%string)
                       (users d) with
          | [] => AuthFailure 400 "Invalid credentials."
          | user :: _ =>
              match as_string password with
              | None => AuthFailure 500 "Login failed."
              | Some password =>
                  let passwordMatch :=
                    bcrypt_compare password (Users.password user) in
                  if negb passwordMatch then
                    AuthFailure 400 "Invalid credentials."
                  else Json {| Session.success := true;
                               Session.email := Users.email user;
                               Session.message := "Login successful!" |}
              end
          end
    end.

(** ** Projects *)

Definition post_projects (d : db) (b : PostProjects.body)
  : db * response Projects.row :=
  if negb (str_truthy (PostProjects.name b))
     || negb (str_truthy (PostProjects.owner_email b)) then
    (d, Failure 400 "Project name and owner email are required." None)
  else
    let (t, r) :=
      insert (fun i => {|
        Projects.id := i;
        Projects.name := PostProjects.name b;
        Projects.owner_email := PostProjects.owner_email b;
        Projects.colleagues := Some (str_or (PostProjects.colleagues b) "[]");
        Projects.progress := Some (int_or (PostProjects.progress b) 0);
        Projects.description := Projects.no_description |}) (projects d) in
    (set_projects t d, Json r).

Definition get_projects (d : db) (email : string)
  : response (list Projects.row) :=
  Json (select (fun r => text_is (Projects.owner_email r) email) (projects d)).

Definition put_projects (d : db) (id : Z) (b : PutProjects.body)
  : db * response count :=
  let (t, n) :=
    update_where (fun r => Projects.id r =? id)
      (fun r => {|
        Projects.id := Projects.id r;
        Projects.name := PutProjects.name b;
        Projects.owner_email := Projects.owner_email r;
        Projects.colleagues := PutProjects.colleagues b;
        Projects.progress :=
          match PutProjects.progress b with
          | Some progress => progress
          | None => Some 0
          end;
        Projects.description := Projects.description r |}) (projects d) in
  (set_projects t d, Json (Updated n)).

(** [colleagues.project_id REFERENCES projects(id)] forbids the removal of
    a project a colleague refers to. *)
Definition delete_projects (d : db) (id : Z) : db * response count :=
  let gone := select (fun r => Projects.id r =? id) (projects d) in
  if existsb (fun c => existsb (fun r => int_is (Colleagues.project_id c)
                                          (Projects.id r)) gone)
       (rows (colleagues d)) then
    (d, Failure 500 "Error deleting project." None)
  else
    let (t, n) := delete_where (fun r => Projects.id r =? id) (projects d) in
    (set_projects t d, Json (Deleted n)).

(** ** Meetings *)

Definition post_meetings (d : db) (b : PostMeetings.body)
  : db * response Meetings.row :=
  let (t, r) :=
    insert (fun i => {|
      Meetings.id := i;
      Meetings.colleague_email := PostMeetings.colleague_email b;
      Meetings.date := PostMeetings.date b;
      Meetings.description := PostMeetings.description b |}) (meetings d) in
  (set_meetings t d, Json r).

Definition get_meetings (d : db) (email : string)
  : response (list Meetings.row) :=
  Json (select (fun r => text_is (Meetings.colleague_email r) email)
          (meetings d)).

(** ** Project description *)

(** [None] is the empty object [{}]. *)
Definition get_projects_description (d : db) (id : Z)
  : response (option Description.t) :=
  match select (fun r => Projects.id r =? id) (projects d) with
  | [] => Json None
  | row :: _ => Json (Some (Description.to_json (Projects.description row)))
  end.

(** [UPDATE projects SET ... WHERE id = $29 RETURNING *], then
    [result.rows[0]] is read without a test: on an empty result the
    property access throws and the [catch] answers 500. *)
Definition put_projects_description (d : db) (id : Z) (b : Description.t)
  : db * response PutDescription.reply :=
  let (t, n) :=
    update_where (fun r => Projects.id r =? id)
      (fun r => {|
        Projects.id := Projects.id r;
        Projects.name := Projects.name r;
        Projects.owner_email := Projects.owner_email r;
        Projects.colleagues := Projects.colleagues r;
        Projects.progress := Projects.progress r;
        Projects.description := Description.to_columns b |}) (projects d) in
  match select (fun r => Projects.id r =? id) t with
  | [] =>
      (set_projects t d,
       Failure 500 "Error updating description."
         (Some "Cannot read properties of undefined (reading 'project_title')"))
  | row :: _ =>
      (set_projects t d,
       Json {| PutDescription.updated := n;
               PutDescription.data :=
                 Description.to_json (Projects.description row) |})
  end.

(** ** Ideas *)

Definition get_ideas (d : db) (email : string) : response (list Ideas.row) :=
  Json (order_by (fun r => desc (Ideas.created_date r))
          (select (fun r => text_is (Ideas.user_email r) email) (ideas d))).

Definition post_ideas (d : db) (now : string) (b : PostIdeas.body)
  : db * response Ideas.row :=
  let date := str_or (PostIdeas.created_date b) now in
  match insert_owned d (PostIdeas.user_email b)
          (fun i => {|
             Ideas.id := i;
             Ideas.user_email := PostIdeas.user_email b;
             Ideas.title := PostIdeas.title b;
             Ideas.content := PostIdeas.content b;
             Ideas.category := Some (str_or (PostIdeas.category b) "general");
             Ideas.created_date := Some date |}) (ideas d) with
  | (t, Done r) => (set_ideas t d, Json r)
  | (t, Raised _) => (set_ideas t d, Failure 500 "Error creating idea." None)
  end.

Definition put_ideas (d : db) (id : Z) (b : PutIdeas.body)
  : db * response count :=
  let (t, n) :=
    update_where (fun r => Ideas.id r =? id)
      (fun r => {|
        Ideas.id := Ideas.id r;
        Ideas.user_email := Ideas.user_email r;
        Ideas.title := PutIdeas.title b;
        Ideas.content := PutIdeas.content b;
        Ideas.category := PutIdeas.category b;
        Ideas.created_date := Ideas.created_date r |}) (ideas d) in
  (set_ideas t d, Json (Updated n)).

Definition delete_ideas (d : db) (id : Z) : db * response count :=
  let (t, n) := delete_where (fun r => Ideas.id r =? id) (ideas d) in
  (set_ideas t d, Json (Deleted n)).

(** ** Notes *)

Definition get_notes (d : db) (email : string) : response (list Notes.row) :=
  Json (order_by (fun r => desc (Notes.created_date r))
          (select (fun r => text_is (Notes.user_email r) email) (notes d))).

Definition post_notes (d : db) (now : string) (b : PostNotes.body)
  : db * response Notes.row :=
  let date := str_or (PostNotes.created_date b) now in
  match insert_owned d (PostNotes.user_email b)
          (fun i => {|
             Notes.id := i;
             Notes.user_email := PostNotes.user_email b;
             Notes.title := PostNotes.title b;
             Notes.content := PostNotes.content b;
             Notes.created_date := Some date |}) (notes d) with
  | (t, Done r) => (set_notes t d, Json r)
  | (t, Raised _) => (set_notes t d, Failure 500 "Error creating note." None)
  end.

Definition put_notes (d : db) (id : Z) (b : PutNotes.body)
  : db * response count :=
  let (t, n) :=
    update_where (fun r => Notes.id r =? id)
      (fun r => {|
        Notes.id := Notes.id r;
        Notes.user_email := Notes.user_email r;
        Notes.title := PutNotes.title b;
        Notes.content := PutNotes.content b;
        Notes.created_date := Notes.created_date r |}) (notes d) in
  (set_notes t d, Json (Updated n)).

Definition delete_notes (d : db) (id : Z) : db * response count :=
  let (t, n) := delete_where (fun r => Notes.id r =? id) (notes d) in
  (set_notes t d, Json (Deleted n)).

(** ** Career goals and their stage history *)

Definition get_career_goals (d : db) (email : string)
  : response (list CareerGoals.row) :=
  Json (order_by (fun r => desc (CareerGoals.created_date r))
          (select (fun r => text_is (CareerGoals.user_email r) email)
             (career_goals d))).

Definition get_career (d : db) (email : string)
  : response (list CareerGoals.row) :=
  Json (order_by (fun r => desc (CareerGoals.created_date r))
          (select (fun r => text_is (CareerGoals.user_email r) email)
             (career_goals d))).

Definition post_career_goals (d : db) (now : string)
  (b : PostCareerGoals.body) : db * response CareerGoals.row :=
  let date := str_or (PostCareerGoals.created_date b) now in
  match insert_owned d (PostCareerGoals.user_email b)
          (fun i => {|
             CareerGoals.id := i;
             CareerGoals.user_email := PostCareerGoals.user_email b;
             CareerGoals.title := PostCareerGoals.title b;
             CareerGoals.description := PostCareerGoals.description b;
             CareerGoals.progress :=
               Some (int_or (PostCareerGoals.progress b) 0);
             CareerGoals.goal_type :=
               Some (str_or (PostCareerGoals.goal_type b) "general");
             CareerGoals.target_date := PostCareerGoals.target_date b;
             CareerGoals.created_date := Some date;
             CareerGoals.total_stages :=
               Some (int_or (PostCareerGoals.total_stages b) 5);
             CareerGoals.current_stage :=
               Some (int_or (PostCareerGoals.current_stage b) 0);
             CareerGoals.start_date := PostCareerGoals.start_date b;
             CareerGoals.stage_description :=
               PostCareerGoals.stage_description b |}) (career_goals d) with
  | (t, Done r) => (set_career_goals t d, Json r)
  | (t, Raised _) =>
      (set_career_goals t d, Failure 500 "Error creating career goal." None)
  end.

Definition put_career_goals (d : db) (id : Z) (b : PutCareerGoals.body)
  : db * response count :=
  let (t, n) :=
    update_where (fun r => CareerGoals.id r =? id)
      (fun r => {|
        CareerGoals.id := CareerGoals.id r;
        CareerGoals.user_email := CareerGoals.user_email r;
        CareerGoals.title := PutCareerGoals.title b;
        CareerGoals.description := PutCareerGoals.description b;
        CareerGoals.progress := PutCareerGoals.progress b;
        CareerGoals.goal_type := PutCareerGoals.goal_type b;
        CareerGoals.target_date := PutCareerGoals.target_date b;
        CareerGoals.created_date := CareerGoals.created_date r;
        CareerGoals.total_stages := PutCareerGoals.total_stages b;
        CareerGoals.current_stage := PutCareerGoals.current_stage b;
        CareerGoals.start_date := PutCareerGoals.start_date b;
        CareerGoals.stage_description :=
          PutCareerGoals.stage_description b |}) (career_goals d) in
  (set_career_goals t d, Json (Updated n)).

(** [goal_id INTEGER REFERENCES career_goals(id) ON DELETE CASCADE]: the
    history rows of the removed goals go with them. *)
Definition cascade (gone : list CareerGoals.row) (h : table StageHistory.row)
  : table StageHistory.row :=
  fst (delete_where
         (fun r => existsb (fun g => int_is (StageHistory.goal_id r)
                                       (CareerGoals.id g)) gone) h).

Definition delete_career_goals (d : db) (id : Z) : db * response count :=
  (* Delete history entries first (CASCADE should handle this, but being
     explicit) *)
  let (h, _) :=
    delete_where (fun r => int_is (StageHistory.goal_id r) id)
      (career_stage_history d) in
  let d1 := set_career_stage_history h d in
  (* Delete the goal *)
  let gone := select (fun r => CareerGoals.id r =? id) (career_goals d1) in
  let (g, n) :=
    delete_where (fun r => CareerGoals.id r =? id) (career_goals d1) in
  let d2 :=
    set_career_stage_history (cascade gone (career_stage_history d1))
      (set_career_goals g d1) in
  (d2, Json (Deleted n)).

Definition get_career_goals_history (d : db) (id : Z)
  : response (list StageHistory.row) :=
  Json (order_by (fun r => (StageHistory.stage r,
                            desc (StageHistory.updated_date r)))
          (select (fun r => int_is (StageHistory.goal_id r) id)
             (career_stage_history d))).

Definition post_career_goals_history (d : db) (now : string) (id : Z)
  (b : PostHistory.body) : db * response StageHistory.row :=
  let updated_date := now in
  if existsb (fun g => CareerGoals.id g =? id) (rows (career_goals d)) then
    let (t, r) :=
      insert (fun i => {|
        StageHistory.id := i;
        StageHistory.goal_id := Some id;
        StageHistory.stage := PostHistory.stage b;
        StageHistory.description := PostHistory.description b;
        StageHistory.updated_date := Some updated_date |})
        (career_stage_history d) in
    (set_career_stage_history t d, Json r)
  else
    (set_career_stage_history (refused (career_stage_history d)) d,
     Failure 500 "Error adding stage history." None).

(** Both parameters are compared with [INTEGER] columns: an id outside the
    range of the type makes the statement throw, and the [catch] answers
    500. *)
Definition delete_career_goals_history (d : db) (goalId historyId : Z)
  : db * response count :=
  if int4 historyId && int4 goalId then
    let (t, n) :=
      delete_where (fun r => (StageHistory.id r =? historyId)
                             && int_is (StageHistory.goal_id r) goalId)
        (career_stage_history d) in
    (set_career_stage_history t d, Json (Deleted n))
  else (d, Failure 500 "Error deleting history entry." None).

(** ** Future work *)

Definition get_future_work (d : db) (email : string)
  : response (list FutureWork.row) :=
  Json (order_by (fun r => desc (FutureWork.created_date r))
          (select (fun r => text_is (FutureWork.user_email r) email)
             (future_work d))).

Definition get_future (d : db) (email : string)
  : response (list FutureWork.row) :=
  Json (order_by (fun r => desc (FutureWork.created_date r))
          (select (fun r => text_is (FutureWork.user_email r) email)
             (future_work d))).

Definition post_future_work (d : db) (now : string) (b : PostFutureWork.body)
  : db * response FutureWork.row :=
  let date := str_or (PostFutureWork.created_date b) now in
  match insert_owned d (PostFutureWork.user_email b)
          (fun i => {|
             FutureWork.id := i;
             FutureWork.user_email := PostFutureWork.user_email b;
             FutureWork.title := PostFutureWork.title b;
             FutureWork.description := PostFutureWork.description b;
             FutureWork.priority :=
               Some (str_or (PostFutureWork.priority b) "medium");
             FutureWork.timeline := PostFutureWork.timeline b;
             FutureWork.created_date := Some date |}) (future_work d) with
  | (t, Done r) => (set_future_work t d, Json r)
  | (t, Raised _) =>
      (set_future_work t d, Failure 500 "Error creating future work." None)
  end.

Definition put_future_work (d : db) (id : Z) (b : PutFutureWork.body)
  : db * response count :=
  let (t, n) :=
    update_where (fun r => FutureWork.id r =? id)
      (fun r => {|
        FutureWork.id := FutureWork.id r;
        FutureWork.user_email := FutureWork.user_email r;
        FutureWork.title := PutFutureWork.title b;
        FutureWork.description := PutFutureWork.description b;
        FutureWork.priority := PutFutureWork.priority b;
        FutureWork.timeline := PutFutureWork.timeline b;
        FutureWork.created_date := FutureWork.created_date r |})
      (future_work d) in
  (set_future_work t d, Json (Updated n)).

Definition delete_future_work (d : db) (id : Z) : db * response count :=
  let (t, n) := delete_where (fun r => FutureWork.id r =? id) (future_work d) in
  (set_future_work t d, Json (Deleted n)).

(** ** Deadlines *)

Definition get_deadlines (d : db) (email : string)
  : response (list Deadlines.row) :=
  Json (order_by (fun r => Deadlines.due_date r)
          (select (fun r => text_is (Deadlines.user_email r) email)
             (deadlines d))).

Definition post_deadlines (d : db) (now : string) (b : PostDeadlines.body)
  : db * response Deadlines.row :=
  let date := str_or (PostDeadlines.created_date b) now in
  match insert_owned d (PostDeadlines.user_email b)
          (fun i => {|
             Deadlines.id := i;
             Deadlines.user_email := PostDeadlines.user_email b;
             Deadlines.title := PostDeadlines.title b;
             Deadlines.description := PostDeadlines.description b;
             Deadlines.due_date := PostDeadlines.due_date b;
             Deadlines.priority :=
               Some (str_or (PostDeadlines.priority b) "medium");
             Deadlines.status :=
               Some (str_or (PostDeadlines.status b) "pending");
             Deadlines.created_date := Some date |}) (deadlines d) with
  | (t, Done r) => (set_deadlines t d, Json r)
  | (t, Raised _) =>
      (set_deadlines t d, Failure 500 "Error creating deadline." None)
  end.

Definition put_deadlines (d : db) (id : Z) (b : PutDeadlines.body)
  : db * response count :=
  let (t, n) :=
    update_where (fun r => Deadlines.id r =? id)
      (fun r => {|
        Deadlines.id := Deadlines.id r;
        Deadlines.user_email := Deadlines.user_email r;
        Deadlines.title := PutDeadlines.title b;
        Deadlines.description := PutDeadlines.description b;
        Deadlines.due_date := PutDeadlines.due_date b;
        Deadlines.priority := PutDeadlines.priority b;
        Deadlines.status := PutDeadlines.status b;
        Deadlines.created_date := Deadlines.created_date r |}) (deadlines d) in
  (set_deadlines t d, Json (Updated n)).

Definition delete_deadlines (d : db) (id : Z) : db * response count :=
  let (t, n) := delete_where (fun r => Deadlines.id r =? id) (deadlines d) in
  (set_deadlines t d, Json (Deleted n)).

(** ** Calendar events *)

(** [isAllDay ? 1 : 0]. *)
Definition flag (v : json) : Z := if truthy v then 1 else 0.

Definition event_view (row : CalendarEvents.row) : EventView.t := {|
  EventView.id := CalendarEvents.id row;
  EventView.title := CalendarEvents.title row;
  EventView.description := CalendarEvents.description row;
  EventView.date := CalendarEvents.event_date row;
  EventView.start := CalendarEvents.start_time row;
  EventView.end_ := CalendarEvents.end_time row;
  EventView.location := CalendarEvents.location row;
  EventView.category := CalendarEvents.category row;
  EventView.attendees := CalendarEvents.attendees row;
  EventView.reminder := CalendarEvents.reminder row;
  EventView.isallday := CalendarEvents.is_all_day row;
  EventView.recurrence := CalendarEvents.recurrence row;
  EventView.recurrenceend := CalendarEvents.recurrence_end row;
  EventView.showas := CalendarEvents.show_as row;
  EventView.priority := CalendarEvents.priority row;
  EventView.isonline := CalendarEvents.is_online row;
  EventView.meetinglink := CalendarEvents.meeting_link row;
  EventView.attachments := CalendarEvents.attachments row;
  EventView.repeatweekly := CalendarEvents.repeat_weekly row;
  EventView.createddate := CalendarEvents.created_date row;
  EventView.modifieddate := CalendarEvents.modified_date row;
  EventView.isAllDay := Boolean (CalendarEvents.is_all_day row);
  EventView.isOnline := Boolean (CalendarEvents.is_online row);
  EventView.repeatWeekly := Boolean (CalendarEvents.repeat_weekly row)
|}.

Definition get_events (d : db) (email : string)
  : response (list EventView.t) :=
  Json (map event_view
          (order_by (fun r => (CalendarEvents.event_date r,
                               CalendarEvents.start_time r))
             (select (fun r => text_is (CalendarEvents.user_email r) email)
                (calendar_events d)))).

Definition post_events (d : db) (now : string) (b : PostEvents.body)
  : db * response CalendarEvents.row :=
  let created_date := now in
  let modified_date := created_date in
  match insert_owned d (PostEvents.userEmail b)
          (fun i => {|
             CalendarEvents.id := i;
             CalendarEvents.user_email := PostEvents.userEmail b;
             CalendarEvents.title := PostEvents.title b;
             CalendarEvents.description := PostEvents.description b;
             CalendarEvents.event_date := PostEvents.date b;
             CalendarEvents.start_time := PostEvents.start b;
             CalendarEvents.end_time := PostEvents.end_ b;
             CalendarEvents.location := PostEvents.location b;
             CalendarEvents.category :=
               Some (str_or (PostEvents.category b) "Work");
             CalendarEvents.attendees := PostEvents.attendees b;
             CalendarEvents.reminder :=
               Some (int_or (PostEvents.reminder b) 15);
             CalendarEvents.is_all_day := Some (flag (PostEvents.isAllDay b));
             CalendarEvents.recurrence :=
               Some (str_or (PostEvents.recurrence b) "none");
             CalendarEvents.recurrence_end := PostEvents.recurrenceEnd b;
             CalendarEvents.show_as :=
               Some (str_or (PostEvents.showAs b) "busy");
             CalendarEvents.priority :=
               Some (str_or (PostEvents.priority b) "normal");
             CalendarEvents.is_online := Some (flag (PostEvents.isOnline b));
             CalendarEvents.meeting_link := PostEvents.meetingLink b;
             CalendarEvents.attachments := PostEvents.attachments b;
             CalendarEvents.repeat_weekly :=
               Some (flag (PostEvents.repeatWeekly b));
             CalendarEvents.created_date := Some created_date;
             CalendarEvents.modified_date := Some modified_date |})
          (calendar_events d) with
  | (t, Done r) => (set_calendar_events t d, Json r)
  | (t, Raised _) =>
      (set_calendar_events t d, Failure 500 "Error creating event." None)
  end.

Definition put_events (d : db) (now : string) (id : Z) (b : PutEvents.body)
  : db * response count :=
  let modified_date := now in
  let (t, n) :=
    update_where (fun r => CalendarEvents.id r =? id)
      (fun r => {|
        CalendarEvents.id := CalendarEvents.id r;
        CalendarEvents.user_email := CalendarEvents.user_email r;
        CalendarEvents.title := PutEvents.title b;
        CalendarEvents.description := PutEvents.description b;
        CalendarEvents.event_date := PutEvents.date b;
        CalendarEvents.start_time := PutEvents.start b;
        CalendarEvents.end_time := PutEvents.end_ b;
        CalendarEvents.location := PutEvents.location b;
        CalendarEvents.category := PutEvents.category b;
        CalendarEvents.attendees := PutEvents.attendees b;
        CalendarEvents.reminder := PutEvents.reminder b;
        CalendarEvents.is_all_day := Some (flag (PutEvents.isAllDay b));
        CalendarEvents.recurrence := PutEvents.recurrence b;
        CalendarEvents.recurrence_end := PutEvents.recurrenceEnd b;
        CalendarEvents.show_as := PutEvents.showAs b;
        CalendarEvents.priority := PutEvents.priority b;
        CalendarEvents.is_online := Some (flag (PutEvents.isOnline b));
        CalendarEvents.meeting_link := PutEvents.meetingLink b;
        CalendarEvents.attachments := PutEvents.attachments b;
        CalendarEvents.repeat_weekly := Some (flag (PutEvents.repeatWeekly b));
        CalendarEvents.created_date := CalendarEvents.created_date r;
        CalendarEvents.modified_date := Some modified_date |})
      (calendar_events d) in
  (set_calendar_events t d, Json (Updated n)).

Definition delete_events (d : db) (id : Z) : db * response count :=
  let (t, n) :=
    delete_where (fun r => CalendarEvents.id r =? id) (calendar_events d) in
  (set_calendar_events t d, Json (Deleted n)).

(** ** Legacy calendar events (backward compatibility) *)

Definition get_calendar_events (d : db) (email : string)
  : response (list CalendarEvents.row) :=
  Json (order_by (fun r => CalendarEvents.event_date r)
          (select (fun r => text_is (CalendarEvents.user_email r) email)
             (calendar_events d))).

(** The statement names eight columns; the others take the [DEFAULT] of
    the schema, or [NULL]. *)
Definition post_calendar_events (d : db) (now : string)
  (b : PostCalendarEvents.body) : db * response CalendarEvents.row :=
  let date := str_or (PostCalendarEvents.created_date b) now in
  match insert_owned d (PostCalendarEvents.user_email b)
          (fun i => {|
             CalendarEvents.id := i;
             CalendarEvents.user_email := PostCalendarEvents.user_email b;
             CalendarEvents.title := PostCalendarEvents.title b;
             CalendarEvents.description := PostCalendarEvents.description b;
             CalendarEvents.event_date := PostCalendarEvents.event_date b;
             CalendarEvents.start_time := PostCalendarEvents.start_time b;
             CalendarEvents.end_time := PostCalendarEvents.end_time b;
             CalendarEvents.location := None;
             CalendarEvents.category := Some "Work";
             CalendarEvents.attendees := None;
             CalendarEvents.reminder := Some 15;
             CalendarEvents.is_all_day := Some 0;
             CalendarEvents.recurrence := Some "none";
             CalendarEvents.recurrence_end := None;
             CalendarEvents.show_as := Some "busy";
             CalendarEvents.priority := Some "normal";
             CalendarEvents.is_online := Some 0;
             CalendarEvents.meeting_link := None;
             CalendarEvents.attachments := None;
             CalendarEvents.repeat_weekly :=
               PostCalendarEvents.repeat_weekly b;
             CalendarEvents.created_date := Some date;
             CalendarEvents.modified_date := None |})
          (calendar_events d) with
  | (t, Done r) => (set_calendar_events t d, Json r)
  | (t, Raised _) =>
      (set_calendar_events t d, Failure 500 "Error creating event." None)
  end.

Definition put_calendar_events (d : db) (id : Z)
  (b : PutCalendarEvents.body) : db * response count :=
  let (t, n) :=
    update_where (fun r => CalendarEvents.id r =? id)
      (fun r => {|
        CalendarEvents.id := CalendarEvents.id r;
        CalendarEvents.user_email := CalendarEvents.user_email r;
        CalendarEvents.title := PutCalendarEvents.title b;
        CalendarEvents.description := PutCalendarEvents.description b;
        CalendarEvents.event_date := PutCalendarEvents.event_date b;
        CalendarEvents.start_time := PutCalendarEvents.start_time b;
        CalendarEvents.end_time := PutCalendarEvents.end_time b;
        CalendarEvents.location := CalendarEvents.location r;
        CalendarEvents.category := CalendarEvents.category r;
        CalendarEvents.attendees := CalendarEvents.attendees r;
        CalendarEvents.reminder := CalendarEvents.reminder r;
        CalendarEvents.is_all_day := CalendarEvents.is_all_day r;
        CalendarEvents.recurrence := CalendarEvents.recurrence r;
        CalendarEvents.recurrence_end := CalendarEvents.recurrence_end r;
        CalendarEvents.show_as := CalendarEvents.show_as r;
        CalendarEvents.priority := CalendarEvents.priority r;
        CalendarEvents.is_online := CalendarEvents.is_online r;
        CalendarEvents.meeting_link := CalendarEvents.meeting_link r;
        CalendarEvents.attachments := CalendarEvents.attachments r;
        CalendarEvents.repeat_weekly := PutCalendarEvents.repeat_weekly b;
        CalendarEvents.created_date := CalendarEvents.created_date r;
        CalendarEvents.modified_date := CalendarEvents.modified_date r |})
      (calendar_events d) in
  (set_calendar_events t d, Json (Updated n)).

Definition delete_calendar_events (d : db) (id : Z) : db * response count :=
  let (t, n) :=
    delete_where (fun r => CalendarEvents.id r =? id) (calendar_events d) in
  (set_calendar_events t d, Json (Deleted n)).

(** The bodies [res.json] serialises for the two calendar reads, as far as
    the boolean-as-integer columns go. *)
Definition int_json (x : option Z) : json :=
  match x with
  | Some n => JNum n
  | None => JNull
  end.

Fixpoint property (k : string) (m : list (string * json)) : option json :=
  match m with
  | [] => None
  | (k', v) :: r => if (k' =? k)%string then Some v else property k r
  end.

Definition event_view_flags (v : EventView.t) : list (string * json) :=
  [("isallday", int_json (EventView.isallday v));
   ("isonline", int_json (EventView.isonline v));
   ("repeatweekly", int_json (EventView.repeatweekly v));
   ("isAllDay", JBool (EventView.isAllDay v));
   ("isOnline", JBool (EventView.isOnline v));
   ("repeatWeekly", JBool (EventView.repeatWeekly v))].

Definition calendar_event_flags (r : CalendarEvents.row)
  : list (string * json) :=
  [("is_all_day", int_json (CalendarEvents.is_all_day r));
   ("is_online", int_json (CalendarEvents.is_online r));
   ("repeat_weekly", int_json (CalendarEvents.repeat_weekly r))].

(** ** Profile *)

(** [row.degrees ? JSON.parse(row.degrees) : []]. *)
Definition decode_list {J : JSON} (col : option string) : option value :=
  if str_truthy col then JSON_parse (text col) else Some (array []).

Definition get_profile {J : JSON} (d : db) (email : string)
  : response (option ProfileView.t) :=
  match select (fun r => text_is (Profiles.user_email r) email) (profiles d) with
  | [] => Json None
  | row :: _ =>
      match decode_list (Profiles.degrees row),
            decode_list (Profiles.employment row),
            decode_list (Profiles.courses row),
            decode_list (Profiles.grants row),
            decode_list (Profiles.awards row) with
      | Some degrees, Some employment, Some courses, Some grants,
        Some awards =>
          Json (Some {|
            ProfileView.userEmail := Profiles.user_email row;
            ProfileView.fullName := Profiles.full_name row;
            ProfileView.designation := Profiles.designation row;
            ProfileView.department := Profiles.department row;
            ProfileView.institution := Profiles.institution row;
            ProfileView.officeAddress := Profiles.office_address row;
            ProfileView.officialEmail := Profiles.official_email row;
            ProfileView.alternateEmail := Profiles.alternate_email row;
            ProfileView.phone := Profiles.phone row;
            ProfileView.website := Profiles.website row;
            ProfileView.degrees := degrees;
            ProfileView.employment := employment;
            ProfileView.researchKeywords := Profiles.research_keywords row;
            ProfileView.researchDescription :=
              Profiles.research_description row;
            ProfileView.scholarLink := Profiles.scholar_link row;
            ProfileView.courses := courses;
            ProfileView.grants := grants;
            ProfileView.professionalActivities :=
              Profiles.professional_activities row;
            ProfileView.awards := awards;
            ProfileView.skills := Profiles.skills row;
            ProfileView.outreachService := Profiles.outreach_service row |})
      | _, _, _, _, _ => Failure 500 "Error fetching profile." None
      end
  end.

(** [INSERT INTO profiles ... RETURNING id] under
    [user_email TEXT UNIQUE REFERENCES users(email)]. *)
Definition insert_profile (d : db) (mk : Z -> Profiles.row)
  : table Profiles.row * outcome Profiles.row :=
  let owner := Profiles.user_email (mk (serial (profiles d))) in
  if existsb (fun r => match owner with
                       | Some e => text_is (Profiles.user_email r) e
                       | None => false
                       end) (rows (profiles d)) then
    (refused (profiles d), Raised unique_violation)
  else insert_owned d owner mk (profiles d).

(** [now] is read before the existence check, [later] in the insert
    branch. *)
Definition post_profile {J : JSON} (d : db) (now later : string)
  (b : PostProfile.body)
  : db * response PostProfile.reply :=
  if negb (str_truthy (PostProfile.userEmail b)) then
    (d, Failure 400 "User email is required." None)
  else
    let userEmail := text (PostProfile.userEmail b) in
    let modifiedDate := now in
    let degreesJson :=
      JSON_stringify (value_or (PostProfile.degrees b) (array [])) in
    let employmentJson :=
      JSON_stringify (value_or (PostProfile.employment b) (array [])) in
    let coursesJson :=
      JSON_stringify (value_or (PostProfile.courses b) (array [])) in
    let grantsJson :=
      JSON_stringify (value_or (PostProfile.grants b) (array [])) in
    let awardsJson :=
      JSON_stringify (value_or (PostProfile.awards b) (array [])) in
    (* Check if profile exists *)
    let checkResult :=
      select (fun r => text_is (Profiles.user_email r) userEmail) (profiles d) in
    if (0 <? length checkResult)%nat then
      (* Update existing profile *)
      let (t, _) :=
        update_where (fun r => text_is (Profiles.user_email r) userEmail)
          (fun r => {|
            Profiles.id := Profiles.id r;
            Profiles.user_email := Profiles.user_email r;
            Profiles.full_name := PostProfile.fullName b;
            Profiles.designation := PostProfile.designation b;
            Profiles.department := PostProfile.department b;
            Profiles.institution := PostProfile.institution b;
            Profiles.office_address := PostProfile.officeAddress b;
            Profiles.official_email := PostProfile.officialEmail b;
            Profiles.alternate_email := PostProfile.alternateEmail b;
            Profiles.phone := PostProfile.phone b;
            Profiles.website := PostProfile.website b;
            Profiles.degrees := Some degreesJson;
            Profiles.employment := Some employmentJson;
            Profiles.research_keywords := PostProfile.researchKeywords b;
            Profiles.research_description :=
              PostProfile.researchDescription b;
            Profiles.scholar_link := PostProfile.scholarLink b;
            Profiles.courses := Some coursesJson;
            Profiles.grants := Some grantsJson;
            Profiles.professional_activities :=
              PostProfile.professionalActivities b;
            Profiles.awards := Some awardsJson;
            Profiles.skills := PostProfile.skills b;
            Profiles.outreach_service := PostProfile.outreachService b;
            Profiles.created_date := Profiles.created_date r;
            Profiles.modified_date := Some modifiedDate |}) (profiles d) in
      (set_profiles t d,
       Json {| PostProfile.message := "Profile updated successfully";
               PostProfile.id := None |})
    else
      (* Create new profile *)
      let createdDate := later in
      match insert_profile d
              (fun i => {|
                 Profiles.id := i;
                 Profiles.user_email := Some userEmail;
                 Profiles.full_name := PostProfile.fullName b;
                 Profiles.designation := PostProfile.designation b;
                 Profiles.department := PostProfile.department b;
                 Profiles.institution := PostProfile.institution b;
                 Profiles.office_address := PostProfile.officeAddress b;
                 Profiles.official_email := PostProfile.officialEmail b;
                 Profiles.alternate_email := PostProfile.alternateEmail b;
                 Profiles.phone := PostProfile.phone b;
                 Profiles.website := PostProfile.website b;
                 Profiles.degrees := Some degreesJson;
                 Profiles.employment := Some employmentJson;
                 Profiles.research_keywords := PostProfile.researchKeywords b;
                 Profiles.research_description :=
                   PostProfile.researchDescription b;
                 Profiles.scholar_link := PostProfile.scholarLink b;
                 Profiles.courses := Some coursesJson;
                 Profiles.grants := Some grantsJson;
                 Profiles.professional_activities :=
                   PostProfile.professionalActivities b;
                 Profiles.awards := Some awardsJson;
                 Profiles.skills := PostProfile.skills b;
                 Profiles.outreach_service := PostProfile.outreachService b;
                 Profiles.created_date := Some createdDate;
                 Profiles.modified_date := Some modifiedDate |}) with
      | (t, Done r) =>
          (set_profiles t d,
           Json {| PostProfile.message := "Profile created successfully";
                   PostProfile.id := Some (Profiles.id r) |})
      | (t, Raised _) =>
          (set_profiles t d, Failure 500 "Error saving profile." None)
      end.

Definition delete_profile (d : db) (email : string)
  : db * response DeleteProfile.reply :=
  let (t, n) :=
    delete_where (fun r => text_is (Profiles.user_email r) email) (profiles d) in
  (set_profiles t d,
   Json {| DeleteProfile.deleted := n;
           DeleteProfile.message := "Profile deleted successfully" |}).

(** ** Worked-example fixtures *)

(** A stand-in for [bcryptjs] in the worked examples: the "hash" is the
    password itself. *)
Definition plain_bcrypt : Bcrypt := {|
  bcrypt_hash := fun p _ _ => p;
  bcrypt_compare := fun p h => (p =? h)%string
|}.

(** A stand-in for [JSON] in the worked examples, as [plain_bcrypt] is
    one for [bcryptjs]: the values of [json] whose objects have distinct
    keys, with the printer and the parser of the module [Json]. *)
Module Fragment.
Record t : Type := {
  tree : json;
  tree_wf : Json.wf_json tree = true
}.

Lemma elements_wf (l : list t) : Json.wf_json (JArr (map tree l)) = true.
Proof.
  induction l as [|x r IH]; [reflexivity|].
  simpl in *. now rewrite (tree_wf x), IH.
Qed.

Definition array (l : list t) : t :=
  {| tree := JArr (map tree l); tree_wf := elements_wf l |}.

Definition checked (v : json) : option t :=
  match Bool.bool_dec (Json.wf_json v) true with
  | left H => Some {| tree := v; tree_wf := H |}
  | right _ => None
  end.

Definition parse (s : string) : option t :=
  match Json.parse s with
  | Some v => checked v
  | None => None
  end.
End Fragment.

Definition json_fragment : JSON := {|
  value := Fragment.t;
  array := Fragment.array;
  truthy_value := fun v => truthy (Fragment.tree v);
  JSON_stringify := fun v => Json.stringify (Fragment.tree v);
  JSON_parse := Fragment.parse
|}.

Definition credentials (email password : string) : Credentials.body := {|
  Credentials.name := None;
  Credentials.email := SStr email;
  Credentials.password := SStr password
|}.

(** The store after [POST /register] of a@x.com on a fresh database. *)
Definition db_registered : db :=
  fst (@post_register plain_bcrypt db_empty "salt"
         (credentials "a@x.com" "secret1")).

Definition goal_body (email title : string) : PostCareerGoals.body := {|
  PostCareerGoals.user_email := Some email;
  PostCareerGoals.title := Some title;
  PostCareerGoals.description := None;
  PostCareerGoals.progress := None;
  PostCareerGoals.goal_type := None;
  PostCareerGoals.target_date := None;
  PostCareerGoals.total_stages := None;
  PostCareerGoals.current_stage := None;
  PostCareerGoals.start_date := None;
  PostCareerGoals.stage_description := None;
  PostCareerGoals.created_date := None
|}.

(** a@x.com with the goal "Promotion" (id 1) and two entries in its stage
    history (ids 1 and 2). *)
Definition goal_with_history : db :=
  let d1 :=
    fst (post_career_goals db_registered "2024-01-01T00:00:00.000Z"
           (goal_body "a@x.com" "Promotion")) in
  let d2 :=
    fst (post_career_goals_history d1 "2024-01-02T00:00:00.000Z" 1
           {| PostHistory.stage := Some 1;
              PostHistory.description := Some "done" |}) in
  fst (post_career_goals_history d2 "2024-01-03T00:00:00.000Z" 1
         {| PostHistory.stage := Some 2;
            PostHistory.description := None |}).

(** A request body for the worked examples: only the email and the degrees
    are set. *)
Definition profile_body {J : JSON} (email : string) (degrees : option value)
  : PostProfile.body := {|
  PostProfile.userEmail := Some email;
  PostProfile.fullName := None;
  PostProfile.designation := None;
  PostProfile.department := None;
  PostProfile.institution := None;
  PostProfile.officeAddress := None;
  PostProfile.officialEmail := None;
  PostProfile.alternateEmail := None;
  PostProfile.phone := None;
  PostProfile.website := None;
  PostProfile.degrees := degrees;
  PostProfile.employment := None;
  PostProfile.researchKeywords := None;
  PostProfile.researchDescription := None;
  PostProfile.scholarLink := None;
  PostProfile.courses := None;
  PostProfile.grants := None;
  PostProfile.professionalActivities := None;
  PostProfile.awards := None;
  PostProfile.skills := None;
  PostProfile.outreachService := None
|}.

Definition degree_entries : list (@value json_fragment) :=
  [{| Fragment.tree := JObj [("degree", JStr "PhD"); ("year", JNum 2020)];
      Fragment.tree_wf := eq_refl |};
   {| Fragment.tree := JObj [("degree", JStr "MSc"); ("institution", JStr "X")];
      Fragment.tree_wf := eq_refl |}].

Definition degree_list : @value json_fragment := array degree_entries.

(** A request body for the worked examples. *)
Definition event_body (email date start : string) (allDay : json)
  (created : option string) : PostEvents.body := {|
  PostEvents.userEmail := Some email;
  PostEvents.title := Some "Review";
  PostEvents.description := None;
  PostEvents.date := Some date;
  PostEvents.start := Some start;
  PostEvents.end_ := None;
  PostEvents.location := None;
  PostEvents.category := None;
  PostEvents.attendees := None;
  PostEvents.reminder := None;
  PostEvents.isAllDay := allDay;
  PostEvents.recurrence := None;
  PostEvents.recurrenceEnd := None;
  PostEvents.showAs := None;
  PostEvents.priority := None;
  PostEvents.isOnline := JNull;
  PostEvents.meetingLink := None;
  PostEvents.attachments := None;
  PostEvents.repeatWeekly := JNull;
  PostEvents.created_date := created
|}.

(** a@x.com with one all-day event. *)
Definition db_all_day : db :=
  fst (post_events db_registered "2024-04-30T08:00:00.000Z"
         (event_body "a@x.com" "2024-05-01" "10:00" (JBool true) None)).

(** a@x.com with two events on one day, the later one created first. *)
Definition db_two_events : db :=
  fst (post_events db_all_day "2024-04-30T08:05:00.000Z"
         (event_body "a@x.com" "2024-05-01" "09:00" JNull None)).

Definition idea_body (email : string) (created : option string)
  : PostIdeas.body := {|
  PostIdeas.user_email := Some email;
  PostIdeas.title := Some "Idea";
  PostIdeas.content := None;
  PostIdeas.category := None;
  PostIdeas.created_date := created
|}.

(* ================================================================== *)
(** * Notions used to state the properties *)
(* ================================================================== *)

Local Open Scope list_scope.

Definition references_goal (id : Z) (r : StageHistory.row) : bool :=
  int_is (StageHistory.goal_id r) id.

Definition owned_by (e : string) (r : Profiles.row) : bool :=
  text_is (Profiles.user_email r) e.

(** At most one profile row per [user_email]. *)
Definition singleton_profiles (d : db) : Prop :=
  forall e, (length (select (owned_by e) (profiles d)) <= 1)%nat.

(** The columns both branches of the profile write set from the request. *)
Definition written {J : JSON} (now : string) (b : PostProfile.body)
  (r : Profiles.row) : Prop :=
  Profiles.full_name r = PostProfile.fullName b /\
  Profiles.designation r = PostProfile.designation b /\
  Profiles.department r = PostProfile.department b /\
  Profiles.institution r = PostProfile.institution b /\
  Profiles.office_address r = PostProfile.officeAddress b /\
  Profiles.official_email r = PostProfile.officialEmail b /\
  Profiles.alternate_email r = PostProfile.alternateEmail b /\
  Profiles.phone r = PostProfile.phone b /\
  Profiles.website r = PostProfile.website b /\
  Profiles.degrees r =
    Some (JSON_stringify (value_or (PostProfile.degrees b) (array []))) /\
  Profiles.employment r =
    Some (JSON_stringify (value_or (PostProfile.employment b) (array []))) /\
  Profiles.research_keywords r = PostProfile.researchKeywords b /\
  Profiles.research_description r = PostProfile.researchDescription b /\
  Profiles.scholar_link r = PostProfile.scholarLink b /\
  Profiles.courses r =
    Some (JSON_stringify (value_or (PostProfile.courses b) (array []))) /\
  Profiles.grants r =
    Some (JSON_stringify (value_or (PostProfile.grants b) (array []))) /\
  Profiles.professional_activities r = PostProfile.professionalActivities b /\
  Profiles.awards r =
    Some (JSON_stringify (value_or (PostProfile.awards b) (array []))) /\
  Profiles.skills r = PostProfile.skills b /\
  Profiles.outreach_service r = PostProfile.outreachService b /\
  Profiles.modified_date r = Some now.

Definition updated_reply : PostProfile.reply :=
  {| PostProfile.message := "Profile updated successfully";
     PostProfile.id := None |}.

(** The five list-valued fields, in the request, in the response and in
    the row. *)
Definition body_lists {J : JSON} (b : PostProfile.body)
  : list (option value) :=
  [PostProfile.degrees b; PostProfile.employment b; PostProfile.courses b;
   PostProfile.grants b; PostProfile.awards b].

Definition view_lists {J : JSON} (v : ProfileView.t) : list value :=
  [ProfileView.degrees v; ProfileView.employment v; ProfileView.courses v;
   ProfileView.grants v; ProfileView.awards v].

Definition list_columns (r : Profiles.row) : list (option string) :=
  [Profiles.degrees r; Profiles.employment r; Profiles.courses r;
   Profiles.grants r; Profiles.awards r].

(** A response that lists exactly the rows [owned], sorted by [key]. *)
Definition lists_in_order {R K} `{Cmp K} (key : R -> K) (owned : list R)
  (res : response (list R)) : Prop :=
  exists l, res = Json l /\ Permutation l owned /\ ordered key l /\
            (owned = [] -> l = []).

(* ================================================================== *)
(** * Invariants of the store *)
(* ================================================================== *)

(** [users.email] is unique. *)
Definition unique_users (d : db) : Prop :=
  NoDup (map Users.email (rows (users d))).

(** Every stored email is as [email.toLowerCase().trim()] leaves it. *)
Definition normalized_users (d : db) : Prop :=
  Forall (fun u => trim (toLowerCase (Users.email u)) = Users.email u)
    (rows (users d)).

(** Request bodies and stores for the worked examples on projects. *)
Definition project_body (name owner : option string) : PostProjects.body := {|
  PostProjects.name := name;
  PostProjects.owner_email := owner;
  PostProjects.colleagues := None;
  PostProjects.progress := None
|}.

(** A fresh store with the project "Thesis" (id 1) of nobody@x.com. *)
Definition db_project : db :=
  fst (post_projects db_empty
         (project_body (Some "Thesis") (Some "nobody@x.com"))).

Definition description_body (title goals : option string) : Description.t :=
  let e := Description.to_json Projects.no_description in {|
  Description.projectTitle := title;
  Description.notes := Description.notes e;
  Description.colleagueName := Description.colleagueName e;
  Description.colleaguePhone := Description.colleaguePhone e;
  Description.colleagueEmail := Description.colleagueEmail e;
  Description.colleagueAddress1 := Description.colleagueAddress1 e;
  Description.colleagueAddress2 := Description.colleagueAddress2 e;
  Description.colleagueAddress3 := Description.colleagueAddress3 e;
  Description.yourName := Description.yourName e;
  Description.yourPhone := Description.yourPhone e;
  Description.yourEmail := Description.yourEmail e;
  Description.yourAddress1 := Description.yourAddress1 e;
  Description.yourAddress2 := Description.yourAddress2 e;
  Description.yourAddress3 := Description.yourAddress3 e;
  Description.objectives := goals;
  Description.timeline := Description.timeline e;
  Description.primaryAudience := Description.primaryAudience e;
  Description.secondaryAudience := Description.secondaryAudience e;
  Description.callAction := Description.callAction e;
  Description.competition := Description.competition e;
  Description.graphics := Description.graphics e;
  Description.photography := Description.photography e;
  Description.multimedia := Description.multimedia e;
  Description.otherInfo := Description.otherInfo e;
  Description.clientName := Description.clientName e;
  Description.clientComments := Description.clientComments e;
  Description.approvalDate := Description.approvalDate e;
  Description.approvalSignature := Description.approvalSignature e
|}.

(** a@x.com with two ideas, ids 1 and 2, the second one dated earlier. *)
Definition db_two_ideas : db :=
  fst (post_ideas
         (fst (post_ideas db_registered "2024-04-30T08:00:00.000Z"
                 (idea_body "a@x.com" None)))
         "2024-04-30T09:00:00.000Z"
         (idea_body "a@x.com" (Some "2020-01-01T00:00:00.000Z"))).

Definition idea_update (title : string) : PutIdeas.body := {|
  PutIdeas.title := Some title;
  PutIdeas.content := None;
  PutIdeas.category := None
|}.

(* ================================================================== *)
(** * The routes that write, as transitions of the store *)
(* ================================================================== *)

(** One constructor per route that runs an [INSERT], an [UPDATE] or a
    [DELETE]; every other route only reads.  The readings of the clock and
    the bcrypt salt of a request travel with it, and requests are served
    one at a time. *)
Inductive request {J : JSON} : Type :=
| POST_register (salt : string) (b : Credentials.body)
| POST_signup (salt : string) (b : Credentials.body)
| POST_projects (b : PostProjects.body)
| PUT_projects (id : Z) (b : PutProjects.body)
| DELETE_projects (id : Z)
| POST_meetings (b : PostMeetings.body)
| PUT_projects_description (id : Z) (b : Description.t)
| POST_ideas (now : string) (b : PostIdeas.body)
| PUT_ideas (id : Z) (b : PutIdeas.body)
| DELETE_ideas (id : Z)
| POST_notes (now : string) (b : PostNotes.body)
| PUT_notes (id : Z) (b : PutNotes.body)
| DELETE_notes (id : Z)
| POST_career_goals (now : string) (b : PostCareerGoals.body)
| PUT_career_goals (id : Z) (b : PutCareerGoals.body)
| DELETE_career_goals (id : Z)
| POST_career_goals_history (now : string) (id : Z) (b : PostHistory.body)
| DELETE_career_goals_history (goalId historyId : Z)
| POST_future_work (now : string) (b : PostFutureWork.body)
| PUT_future_work (id : Z) (b : PutFutureWork.body)
| DELETE_future_work (id : Z)
| POST_deadlines (now : string) (b : PostDeadlines.body)
| PUT_deadlines (id : Z) (b : PutDeadlines.body)
| DELETE_deadlines (id : Z)
| POST_events (now : string) (b : PostEvents.body)
| PUT_events (now : string) (id : Z) (b : PutEvents.body)
| DELETE_events (id : Z)
| POST_calendar_events (now : string) (b : PostCalendarEvents.body)
| PUT_calendar_events (id : Z) (b : PutCalendarEvents.body)
| DELETE_calendar_events (id : Z)
| POST_profile (now later : string) (b : PostProfile.body)
| DELETE_profile (email : string).

(** The store after a request. *)
Definition serve {B : Bcrypt} {J : JSON} (d : db) (q : request) : db :=
  match q with
  | POST_register salt b => fst (post_register d salt b)
  | POST_signup salt b => fst (post_signup d salt b)
  | POST_projects b => fst (post_projects d b)
  | PUT_projects id b => fst (put_projects d id b)
  | DELETE_projects id => fst (delete_projects d id)
  | POST_meetings b => fst (post_meetings d b)
  | PUT_projects_description id b => fst (put_projects_description d id b)
  | POST_ideas now b => fst (post_ideas d now b)
  | PUT_ideas id b => fst (put_ideas d id b)
  | DELETE_ideas id => fst (delete_ideas d id)
  | POST_notes now b => fst (post_notes d now b)
  | PUT_notes id b => fst (put_notes d id b)
  | DELETE_notes id => fst (delete_notes d id)
  | POST_career_goals now b => fst (post_career_goals d now b)
  | PUT_career_goals id b => fst (put_career_goals d id b)
  | DELETE_career_goals id => fst (delete_career_goals d id)
  | POST_career_goals_history now id b =>
      fst (post_career_goals_history d now id b)
  | DELETE_career_goals_history goalId historyId =>
      fst (delete_career_goals_history d goalId historyId)
  | POST_future_work now b => fst (post_future_work d now b)
  | PUT_future_work id b => fst (put_future_work d id b)
  | DELETE_future_work id => fst (delete_future_work d id)
  | POST_deadlines now b => fst (post_deadlines d now b)
  | PUT_deadlines id b => fst (put_deadlines d id b)
  | DELETE_deadlines id => fst (delete_deadlines d id)
  | POST_events now b => fst (post_events d now b)
  | PUT_events now id b => fst (put_events d now id b)
  | DELETE_events id => fst (delete_events d id)
  | POST_calendar_events now b => fst (post_calendar_events d now b)
  | PUT_calendar_events id b => fst (put_calendar_events d id b)
  | DELETE_calendar_events id => fst (delete_calendar_events d id)
  | POST_profile now later b => fst (post_profile d now later b)
  | DELETE_profile email => fst (delete_profile d email)
  end.

(** The stores of a server started on a fresh database. *)
Inductive reachable {B : Bcrypt} {J : JSON} : db -> Prop :=
| started : reachable db_empty
| served d q : reachable d -> reachable (serve d q).

(** What the statements of one request do to a table: the ids they hand
    out and keep, and a property [P] of the rows that they establish and
    keep. *)
Inductive table_step {R} (id : R -> Z) (P : R -> Prop) (t : table R)
  : table R -> Prop :=
| step_none : table_step id P t t
| step_insert mk :
    (forall i, id (mk i) = i) -> P (mk (serial t)) ->
    table_step id P t (fst (insert mk t))
| step_refused : table_step id P t (refused t)
| step_delete p : table_step id P t (fst (delete_where p t))
| step_update p f :
    (forall r, id (f r) = id r) -> (forall r, P r -> P (f r)) ->
    table_step id P t (fst (update_where p f t))
| step_then t1 t2 :
    table_step id P t t1 -> table_step id P t1 t2 -> table_step id P t t2.

Definition db_step (d d' : db) : Prop :=
  table_step Users.id (fun _ => True) (users d) (users d') /\
  table_step Projects.id (fun _ => True) (projects d) (projects d') /\
  table_step Colleagues.id (fun _ => True) (colleagues d) (colleagues d') /\
  table_step Meetings.id (fun _ => True) (meetings d) (meetings d') /\
  table_step Ideas.id
    (fun r => references_user d (Ideas.user_email r) = true)
    (ideas d) (ideas d') /\
  table_step Notes.id
    (fun r => references_user d (Notes.user_email r) = true)
    (notes d) (notes d') /\
  table_step CareerGoals.id
    (fun r => references_user d (CareerGoals.user_email r) = true)
    (career_goals d) (career_goals d') /\
  table_step StageHistory.id (fun _ => True) (career_stage_history d)
    (career_stage_history d') /\
  table_step FutureWork.id
    (fun r => references_user d (FutureWork.user_email r) = true)
    (future_work d) (future_work d') /\
  table_step Deadlines.id
    (fun r => references_user d (Deadlines.user_email r) = true)
    (deadlines d) (deadlines d') /\
  table_step CalendarEvents.id
    (fun r => references_user d (CalendarEvents.user_email r) = true)
    (calendar_events d) (calendar_events d') /\
  table_step Profiles.id
    (fun r => references_user d (Profiles.user_email r) = true)
    (profiles d) (profiles d').

(** [id SERIAL PRIMARY KEY]: the ids of a table are distinct and below the
    next value of its sequence. *)
Definition keyed {R} (id : R -> Z) (t : table R) : Prop :=
  NoDup (map id (rows t)) /\ Forall (fun r => id r < serial t) (rows t).

Definition keyed_db (d : db) : Prop :=
  keyed Users.id (users d) /\
  keyed Projects.id (projects d) /\
  keyed Colleagues.id (colleagues d) /\
  keyed Meetings.id (meetings d) /\
  keyed Ideas.id (ideas d) /\
  keyed Notes.id (notes d) /\
  keyed CareerGoals.id (career_goals d) /\
  keyed StageHistory.id (career_stage_history d) /\
  keyed FutureWork.id (future_work d) /\
  keyed Deadlines.id (deadlines d) /\
  keyed CalendarEvents.id (calendar_events d) /\
  keyed Profiles.id (profiles d).

(** An id that the sequence has passed and that no row carries. *)
Definition retired {R} (id : R -> Z) (i : Z) (t : table R) : Prop :=
  i < serial t /\ ~ In i (map id (rows t)).

(** [user_email TEXT REFERENCES users(email)]: the owner of a row is a
    registered user, or [NULL]. *)
Definition owners_registered (d : db) : Prop :=
  Forall (fun r => references_user d (Ideas.user_email r) = true)
    (rows (ideas d)) /\
  Forall (fun r => references_user d (Notes.user_email r) = true)
    (rows (notes d)) /\
  Forall (fun r => references_user d (CareerGoals.user_email r) = true)
    (rows (career_goals d)) /\
  Forall (fun r => references_user d (FutureWork.user_email r) = true)
    (rows (future_work d)) /\
  Forall (fun r => references_user d (Deadlines.user_email r) = true)
    (rows (deadlines d)) /\
  Forall (fun r => references_user d (CalendarEvents.user_email r) = true)
    (rows (calendar_events d)) /\
  Forall (fun r => references_user d (Profiles.user_email r) = true)
    (rows (profiles d)).

(** Every entry of the stage history belongs to a goal of the store. *)
Definition history_refs (d : db) : Prop :=
  Forall (fun h => exists g, In g (rows (career_goals d)) /\
                             StageHistory.goal_id h = Some (CareerGoals.id g))
    (rows (career_stage_history d)).

(** A legacy update that renames the event and leaves the rest unset. *)
Definition legacy_update (title : string) : PutCalendarEvents.body := {|
  PutCalendarEvents.title := Some title;
  PutCalendarEvents.description := None;
  PutCalendarEvents.event_date := None;
  PutCalendarEvents.start_time := None;
  PutCalendarEvents.end_time := None;
  PutCalendarEvents.repeat_weekly := None
|}.

(** Every list column of every profile row is empty or holds text that
    [JSON.parse] reads. *)
Definition readable_profiles {J : JSON} (d : db) : Prop :=
  Forall (fun r => Forall (fun col => decode_list col <> None)
                     (list_columns r))
    (rows (profiles d)).

(* ================================================================== *)
(** * The parser of [Json] inverts its printer *)
(* ================================================================== *)

Module JsonFacts.
Import Json.

Local Open Scope char_scope.
Local Open Scope N_scope.
Local Open Scope list_scope.

Section JsonInduction.
Variable P : json -> Prop.
Hypothesis Hnull : P JNull.
Hypothesis Hbool : forall b, P (JBool b).
Hypothesis Hnum : forall n, P (JNum n).
Hypothesis Hstr : forall s, P (JStr s).
Hypothesis Harr : forall l, Forall P l -> P (JArr l).
Hypothesis Hobj : forall m, Forall (fun kv => P (snd kv)) m -> P (JObj m).

Fixpoint json_nested_ind (v : json) : P v :=
  match v with
  | JNull => Hnull
  | JBool b => Hbool b
  | JNum n => Hnum n
  | JStr s => Hstr s
  | JArr l =>
      Harr ((fix all (l : list json) : Forall P l :=
               match l with
               | [] => Forall_nil P
               | x :: r => Forall_cons x (json_nested_ind x) (all r)
               end) l)
  | JObj m =>
      Hobj ((fix all (m : list (string * json))
               : Forall (fun kv => P (snd kv)) m :=
               match m with
               | [] => Forall_nil _
               | kv :: r =>
                   Forall_cons kv (json_nested_ind (snd kv)) (all r)
               end) m)
  end.
End JsonInduction.

Lemma print_arr l : print (JArr l) = "[" :: print_elems l.
Proof.
  reflexivity.
Qed.

Lemma print_obj m : print (JObj m) = "{" :: print_members m.
Proof.
  reflexivity.
Qed.

Lemma parse_escape_unit c r :
  parse_string_body (escape_unit c ++ r) = push c (parse_string_body r).
Proof.
  destruct c as [[] [] [] [] [] [] [] []]; reflexivity.
Qed.

Lemma parse_quote_body s rest :
  parse_string_body (quote_body s ++ dquote :: rest) = Some (s, rest).
Proof.
  induction s as [|c s IH]; simpl; [reflexivity|].
  rewrite <- app_assoc, parse_escape_unit, IH. reflexivity.
Qed.

Lemma take_uint_chars u rest :
  match rest with [] => true | c :: _ => negb (is_digit c) end = true ->
  take_uint (uint_chars u ++ rest) = (u, rest).
Proof.
  intros Hrest.
  induction u; simpl; try (rewrite IHu; reflexivity).
  destruct rest as [|c r]; [reflexivity|]. simpl.
  unfold is_digit in Hrest. destruct (digit_cons c); [discriminate|reflexivity].
Qed.

Lemma uint_chars_head u :
  u <> Decimal.Nil ->
  exists c t, uint_chars u = c :: t /\ is_digit c = true /\
              (c =? "-")%char = false.
Proof.
  destruct u; intros H; try congruence; simpl; eexists; eexists;
    (split; [reflexivity|split; reflexivity]).
Qed.

Lemma to_uint_normal p : leading_zero (Pos.to_uint p) = false.
Proof.
  pose proof (DecimalPos.Unsigned.to_of (Pos.to_uint p)) as H.
  rewrite DecimalPos.Unsigned.of_to in H. simpl in H.
  destruct (Pos.to_uint p) as [|u| | | | | | | | |] eqn:E; try reflexivity.
  destruct u; try reflexivity; exfalso.
  all: unfold Decimal.unorm in H;
    match type of H with
    | _ = match Decimal.nzhead ?d with _ => _ end =>
        destruct (Decimal.nzhead d) eqn:En; try discriminate;
        rewrite H in En; exact (DecimalFacts.nzhead_nonzero _ _ En)
    end.
Qed.

Lemma delimited_stops rest :
  delimited rest = true ->
  match rest with [] => true | c :: _ => negb (is_digit c) end = true /\
  continues_number rest = false.
Proof.
  destruct rest as [|c r]; simpl; [auto|].
  intros H. apply orb_true_iff in H. destruct H as [H|H].
  - apply orb_true_iff in H.
    destruct H as [H|H]; apply Ascii.eqb_eq in H; subst c; auto.
  - apply Ascii.eqb_eq in H; subst c; auto.
Qed.

Lemma parse_digits_uint neg p rest :
  delimited rest = true ->
  parse_digits neg (uint_chars (Pos.to_uint p) ++ rest) =
  Some (JNum (if neg then Zneg p else Zpos p), rest).
Proof.
  intros Hd. destruct (delimited_stops _ Hd) as [Hdig Hcont].
  unfold parse_digits. rewrite take_uint_chars by assumption.
  pose proof (DecimalPos.Unsigned.to_uint_nonnil p) as Hn.
  rewrite to_uint_normal, Hcont. simpl.
  unfold N.of_uint. rewrite DecimalPos.Unsigned.of_to.
  destruct (Pos.to_uint p), neg; first [congruence | reflexivity].
Qed.

Lemma parse_print_int n rest :
  delimited rest = true ->
  parse_number (print_int n ++ rest) = Some (JNum n, rest).
Proof.
  intros Hd. destruct n as [|p|p].
  - destruct (delimited_stops _ Hd) as [Hdig Hcont].
    change (parse_number (print_int 0 ++ rest))
      with (parse_digits false
              (uint_chars (Decimal.D0 Decimal.Nil) ++ rest)).
    unfold parse_digits. rewrite take_uint_chars by assumption.
    simpl. rewrite Hcont. reflexivity.
  - simpl print_int.
    destruct (uint_chars_head (DecimalPos.Unsigned.to_uint_nonnil p))
      as (c & t & E & _ & Hm).
    pose proof (parse_digits_uint false p rest Hd) as D.
    rewrite E in *. simpl. rewrite Hm. exact D.
  - simpl. now apply (parse_digits_uint true).
Qed.

Lemma digit_opens_value c : is_digit c = true -> opens_value c.
Proof.
  unfold is_digit, digit_cons, opens_value, is_ws.
  destruct c as [[] [] [] [] [] [] [] []]; simpl; intros H;
    first [discriminate | repeat split].
Qed.

Lemma print_int_head n :
  exists c t, print_int n = c :: t /\ is_num_start c = true /\ opens_value c.
Proof.
  destruct n as [|p|p]; simpl.
  - eexists; eexists; split; [reflexivity|]. split; [reflexivity|].
    repeat split.
  - destruct (uint_chars_head (DecimalPos.Unsigned.to_uint_nonnil p))
      as (c & t & E & Hc & Hm).
    exists c, t. split; [assumption|]. split.
    + unfold is_num_start. fold (is_digit c). now rewrite Hc, orb_true_r.
    + now apply digit_opens_value.
  - eexists; eexists; split; [reflexivity|]. split; [reflexivity|].
    repeat split.
Qed.

Lemma print_head v : exists c t, print v = c :: t /\ opens_value c.
Proof.
  destruct v as [|[]|n|s|l|m]; try (eexists; eexists; split;
    [reflexivity|repeat split]).
  destruct (print_int_head n) as (c & t & E & _ & H). now exists c, t.
Qed.

Lemma skip_ws_nonws c r : is_ws c = false -> skip_ws (c :: r) = c :: r.
Proof. intros H. simpl. now rewrite H. Qed.

Lemma skip_ws_print v rest : skip_ws (print v ++ rest) = print v ++ rest.
Proof.
  destruct (print_head v) as (c & t & E & H & _). rewrite E.
  now apply skip_ws_nonws.
Qed.

Lemma parse_value_S f s :
  parse_value (S f) s =
  match skip_ws s with
  | [] => None
  | c :: r =>
      if is_num_start c then parse_number (c :: r)
      else if (c =? "n")%char then
        option_map (pair JNull) (strip (chars "ull") r)
      else if (c =? "t")%char then
        option_map (pair (JBool true)) (strip (chars "rue") r)
      else if (c =? "f")%char then
        option_map (pair (JBool false)) (strip (chars "alse") r)
      else if (c =? dquote)%char then
        match parse_string_body r with
        | Some (str, r') => Some (JStr str, r')
        | None => None
        end
      else if (c =? "[")%char then
        match strip ["]"] (skip_ws r) with
        | Some r' => Some (JArr [], r')
        | None =>
            match parse_elements f r with
            | Some (l, r') => Some (JArr l, r')
            | None => None
            end
        end
      else if (c =? "{")%char then
        match strip ["}"] (skip_ws r) with
        | Some r' => Some (JObj [], r')
        | None =>
            match parse_members f r with
            | Some (m, r') => Some (JObj (build_object m), r')
            | None => None
            end
        end
      else None
  end.
Proof. reflexivity. Qed.

Lemma parse_elements_S f s :
  parse_elements (S f) s =
  match parse_value f s with
  | Some (v, r) =>
      match skip_ws r with
      | c :: r' =>
          if (c =? ",")%char then
            match parse_elements f r' with
            | Some (vs, r'') => Some (v :: vs, r'')
            | None => None
            end
          else if (c =? "]")%char then Some ([v], r')
          else None
      | [] => None
      end
  | None => None
  end.
Proof. reflexivity. Qed.

Lemma parse_members_S f s :
  parse_members (S f) s =
  match strip [dquote] (skip_ws s) with
  | Some r =>
      match parse_string_body r with
      | Some (k, r1) =>
          match strip [":"] (skip_ws r1) with
          | Some r2 =>
              match parse_value f r2 with
              | Some (v, r3) =>
                  match skip_ws r3 with
                  | c :: r4 =>
                      if (c =? ",")%char then
                        match parse_members f r4 with
                        | Some (m, r5) => Some ((k, v) :: m, r5)
                        | None => None
                        end
                      else if (c =? "}")%char then Some ([(k, v)], r4)
                      else None
                  | [] => None
                  end
              | None => None
              end
          | None => None
          end
      | None => None
      end
  | None => None
  end.
Proof. reflexivity. Qed.

Lemma parse_print_elems l :
  Forall roundtrips l -> forallb wf_json l = true -> l <> [] ->
  forall f rest, (list_sum (map (fun x => S (need x)) l) <= f)%nat ->
  parse_elements f (print_elems l ++ rest) = Some (l, rest).
Proof.
  induction l as [|x r IH]; [congruence|].
  intros HF Hwf _ f rest Hf.
  inversion HF as [|? ? Hx Hr]; subst.
  simpl in Hwf. apply andb_true_iff in Hwf. destruct Hwf as [Wx Wr].
  simpl in Hf. destruct f as [|f]; [lia|].
  rewrite parse_elements_S.
  destruct r as [|y r'].
  - simpl print_elems. rewrite <- app_assoc.
    rewrite (Hx Wx f) by (reflexivity || lia). reflexivity.
  - change (print_elems (x :: y :: r'))
      with (print x ++ "," :: print_elems (y :: r')).
    rewrite <- app_assoc.
    rewrite (Hx Wx f) by (reflexivity || lia).
    change (("," :: print_elems (y :: r')) ++ rest)
      with ("," :: print_elems (y :: r') ++ rest).
    rewrite skip_ws_nonws by reflexivity.
    change (("," =? ",")%char) with true. cbv iota.
    rewrite IH; [reflexivity|assumption|assumption|discriminate|].
    simpl in *. lia.
Qed.

Lemma parse_print_members m :
  Forall (fun kv => roundtrips (snd kv)) m ->
  forallb (fun kv => wf_json (snd kv)) m = true -> m <> [] ->
  forall f rest,
    (list_sum (map (fun kv => S (need (snd kv))) m) <= f)%nat ->
    parse_members f (print_members m ++ rest) = Some (m, rest).
Proof.
  induction m as [|[k x] r IH]; [congruence|].
  intros HF Hwf _ f rest Hf.
  inversion HF as [|? ? Hx Hr]; subst. simpl in Hx.
  simpl in Hwf. apply andb_true_iff in Hwf. destruct Hwf as [Wx Wr].
  simpl in Hf. destruct f as [|f]; [lia|].
  rewrite parse_members_S.
  destruct r as [|kv r'].
  - replace (print_members [(k, x)] ++ rest)
      with (dquote :: quote_body k ++ dquote :: ":" :: print x ++ "}" :: rest)
      by (simpl; unfold quote; simpl; rewrite <- !app_assoc; simpl;
          rewrite <- ?app_assoc; reflexivity).
    rewrite skip_ws_nonws by reflexivity.
    cbn [strip]. change ((dquote =? dquote)%char) with true. cbv iota.
    rewrite parse_quote_body.
    rewrite skip_ws_nonws by reflexivity.
    cbn [strip]. change ((":" =? ":")%char) with true. cbv iota.
    rewrite (Hx Wx f) by (reflexivity || lia). reflexivity.
  - replace (print_members ((k, x) :: kv :: r') ++ rest)
      with (dquote :: quote_body k ++ dquote :: ":" :: print x ++
            "," :: print_members (kv :: r') ++ rest)
      by (change (print_members ((k, x) :: kv :: r'))
            with (quote k ++ ":" :: print x ++
                  "," :: print_members (kv :: r'));
          unfold quote; simpl; rewrite <- !app_assoc; simpl;
          rewrite <- ?app_assoc; reflexivity).
    rewrite skip_ws_nonws by reflexivity.
    cbn [strip]. change ((dquote =? dquote)%char) with true. cbv iota.
    rewrite parse_quote_body.
    rewrite skip_ws_nonws by reflexivity.
    cbn [strip]. change ((":" =? ":")%char) with true. cbv iota.
    rewrite (Hx Wx f) by (reflexivity || lia).
    rewrite skip_ws_nonws by reflexivity.
    change (("," =? ",")%char) with true. cbv iota.
    rewrite IH; [reflexivity|assumption|assumption|discriminate|].
    simpl in *. lia.
Qed.

Lemma obj_set_fresh k v m :
  existsb (String.eqb k) (map fst m) = false ->
  obj_set k v m = m ++ [(k, v)].
Proof.
  induction m as [|[k' v'] r IH]; simpl; [reflexivity|].
  intros H. apply orb_false_iff in H. destruct H as [Hk Hr].
  rewrite String.eqb_sym, Hk. now rewrite IH.
Qed.

Lemma build_object_distinct m :
  distinct (map fst m) = true -> build_object m = m.
Proof.
  unfold build_object.
  enough (G : forall acc,
             distinct (map fst (acc ++ m)) = true ->
             fold_left (fun m kv => obj_set (fst kv) (snd kv) m) m acc
             = acc ++ m) by (intros H; exact (G [] H)).
  induction m as [|[k v] r IH]; intros acc H; simpl.
  - now rewrite app_nil_r.
  - assert (F : existsb (String.eqb k) (map fst acc) = false).
    { clear IH. induction acc as [|[k' v'] acc IHa]; simpl in *; [reflexivity|].
      apply andb_true_iff in H. destruct H as [H1 H2].
      rewrite (IHa H2), orb_false_r.
      apply negb_true_iff in H1. rewrite map_app, existsb_app in H1.
      apply orb_false_iff in H1. destruct H1 as [_ H1]. simpl in H1.
      apply orb_false_iff in H1. destruct H1 as [H1 _].
      now rewrite String.eqb_sym. }
    rewrite obj_set_fresh by assumption.
    rewrite IH; rewrite <- app_assoc; [reflexivity|exact H].
Qed.

Lemma parse_print_value v : roundtrips v.
Proof.
  induction v as [|b|n|s|l IH|m IH] using json_nested_ind;
    intros Hwf f rest Hf Hd; (destruct f as [|f]; [simpl in Hf; lia|]);
    rewrite parse_value_S.
  - reflexivity.
  - destruct b; reflexivity.
  - destruct (print_int_head n) as (c & t & E & Hs & Hw & _).
    simpl print. rewrite E. change ((c :: t) ++ rest) with (c :: t ++ rest).
    rewrite skip_ws_nonws, Hs by assumption.
    change (c :: t ++ rest) with ((c :: t) ++ rest). rewrite <- E.
    now apply parse_print_int.
  - change (print (JStr s) ++ rest)
      with (dquote :: (quote_body s ++ [dquote]) ++ rest).
    rewrite <- app_assoc. rewrite skip_ws_nonws by reflexivity.
    change (is_num_start dquote) with false.
    change ((dquote =? "n")%char) with false.
    change ((dquote =? "t")%char) with false.
    change ((dquote =? "f")%char) with false.
    change ((dquote =? dquote)%char) with true. cbv iota.
    change ([dquote] ++ rest) with (dquote :: rest).
    now rewrite parse_quote_body.
  - rewrite print_arr.
    change (("[" :: print_elems l) ++ rest) with ("[" :: print_elems l ++ rest).
    rewrite skip_ws_nonws by reflexivity.
    change (is_num_start "[") with false.
    change (("[" =? "n")%char) with false.
    change (("[" =? "t")%char) with false.
    change (("[" =? "f")%char) with false.
    change (("[" =? dquote)%char) with false.
    change (("[" =? "[")%char) with true. cbv iota.
    destruct l as [|x r]; [reflexivity|].
    simpl in Hwf, Hf.
    destruct (print_head x) as (c & t & E & Hw & Hb & _).
    assert (S1 : strip ["]"]
                   (skip_ws (print_elems (x :: r) ++ rest)) = None).
    { simpl print_elems. rewrite E. simpl app.
      rewrite skip_ws_nonws by assumption. cbn [strip].
      now rewrite Ascii.eqb_sym, Hb. }
    rewrite S1, parse_print_elems;
      [reflexivity|assumption|assumption|discriminate|simpl; lia].
  - rewrite print_obj.
    change (("{" :: print_members m) ++ rest)
      with ("{" :: print_members m ++ rest).
    rewrite skip_ws_nonws by reflexivity.
    change (is_num_start "{") with false.
    change (("{" =? "n")%char) with false.
    change (("{" =? "t")%char) with false.
    change (("{" =? "f")%char) with false.
    change (("{" =? dquote)%char) with false.
    change (("{" =? "[")%char) with false.
    change (("{" =? "{")%char) with true. cbv iota.
    destruct m as [|[k x] r]; [reflexivity|].
    simpl in Hwf. apply andb_true_iff in Hwf. destruct Hwf as [Hk Hv].
    assert (S1 : strip ["}"]
                   (skip_ws (print_members ((k, x) :: r) ++ rest)) = None)
      by reflexivity.
    rewrite S1, parse_print_members;
      [|assumption|exact Hv|discriminate|simpl in *; lia].
    now rewrite (build_object_distinct ((k, x) :: r)).
Qed.

Lemma need_print v : (need v <= 2 * length (print v))%nat.
Proof.
  induction v as [|b|n|s|l IH|m IH] using json_nested_ind.
  - simpl; lia.
  - destruct b; simpl; lia.
  - destruct (print_int_head n) as (c & t & E & _). simpl print. rewrite E.
    simpl. lia.
  - simpl. lia.
  - rewrite print_arr. simpl need. cbn [length].
    enough (list_sum (map (fun x => S (need x)) l) + 1
            <= 2 * length (print_elems l))%nat by lia.
    induction IH as [|x r Hx Hr IHr]; [simpl; lia|].
    destruct r as [|y r'].
    + simpl print_elems. rewrite length_app. simpl. lia.
    + change (print_elems (x :: y :: r'))
        with (print x ++ "," :: print_elems (y :: r')).
      change (list_sum (map (fun x => S (need x)) (x :: y :: r')))
        with (S (need x) +
              list_sum (map (fun x => S (need x)) (y :: r')))%nat.
      rewrite length_app. cbn [length]. lia.
  - rewrite print_obj. simpl need. cbn [length].
    enough (list_sum (map (fun kv => S (need (snd kv))) m) + 1
            <= 2 * length (print_members m))%nat by lia.
    induction IH as [|[k x] r Hx Hr IHr]; [simpl; lia|].
    simpl in Hx.
    destruct r as [|y r'].
    + change (print_members [(k, x)])
        with (quote k ++ ":" :: print x ++ ["}"]).
      rewrite length_app. cbn [length].
      rewrite length_app. simpl. lia.
    + change (print_members ((k, x) :: y :: r'))
        with (quote k ++ ":" :: print x ++ "," :: print_members (y :: r')).
      change (list_sum (map (fun kv => S (need (snd kv))) ((k, x) :: y :: r')))
        with (S (need x) +
              list_sum (map (fun kv => S (need (snd kv))) (y :: r')))%nat.
      rewrite length_app. cbn [length]. rewrite length_app.
      cbn [length]. lia.
Qed.

(** Parsing what the printer wrote gives the value back. *)
Theorem parse_inverts_stringify v :
  wf_json v = true -> parse (stringify v) = Some v.
Proof.
  intros Hwf. unfold parse, stringify, chars.
  rewrite list_ascii_of_string_of_list_ascii.
  pose proof (@parse_print_value v Hwf (2 * length (print v))%nat []
                (need_print v) eq_refl) as H.
  rewrite List.app_nil_r in H. now rewrite H.
Qed.

Lemma stringify_is_nonempty v : stringify v <> EmptyString.
Proof.
  unfold stringify. destruct (print_head v) as (c & t & E & _).
  rewrite E. discriminate.
Qed.

End JsonFacts.

(* ================================================================== *)
(** * [ORDER BY] sorts *)
(* ================================================================== *)

(** The comparison of a sort key is a total order. *)
Class Order (K : Type) `{Cmp K} : Prop := {
  cmp_eq : forall a b : K, cmp a b = Eq -> a = b;
  cmp_refl : forall a : K, cmp a a = Eq;
  cmp_antisym : forall a b : K, cmp b a = CompOpp (cmp a b);
  cmp_trans : forall a b c : K, cmp a b = Lt -> cmp b c = Lt -> cmp a c = Lt
}.

Arguments Order K {_}.

Lemma ascii_compare_trans a b c :
  Ascii.compare a b = Lt -> Ascii.compare b c = Lt -> Ascii.compare a c = Lt.
Proof.
  unfold Ascii.compare. rewrite !N.compare_lt_iff. apply N.lt_trans.
Qed.

Lemma ascii_compare_refl a : Ascii.compare a a = Eq.
Proof. unfold Ascii.compare. apply N.compare_refl. Qed.

Lemma string_compare_refl s : String.compare s s = Eq.
Proof.
  induction s as [|c s IH]; simpl; [reflexivity|].
  now rewrite ascii_compare_refl.
Qed.

Lemma string_compare_trans a : forall b c,
  String.compare a b = Lt -> String.compare b c = Lt -> String.compare a c = Lt.
Proof.
  induction a as [|x a IH]; intros [|y b] [|z c]; simpl; try congruence.
  destruct (Ascii.compare x y) eqn:Exy; try discriminate;
    destruct (Ascii.compare y z) eqn:Eyz; try discriminate; intros H1 H2.
  - apply Ascii.compare_eq_iff in Exy, Eyz. subst.
    rewrite ascii_compare_refl. eauto.
  - apply Ascii.compare_eq_iff in Exy. subst. now rewrite Eyz.
  - apply Ascii.compare_eq_iff in Eyz. subst. now rewrite Exy.
  - now rewrite (ascii_compare_trans _ _ _ Exy Eyz).
Qed.

#[export] Instance text_order : Order string.
Proof.
  split.
  - exact String.compare_eq_iff.
  - exact string_compare_refl.
  - intros a b. exact (String.compare_antisym b a).
  - exact string_compare_trans.
Qed.

#[export] Instance integer_order : Order Z.
Proof.
  split; unfold cmp, integer_cmp.
  - intros a b. now apply Z.compare_eq.
  - apply Z.compare_refl.
  - intros a b. apply Z.compare_antisym.
  - intros a b c. rewrite !Z.compare_lt_iff. lia.
Qed.

#[export] Instance nullable_order {K} `{Order K} : Order (option K).
Proof.
  split.
  - intros [a|] [b|] E; try reflexivity; try discriminate E.
    change (cmp a b = Eq) in E. f_equal. now apply cmp_eq.
  - intros [a|]; [exact (cmp_refl a)|reflexivity].
  - intros [a|] [b|]; try reflexivity. exact (cmp_antisym a b).
  - intros [a|] [b|] [c|] Lab Lbc; try reflexivity; try discriminate.
    exact (cmp_trans a b c Lab Lbc).
Qed.

#[export] Instance desc_order {K} `{Order K} : Order (Desc K).
Proof.
  split.
  - intros [a] [b] E. change (cmp b a = Eq) in E. f_equal. symmetry.
    now apply cmp_eq.
  - intros [a]. exact (cmp_refl a).
  - intros [a] [b]. exact (cmp_antisym b a).
  - intros [a] [b] [c] Lab Lbc. exact (cmp_trans c b a Lbc Lab).
Qed.

#[export] Instance pair_order {K1 K2} `{Order K1} `{Order K2}
  : Order (K1 * K2).
Proof.
  split.
  - intros [a1 a2] [b1 b2] E.
    change (match cmp a1 b1 with Eq => cmp a2 b2 | c => c end = Eq) in E.
    destruct (cmp a1 b1) eqn:E1; try discriminate.
    apply cmp_eq in E1, E. congruence.
  - intros [a1 a2].
    change (match cmp a1 a1 with Eq => cmp a2 a2 | c => c end = Eq).
    now rewrite !cmp_refl.
  - intros [a1 a2] [b1 b2].
    change (match cmp b1 a1 with Eq => cmp b2 a2 | c => c end =
            CompOpp (match cmp a1 b1 with Eq => cmp a2 b2 | c => c end)).
    rewrite (cmp_antisym a1 b1).
    destruct (cmp a1 b1); simpl; auto using cmp_antisym.
  - intros [a1 a2] [b1 b2] [c1 c2] Lab Lbc.
    change (match cmp a1 b1 with Eq => cmp a2 b2 | c => c end = Lt) in Lab.
    change (match cmp b1 c1 with Eq => cmp b2 c2 | c => c end = Lt) in Lbc.
    change (match cmp a1 c1 with Eq => cmp a2 c2 | c => c end = Lt).
    destruct (cmp a1 b1) eqn:E1; try discriminate;
      destruct (cmp b1 c1) eqn:E2; try discriminate.
    + apply cmp_eq in E1, E2. subst. rewrite cmp_refl.
      exact (cmp_trans _ _ _ Lab Lbc).
    + apply cmp_eq in E1. subst. now rewrite E2.
    + apply cmp_eq in E2. subst. now rewrite E1.
    + now rewrite (cmp_trans _ _ _ E1 E2).
Qed.

Lemma le_key_total {K} `{Order K} (a b : K) :
  le_key a b = false -> le_key b a = true.
Proof.
  unfold le_key. rewrite (cmp_antisym a b). now destruct (cmp a b).
Qed.

Lemma le_key_trans {K} `{Order K} (a b c : K) :
  le_key a b = true -> le_key b c = true -> le_key a c = true.
Proof.
  unfold le_key.
  destruct (cmp a b) eqn:E1; try discriminate;
    destruct (cmp b c) eqn:E2; try discriminate; intros _ _.
  - apply cmp_eq in E1, E2. subst. now rewrite cmp_refl.
  - apply cmp_eq in E1. subst. now rewrite E2.
  - apply cmp_eq in E2. subst. now rewrite E1.
  - now rewrite (cmp_trans _ _ _ E1 E2).
Qed.

Section OrderByFacts.
Context {R K : Type} `{Order K}.
Variable key : R -> K.

Lemma insert_row_perm x l : Permutation (insert_row key x l) (x :: l).
Proof.
  induction l as [|y t IH]; simpl; [reflexivity|].
  destruct (le_key (key x) (key y)); [reflexivity|].
  rewrite IH. apply perm_swap.
Qed.

Lemma order_by_perm l : Permutation (order_by key l) l.
Proof.
  induction l as [|x t IH]; simpl; [reflexivity|].
  rewrite insert_row_perm. now constructor.
Qed.

Lemma insert_row_ordered x l :
  ordered key l -> ordered key (insert_row key x l).
Proof.
  unfold ordered. induction 1 as [|y t Ht IH Hy]; simpl.
  - repeat constructor.
  - destruct (le_key (key x) (key y)) eqn:E.
    + constructor; [now constructor|]. constructor; [assumption|].
      eapply Forall_impl; [|exact Hy]. intros z Hz. simpl in Hz.
      eauto using le_key_trans.
    + constructor; [assumption|].
      apply (Permutation_Forall (Permutation_sym (insert_row_perm x t))).
      constructor; [now apply le_key_total|assumption].
Qed.

Lemma order_by_ordered l : ordered key (order_by key l).
Proof.
  induction l as [|x t IH]; simpl; [constructor|].
  now apply insert_row_ordered.
Qed.

Lemma order_by_in l x : In x (order_by key l) <-> In x l.
Proof.
  split; apply Permutation_in;
    [apply order_by_perm | apply Permutation_sym, order_by_perm].
Qed.
End OrderByFacts.

(* ================================================================== *)
(** * Properties of the store primitives *)
(* ================================================================== *)

Section StoreFacts.
Context {R : Type}.
Implicit Types (p : R -> bool) (t : table R) (l : list R).

Lemma filter_none_keeps p l :
  filter p l = [] -> filter (fun r => negb (p r)) l = l.
Proof.
  induction l as [|x l IH]; simpl; [reflexivity|].
  destruct (p x); simpl; [discriminate|]. intros H. now rewrite IH.
Qed.

Lemma map_none_keeps p (f : R -> R) l :
  filter p l = [] -> map (fun r => if p r then f r else r) l = l.
Proof.
  induction l as [|x l IH]; simpl; [reflexivity|].
  destruct (p x); simpl; [discriminate|]. intros H. now rewrite IH.
Qed.

Lemma filter_filter_neg p l : filter p (filter (fun r => negb (p r)) l) = [].
Proof.
  induction l as [|x l IH]; simpl; [reflexivity|].
  destruct (p x) eqn:E; simpl; [assumption|]. now rewrite E.
Qed.

Lemma delete_where_none p t : select p t = [] -> delete_where p t = (t, 0%nat).
Proof.
  unfold select, delete_where. intros H.
  rewrite filter_none_keeps, H by assumption. now destruct t.
Qed.

Lemma update_where_none p f t :
  select p t = [] -> update_where p f t = (t, 0%nat).
Proof.
  unfold select, update_where. intros H.
  rewrite map_none_keeps, H by assumption. now destruct t.
Qed.

Lemma select_after_delete p t : select p (fst (delete_where p t)) = [].
Proof. unfold select, delete_where. simpl. apply filter_filter_neg. Qed.

Lemma select_after_update p (f : R -> R) t :
  (forall r, p (f r) = p r) ->
  select p (fst (update_where p f t)) = map f (select p t).
Proof.
  intros Hf. unfold select, update_where. simpl.
  induction (rows t) as [|x l IH]; simpl; [reflexivity|].
  destruct (p x) eqn:E.
  - rewrite Hf, E. simpl. now rewrite IH.
  - rewrite E. exact IH.
Qed.

Lemma select_append p l x s :
  select p {| rows := l ++ [x]; serial := s |} =
  filter p l ++ (if p x then [x] else []).
Proof. unfold select. simpl. now rewrite filter_app. Qed.
End StoreFacts.

Lemma set_users_same d : set_users (users d) d = d.
Proof. now destruct d. Qed.

Lemma set_projects_same d : set_projects (projects d) d = d.
Proof. now destruct d. Qed.

Lemma set_ideas_same d : set_ideas (ideas d) d = d.
Proof. now destruct d. Qed.

Lemma set_notes_same d : set_notes (notes d) d = d.
Proof. now destruct d. Qed.

Lemma set_career_goals_same d : set_career_goals (career_goals d) d = d.
Proof. now destruct d. Qed.

Lemma set_career_stage_history_same d :
  set_career_stage_history (career_stage_history d) d = d.
Proof. now destruct d. Qed.

Lemma set_future_work_same d : set_future_work (future_work d) d = d.
Proof. now destruct d. Qed.

Lemma set_deadlines_same d : set_deadlines (deadlines d) d = d.
Proof. now destruct d. Qed.

Lemma set_calendar_events_same d :
  set_calendar_events (calendar_events d) d = d.
Proof. now destruct d. Qed.

Lemma set_profiles_same d : set_profiles (profiles d) d = d.
Proof. now destruct d. Qed.

(* ================================================================== *)
(** * Identity and credential store *)
(* ================================================================== *)

Lemma toLowerCase_empty s : toLowerCase s = "" -> s = "".
Proof. destruct s; simpl; [reflexivity|discriminate]. Qed.

Lemma lower_case_nonempty (e e' : string) :
  toLowerCase e' = toLowerCase e -> e <> "" -> e' <> "".
Proof.
  intros H He ->. simpl in H. symmetry in H.
  now apply toLowerCase_empty in H.
Qed.

Lemma str_truthy_text x : str_truthy x = true -> x = Some (text x).
Proof. destruct x; simpl; [reflexivity|discriminate]. Qed.

Lemma scalar_truthy_string s : s <> "" -> scalar_truthy (SStr s) = true.
Proof. destruct s; simpl; [congruence|reflexivity]. Qed.

Lemma long_nonempty (p : string) : (6 <= String.length p)%nat -> p <> "".
Proof. destruct p; simpl; [lia|discriminate]. Qed.

(** Neither [toLowerCase] nor [trim] adds or removes a NUL character. *)
Lemma lower_unit_nul c :
  Ascii.eqb (lower_unit c) Ascii.zero = Ascii.eqb c Ascii.zero.
Proof. destruct c as [[] [] [] [] [] [] [] []]; reflexivity. Qed.

Lemma is_space_nul c : is_space c = true -> Ascii.eqb c Ascii.zero = false.
Proof. destruct c as [[] [] [] [] [] [] [] []]; vm_compute; congruence. Qed.

Lemma has_nul_toLowerCase s : has_nul (toLowerCase s) = has_nul s.
Proof.
  induction s as [|c r IH]; simpl; [reflexivity|].
  now rewrite lower_unit_nul, IH.
Qed.

Lemma has_nul_trimStart s : has_nul (trimStart s) = has_nul s.
Proof.
  induction s as [|c r IH]; simpl; [reflexivity|].
  destruct (is_space c) eqn:E; [|reflexivity].
  now rewrite IH, (is_space_nul c E).
Qed.

Lemma has_nul_trimEnd s : has_nul (trimEnd s) = has_nul s.
Proof.
  induction s as [|c r IH]; [reflexivity|].
  cbn [trimEnd has_nul]. rewrite <- IH.
  destruct (trimEnd r) as [|c' r']; [|reflexivity].
  destruct (is_space c) eqn:E; cbn [has_nul].
  - now rewrite (is_space_nul c E).
  - reflexivity.
Qed.

Lemma has_nul_normalized e : has_nul (trim (toLowerCase e)) = has_nul e.
Proof.
  unfold trim. now rewrite has_nul_trimStart, has_nul_trimEnd,
    has_nul_toLowerCase.
Qed.

Lemma user_exists_after_insert d e h :
  has_nul e = false ->
  user_exists (fst (insert_user d e h)) e = true.
Proof.
  intros Hn. unfold insert_user. rewrite Hn.
  destruct (user_exists d e) eqn:E; simpl.
  - exact E.
  - unfold user_exists. simpl. rewrite existsb_app. simpl.
    now rewrite String.eqb_refl, orb_true_r.
Qed.

Section Register.
Context {B : Bcrypt}.
Variables (d : db) (salt : string) (b : Credentials.body).

Let email := Credentials.email b.
Let password := Credentials.password b.

Lemma register_rejects :
  scalar_truthy email = false \/ scalar_truthy password = false \/
  shorter password 6 = true ->
  fst (post_register d salt b) = d /\
  exists message, snd (post_register d salt b) = AuthFailure 400 message.
Proof.
  unfold post_register. fold email password.
  destruct (scalar_truthy email), (scalar_truthy password); simpl;
    intros [H|[H|H]]; try discriminate; try rewrite H; simpl; eauto.
Qed.

Lemma register_throws :
  scalar_truthy email = true -> scalar_truthy password = true ->
  shorter password 6 = false ->
  as_string email = None \/ as_string password = None ->
  post_register d salt b = (d, AuthFailure 500 "Server error during signup.").
Proof.
  unfold post_register. fold email password.
  intros -> -> -> H. simpl.
  destruct (as_string password), (as_string email), H;
    try discriminate; reflexivity.
Qed.

Variables (e p : string).
Hypothesis Hemail : email = SStr e.
Hypothesis Hpassword : password = SStr p.
Hypothesis He : e <> "".
Hypothesis Hlength : (6 <= String.length p)%nat.

Let normalized := trim (toLowerCase e).

Lemma register_reaches_insert :
  post_register d salt b =
  match insert_user d normalized (bcrypt_hash p 10 salt) with
  | (d', Done row) =>
      (d', Json {| Account.success := true;
                   Account.id := Users.id row;
                   Account.email := Users.email row;
                   Account.message := "Account created successfully!" |})
  | (d', Raised code) =>
      if (code =? "23505")%string then
        (d', AuthFailure 400 "User already exists.")
      else (d', AuthFailure 500 "Server error during signup.")
  end.
Proof.
  unfold post_register. fold email password. rewrite Hemail, Hpassword.
  rewrite (scalar_truthy_string He),
    (scalar_truthy_string (long_nonempty Hlength)).
  cbn [negb orb shorter as_string]. apply Nat.ltb_ge in Hlength.
  now rewrite Hlength.
Qed.

Lemma register_refused_text :
  has_nul e = true ->
  post_register d salt b = (d, AuthFailure 500 "Server error during signup.").
Proof.
  intros H. rewrite register_reaches_insert. unfold insert_user, normalized.
  now rewrite has_nul_normalized, H.
Qed.

Hypothesis Hnul : has_nul e = false.

Lemma normalized_text : has_nul normalized = false.
Proof. unfold normalized. now rewrite has_nul_normalized. Qed.

Lemma register_conflict :
  user_exists d normalized = true ->
  snd (post_register d salt b) = AuthFailure 400 "User already exists." /\
  rows (users (fst (post_register d salt b))) = rows (users d).
Proof.
  intros H. rewrite register_reaches_insert. unfold insert_user.
  rewrite normalized_text, H. simpl. now destruct d.
Qed.

Lemma register_creates :
  user_exists d normalized = false ->
  let row := {| Users.id := serial (users d);
                Users.email := normalized;
                Users.password := bcrypt_hash p 10 salt |} in
  rows (users (fst (post_register d salt b))) = rows (users d) ++ [row] /\
  snd (post_register d salt b) =
    Json {| Account.success := true;
            Account.id := serial (users d);
            Account.email := normalized;
            Account.message := "Account created successfully!" |}.
Proof.
  intros H. rewrite register_reaches_insert. unfold insert_user.
  rewrite normalized_text, H. simpl. now destruct d.
Qed.

Lemma register_records_email :
  user_exists (fst (post_register d salt b)) normalized = true.
Proof.
  rewrite register_reaches_insert.
  pose proof (user_exists_after_insert d normalized
                (bcrypt_hash p 10 salt) normalized_text) as H.
  destruct (insert_user d normalized _) as [d' [row|code]]; simpl in *;
    [assumption|]. now destruct (code =? "23505")%string.
Qed.
End Register.

(** C1, as the code has it.  [POST /register]: a missing email or
    password, or a password string of fewer than 6 characters, is refused
    with status 400 and leaves the store as it was.  Past that test, an
    email or a password that is not a string, and an email with a NUL
    character, are answered 500 "Server error during signup." and nothing
    is stored.  For an email and a password that are strings, the email
    without NUL: an email whose lowercased and trimmed form is already
    stored gets 400 "User already exists."; otherwise the row (normalized
    email, bcrypt hash of the password) is stored and its id and email
    are returned.  A second registration of an email that differs only in
    case conflicts; 5 characters fail, 6 pass validation. *)
Theorem register_contract {B : Bcrypt} (d : db) (salt : string)
  (b : Credentials.body) :
  let email := Credentials.email b in
  let password := Credentials.password b in
  (scalar_truthy email = false \/ scalar_truthy password = false \/
   shorter password 6 = true ->
   fst (post_register d salt b) = d /\
   exists message, snd (post_register d salt b) = AuthFailure 400 message) /\
  (scalar_truthy email = true -> scalar_truthy password = true ->
   shorter password 6 = false ->
   as_string email = None \/ as_string password = None ->
   post_register d salt b =
     (d, AuthFailure 500 "Server error during signup.")) /\
  (forall e p : string,
     email = SStr e -> password = SStr p ->
     e <> "" -> (6 <= String.length p)%nat ->
     let normalized := trim (toLowerCase e) in
     (has_nul e = true ->
      post_register d salt b =
        (d, AuthFailure 500 "Server error during signup.")) /\
     (has_nul e = false -> user_exists d normalized = true ->
      snd (post_register d salt b) = AuthFailure 400 "User already exists." /\
      rows (users (fst (post_register d salt b))) = rows (users d)) /\
     (has_nul e = false -> user_exists d normalized = false ->
      rows (users (fst (post_register d salt b))) =
        rows (users d) ++
        [{| Users.id := serial (users d);
            Users.email := normalized;
            Users.password := bcrypt_hash p 10 salt |}] /\
      snd (post_register d salt b) =
        Json {| Account.success := true;
                Account.id := serial (users d);
                Account.email := normalized;
                Account.message := "Account created successfully!" |}) /\
     (has_nul e = false ->
      forall (salt' : string) (e' p' : string),
        toLowerCase e' = toLowerCase e ->
        (6 <= String.length p')%nat ->
        snd (post_register (fst (post_register d salt b)) salt'
               (credentials e' p'))
        = AuthFailure 400 "User already exists.")) /\
  (forall p : string,
     password = SStr p -> String.length p = 5%nat ->
     status (snd (post_register d salt b)) = 400%nat) /\
  (forall e p : string,
     email = SStr e -> password = SStr p ->
     e <> "" -> has_nul e = false -> String.length p = 6%nat ->
     snd (post_register d salt b) = AuthFailure 400 "User already exists." \/
     exists account, snd (post_register d salt b) = Json account).
Proof.
  intros email password.
  split; [|split; [|split; [|split]]].
  - now apply register_rejects.
  - now apply register_throws.
  - intros e p Hemail Hpassword He Hl normalized.
    split; [|split; [|split]].
    + now apply (@register_refused_text B d salt b e p).
    + intros Hn Hx. now apply (@register_conflict B d salt b e p).
    + intros Hn Hx. now apply (@register_creates B d salt b e p).
    + intros Hn salt' e' p' Hcase Hlen.
      pose proof (lower_case_nonempty Hcase He) as He'.
      assert (Hn' : has_nul e' = false).
      { rewrite <- has_nul_toLowerCase, Hcase, has_nul_toLowerCase.
        exact Hn. }
      apply (@register_conflict B _ salt' (credentials e' p') e' p');
        try assumption; try reflexivity.
      rewrite Hcase.
      now apply (@register_records_email B d salt b e p).
  - intros p Hpassword H5.
    assert (Hr : scalar_truthy email = false \/
                 scalar_truthy password = false \/
                 shorter password 6 = true).
    { right; right. rewrite Hpassword. simpl. apply Nat.ltb_lt. lia. }
    destruct (register_rejects d salt b Hr) as [_ [m Hm]]. now rewrite Hm.
  - intros e p Hemail Hpassword He Hn H6.
    assert (Hl : (6 <= String.length p)%nat) by lia.
    destruct (user_exists d (trim (toLowerCase e))) eqn:E.
    + left. now apply (@register_conflict B d salt b e p).
    + right. eexists. now apply (@register_creates B d salt b e p).
Qed.

Lemma register_contract_witness :
  snd (@post_register plain_bcrypt db_empty "salt"
         (credentials "a@x.com" "secret1")) =
    Json {| Account.success := true; Account.id := 1;
            Account.email := "a@x.com";
            Account.message := "Account created successfully!" |} /\
  snd (@post_register plain_bcrypt db_registered "pepper"
         (credentials "A@X.com" "secret2")) =
    AuthFailure 400 "User already exists." /\
  status (snd (@post_register plain_bcrypt db_empty "salt"
                 (credentials "a@x.com" "12345"))) = 400%nat /\
  @post_register plain_bcrypt db_empty "salt"
    {| Credentials.name := None; Credentials.email := SStr "a@x.com";
       Credentials.password := SBool true |} =
    (db_empty, AuthFailure 500 "Server error during signup.").
Proof.
  destruct (@register_contract plain_bcrypt db_empty "salt"
              (credentials "a@x.com" "secret1"))
    as (_ & _ & Hstrings & _).
  destruct (Hstrings "a@x.com" "secret1" eq_refl eq_refl)
    as (_ & _ & Hcreate & Htwice); [discriminate|simpl; lia|].
  destruct (@register_contract plain_bcrypt db_empty "salt"
              (credentials "a@x.com" "12345"))
    as (_ & _ & _ & Hfive & _).
  destruct (@register_contract plain_bcrypt db_empty "salt"
              {| Credentials.name := None; Credentials.email := SStr "a@x.com";
                 Credentials.password := SBool true |})
    as (_ & Hthrows & _).
  split; [|split; [|split]].
  - exact (proj2 (Hcreate eq_refl eq_refl)).
  - apply (Htwice eq_refl "pepper" "A@X.com" "secret2"); simpl;
      [reflexivity|lia].
  - exact (Hfive "12345" eq_refl eq_refl).
  - apply Hthrows; try reflexivity. now right.
Defined.

(** C1 as stated fails.  With a fresh email, the password [123456] sent
    as a number is present and is not refused by the length test, and an
    email with a NUL character comes with a password of 7 characters: the
    claim has both stored; the handler answers 500 and stores nothing. *)
Lemma register_server_error_counterexample :
  let numeric := {| Credentials.name := None;
                    Credentials.email := SStr "a@x.com";
                    Credentials.password := SNum 123456 |} in
  let nul := credentials (String Ascii.zero "a@x.com") "secret1" in
  (scalar_truthy (Credentials.email numeric) = true /\
   scalar_truthy (Credentials.password numeric) = true /\
   shorter (Credentials.password numeric) 6 = false /\
   user_exists db_empty (trim (toLowerCase "a@x.com")) = false /\
   forall (B : Bcrypt) salt,
     post_register db_empty salt numeric =
       (db_empty, AuthFailure 500 "Server error during signup.")) /\
  (user_exists db_empty
     (trim (toLowerCase (String Ascii.zero "a@x.com"))) = false /\
   forall (B : Bcrypt) salt,
     post_register db_empty salt nul =
       (db_empty, AuthFailure 500 "Server error during signup.")).
Proof.
  cbv zeta. split.
  - repeat match goal with |- _ /\ _ => split end; try reflexivity.
  - split; reflexivity.
Qed.

Lemma filter_absent_email (l : list Users.row) (e : string) :
  ~ In e (map Users.email l) ->
  filter (fun v => (Users.email v =? e)%string) l = [].
Proof.
  induction l as [|y l IH]; simpl; [reflexivity|]. intros H.
  destruct (Users.email y =? e)%string eqn:E.
  - apply String.eqb_eq in E. exfalso. apply H. now left.
  - apply IH. intros H'. apply H. now right.
Qed.

Lemma select_unique_email (l : list Users.row) (u : Users.row) :
  NoDup (map Users.email l) -> In u l ->
  filter (fun v => (Users.email v =? Users.email u)%string) l = [u].
Proof.
  induction l as [|x l IH]; simpl; [tauto|].
  intros Hnd Hin. inversion Hnd as [|? ? Hx Hl]; subst.
  destruct Hin as [->|Hin].
  - rewrite String.eqb_refl. f_equal. now apply filter_absent_email.
  - destruct (Users.email x =? Users.email u)%string eqn:E.
    + apply String.eqb_eq in E. exfalso. apply Hx. rewrite E.
      now apply in_map.
    + now apply IH.
Qed.

Lemma select_absent_email (l : list Users.row) (e : string) :
  existsb (fun u => (Users.email u =? e)%string) l = false ->
  filter (fun u => (Users.email u =? e)%string) l = [].
Proof.
  induction l as [|x l IH]; simpl; [reflexivity|].
  intros H. apply orb_false_iff in H. destruct H as [Hx Hl].
  rewrite Hx. now apply IH.
Qed.

Lemma user_exists_select d e :
  user_exists d e = true ->
  exists u l, select (fun u => (Users.email u =? e)%string) (users d) = u :: l.
Proof.
  unfold user_exists, select. induction (rows (users d)) as [|x l IH];
    simpl; [discriminate|].
  destruct (Users.email x =? e)%string; simpl; eauto.
Qed.

Section Login.
Context {B : Bcrypt}.
Variables (d : db) (b : Credentials.body).

Let email := Credentials.email b.
Let password := Credentials.password b.

Hypothesis Htruthy_email : scalar_truthy email = true.
Hypothesis Htruthy_password : scalar_truthy password = true.

Lemma login_email_throws :
  as_string email = None -> post_login d b = AuthFailure 500 "Login failed.".
Proof.
  unfold post_login. fold email password.
  rewrite Htruthy_email, Htruthy_password. now intros ->.
Qed.

Variable e : string.
Hypothesis Hemail : email = SStr e.

Let normalized := trim (toLowerCase e).

Lemma login_refused_text :
  has_nul e = true -> post_login d b = AuthFailure 500 "Login failed.".
Proof.
  unfold post_login. fold email password.
  rewrite Htruthy_email, Htruthy_password, Hemail. cbn [negb orb as_string].
  now rewrite has_nul_normalized; intros ->.
Qed.

Hypothesis Hnul : has_nul e = false.

Lemma login_reaches_select :
  post_login d b =
  match select (fun u => (Users.email u =? normalized)%string) (users d) with
  | [] => AuthFailure 400 "Invalid credentials."
  | user :: _ =>
      match as_string password with
      | None => AuthFailure 500 "Login failed."
      | Some p =>
          if negb (bcrypt_compare p (Users.password user)) then
            AuthFailure 400 "Invalid credentials."
          else Json {| Session.success := true;
                       Session.email := Users.email user;
                       Session.message := "Login successful!" |}
      end
  end.
Proof.
  unfold post_login. fold email password.
  rewrite Htruthy_email, Htruthy_password, Hemail. cbn [negb orb as_string].
  now rewrite has_nul_normalized, Hnul.
Qed.

Lemma login_unknown_email :
  user_exists d normalized = false ->
  post_login d b = AuthFailure 400 "Invalid credentials.".
Proof.
  intros H. rewrite login_reaches_select. unfold select.
  now rewrite select_absent_email.
Qed.

Lemma login_password_throws :
  as_string password = None ->
  post_login d b =
  if user_exists d normalized then AuthFailure 500 "Login failed."
  else AuthFailure 400 "Invalid credentials.".
Proof.
  intros Hp. destruct (user_exists d normalized) eqn:E.
  - rewrite login_reaches_select.
    destruct (user_exists_select d normalized E) as (u & l & ->).
    now rewrite Hp.
  - now apply login_unknown_email.
Qed.

Variable p : string.
Hypothesis Hpassword : password = SStr p.
Hypothesis Hunique : NoDup (map Users.email (rows (users d))).

Lemma login_known_email u :
  In u (rows (users d)) -> Users.email u = normalized ->
  post_login d b =
  if bcrypt_compare p (Users.password u) then
    Json {| Session.success := true;
            Session.email := normalized;
            Session.message := "Login successful!" |}
  else AuthFailure 400 "Invalid credentials.".
Proof.
  intros Hin He. rewrite login_reaches_select. unfold select.
  rewrite <- He, (select_unique_email _ u Hunique Hin), Hpassword.
  cbn [as_string]. now destruct (bcrypt_compare _ _).
Qed.

Lemma login_outcome :
  (exists u, In u (rows (users d)) /\ Users.email u = normalized /\
             bcrypt_compare p (Users.password u) = true /\
             post_login d b =
             Json {| Session.success := true;
                     Session.email := normalized;
                     Session.message := "Login successful!" |}) \/
  ((forall u, In u (rows (users d)) -> Users.email u = normalized ->
              bcrypt_compare p (Users.password u) = false) /\
   post_login d b = AuthFailure 400 "Invalid credentials.").
Proof.
  destruct (user_exists d normalized) eqn:E.
  - unfold user_exists in E. apply existsb_exists in E.
    destruct E as (u & Hin & He). apply String.eqb_eq in He.
    pose proof (login_known_email u Hin He) as L.
    destruct (bcrypt_compare p (Users.password u)) eqn:C.
    + left. exists u. auto.
    + right. split; [|assumption]. intros v Hv Hev.
      pose proof (login_known_email v Hv Hev) as L'.
      rewrite L in L'.
      destruct (bcrypt_compare p (Users.password v));
        [discriminate|reflexivity].
  - right. split; [|now apply login_unknown_email].
    intros u Hin He. exfalso.
    assert (X : user_exists d normalized = true).
    { unfold user_exists. apply existsb_exists. exists u.
      split; [assumption|]. now apply String.eqb_eq. }
    congruence.
Qed.
End Login.

(** C5, as the code has it.  [POST /login] with both fields present.
    For an email and a password that are strings, the email without NUL:
    the login succeeds, returning the stored email, exactly when a user
    row exists for the lowercased and trimmed email and the password
    verifies against its hash; every failure is 400 "Invalid
    credentials.", for an unknown email and for a wrong password alike;
    after a registration, a login under another casing of the email with
    the same password succeeds, and one with a password that does not
    verify is refused.  An email that is not a string, or has a NUL
    character, is answered 500 "Login failed."; a password that is not a
    string is answered 500 "Login failed." when the email is known and 400
    "Invalid credentials." when it is not. *)
Theorem login_contract {B : Bcrypt} (d : db) (b : Credentials.body) :
  let email := Credentials.email b in
  let password := Credentials.password b in
  scalar_truthy email = true -> scalar_truthy password = true ->
  NoDup (map Users.email (rows (users d))) ->
  (forall e p : string,
     email = SStr e -> password = SStr p -> has_nul e = false ->
     let normalized := trim (toLowerCase e) in
     let verified :=
       exists u, In u (rows (users d)) /\ Users.email u = normalized /\
                 bcrypt_compare p (Users.password u) = true in
     ((exists session, post_login d b = Json session) <-> verified) /\
     (verified ->
      post_login d b = Json {| Session.success := true;
                               Session.email := normalized;
                               Session.message := "Login successful!" |}) /\
     (~ verified -> post_login d b = AuthFailure 400 "Invalid credentials.") /\
     (user_exists d normalized = false ->
      post_login d b = AuthFailure 400 "Invalid credentials.") /\
     (BcryptVerifies B ->
      forall salt e',
        (6 <= String.length p)%nat ->
        user_exists d normalized = false ->
        toLowerCase e' = toLowerCase e ->
        let d' := fst (post_register d salt b) in
        post_login d' (credentials e' p) =
          Json {| Session.success := true;
                  Session.email := normalized;
                  Session.message := "Login successful!" |} /\
        forall wrong,
          wrong <> "" ->
          bcrypt_compare wrong (bcrypt_hash p 10 salt) = false ->
          post_login d' (credentials e' wrong) =
            AuthFailure 400 "Invalid credentials.")) /\
  (as_string email = None ->
   post_login d b = AuthFailure 500 "Login failed.") /\
  (forall e : string,
     email = SStr e -> has_nul e = true ->
     post_login d b = AuthFailure 500 "Login failed.") /\
  (forall e : string,
     email = SStr e -> has_nul e = false -> as_string password = None ->
     post_login d b =
       if user_exists d (trim (toLowerCase e))
       then AuthFailure 500 "Login failed."
       else AuthFailure 400 "Invalid credentials.").
Proof.
  intros email password He Hp Hu.
  split; [|split; [|split]].
  2: now apply login_email_throws.
  2: { intros e Hemail Hn. now apply (@login_refused_text B d b He Hp e). }
  2: { intros e Hemail Hn Hpw.
       now apply (@login_password_throws B d b He Hp e). }
  intros e p Hemail Hpassword Hn normalized verified.
  pose proof (@login_outcome B d b He Hp e Hemail Hn p Hpassword Hu) as O.
  fold normalized in O.
  assert (Hne : e <> "").
  { intros ->. unfold email in *. rewrite Hemail in He. discriminate. }
  split; [|split; [|split; [|split]]].
  - split.
    + intros [s Hs]. destruct O as [(u & Hin & Heq & Hc & _)|[_ Hf]].
      * exists u. auto.
      * rewrite Hf in Hs. discriminate.
    + intros (u & Hin & Heq & Hc).
      destruct O as [(_ & _ & _ & _ & Hs)|[Hall _]]; [eauto|].
      rewrite (Hall u Hin Heq) in Hc. discriminate.
  - intros (u & Hin & Heq & Hc).
    destruct O as [(_ & _ & _ & _ & Hs)|[Hall _]]; [assumption|].
    rewrite (Hall u Hin Heq) in Hc. discriminate.
  - intros Hv. destruct O as [(u & Hin & Heq & Hc & _)|[_ Hf]];
      [|assumption].
    exfalso. apply Hv. exists u. auto.
  - now apply (@login_unknown_email B d b He Hp e).
  - intros V salt e' Hl Hfresh Hcase d'.
    pose proof (lower_case_nonempty Hcase Hne) as He'.
    assert (Hn' : has_nul e' = false).
    { rewrite <- has_nul_toLowerCase, Hcase, has_nul_toLowerCase.
      exact Hn. }
    destruct (@register_creates B d salt b e p Hemail Hpassword Hne Hl Hn
                Hfresh) as [Hrows _].
    fold normalized d' in Hrows.
    assert (Hsel : forall q, q <> "" ->
              post_login d' (credentials e' q) =
              if negb (bcrypt_compare q (bcrypt_hash p 10 salt))
              then AuthFailure 400 "Invalid credentials."
              else Json {| Session.success := true;
                           Session.email := normalized;
                           Session.message := "Login successful!" |}).
    { intros q Hq.
      rewrite (@login_reaches_select B d' (credentials e' q)
                 (scalar_truthy_string He') (scalar_truthy_string Hq)
                 e' eq_refl Hn').
      unfold select. rewrite Hcase. fold normalized.
      rewrite Hrows, filter_app, select_absent_email by exact Hfresh.
      simpl. now rewrite String.eqb_refl. }
    split.
    + rewrite Hsel by (now apply long_nonempty).
      now rewrite compare_hash.
    + intros wrong Hw Hc. now rewrite Hsel, Hc.
Qed.

Lemma plain_bcrypt_verifies : BcryptVerifies plain_bcrypt.
Proof. intros p n salt. simpl. apply String.eqb_refl. Qed.

Lemma login_contract_witness :
  @post_login plain_bcrypt db_registered (credentials "A@X.com" "secret1") =
    Json {| Session.success := true; Session.email := "a@x.com";
            Session.message := "Login successful!" |} /\
  @post_login plain_bcrypt db_registered (credentials "a@x.com" "wrong") =
    AuthFailure 400 "Invalid credentials.".
Proof.
  destruct (@login_contract plain_bcrypt db_empty
              (credentials "a@x.com" "secret1") eq_refl eq_refl
              (NoDup_nil _))
    as (Hstrings & _).
  destruct (Hstrings "a@x.com" "secret1" eq_refl eq_refl eq_refl)
    as (_ & _ & _ & _ & Hscenario).
  destruct (Hscenario plain_bcrypt_verifies "salt" "A@X.com") as [Hok _];
    [simpl; lia|reflexivity|reflexivity|].
  destruct (Hscenario plain_bcrypt_verifies "salt" "a@x.com") as [_ Hwrong];
    [simpl; lia|reflexivity|reflexivity|].
  split; [exact Hok|].
  apply Hwrong; [discriminate|reflexivity].
Defined.

(** C5 as stated fails.  Both fields are present in each request; the
    password is the number 5.  The registered email is answered 500
    "Login failed.", an email of no user 400 "Invalid credentials.": the
    two failures differ, and tell which email has an account. *)
Lemma login_enumeration_counterexample :
  let known := {| Credentials.name := None;
                  Credentials.email := SStr "a@x.com";
                  Credentials.password := SNum 5 |} in
  let unknown := {| Credentials.name := None;
                    Credentials.email := SStr "b@x.com";
                    Credentials.password := SNum 5 |} in
  user_exists db_registered "a@x.com" = true /\
  user_exists db_registered "b@x.com" = false /\
  scalar_truthy (Credentials.password known) = true /\
  (forall B : Bcrypt,
     post_login db_registered known = AuthFailure 500 "Login failed.") /\
  (forall B : Bcrypt,
     post_login db_registered unknown =
       AuthFailure 400 "Invalid credentials.").
Proof.
  cbv zeta. repeat match goal with |- _ /\ _ => split end;
    try reflexivity; intros B; reflexivity.
Qed.

(** [users.email] stays unique under registration. *)
Lemma register_preserves_unique {B : Bcrypt} d salt b :
  NoDup (map Users.email (rows (users d))) ->
  NoDup (map Users.email (rows (users (fst (post_register d salt b))))).
Proof.
  intros Hnd. unfold post_register.
  destruct (negb (scalar_truthy (Credentials.email b))
            || negb (scalar_truthy (Credentials.password b))); [assumption|].
  destruct (shorter (Credentials.password b) 6); [assumption|].
  destruct (as_string (Credentials.password b)) as [p|]; [|assumption].
  destruct (as_string (Credentials.email b)) as [e|]; [|assumption].
  unfold insert_user.
  destruct (has_nul _); [assumption|].
  destruct (user_exists d _) eqn:E; simpl; [assumption|].
  rewrite map_app. simpl.
  apply Permutation_NoDup
    with (l := trim (toLowerCase e) :: map Users.email (rows (users d))).
  - apply Permutation_cons_append.
  - constructor; [|assumption]. intros Hin.
    apply in_map_iff in Hin. destruct Hin as (u & Hu & Hin).
    unfold user_exists in E.
    assert (X : existsb
                  (fun u => (Users.email u =? trim (toLowerCase e))%string)
                  (rows (users d)) = true).
    { apply existsb_exists. exists u. split; [assumption|].
      now apply String.eqb_eq. }
    congruence.
Qed.

(* ================================================================== *)
(** * Career goals and stage history *)
(* ================================================================== *)

Lemma cascade_rows gone h :
  rows (cascade gone h) =
  filter (fun r => negb (existsb (fun g => int_is (StageHistory.goal_id r)
                                             (CareerGoals.id g)) gone))
    (rows h).
Proof. reflexivity. Qed.

Lemma cascade_only_gone id gone l :
  Forall (fun g => CareerGoals.id g = id) gone ->
  filter (references_goal id) l = [] ->
  filter (fun r => negb (existsb (fun g => int_is (StageHistory.goal_id r)
                                             (CareerGoals.id g)) gone)) l = l.
Proof.
  intros Hg Hl. apply filter_none_keeps.
  induction l as [|r l IH]; simpl in *; [reflexivity|].
  unfold references_goal in Hl at 1.
  destruct (int_is (StageHistory.goal_id r) id) eqn:E; [discriminate|].
  rewrite (IH Hl).
  replace (existsb _ gone) with false; [reflexivity|].
  symmetry. clear - Hg E. induction Hg as [|g gone Hid _ IHg]; simpl;
    [reflexivity|]. now rewrite Hid, E, IHg.
Qed.



(** C10, as the code has it.
    [DELETE /career_goals/:goalId/history/:historyId] removes a history row
    only when its id is [historyId] and its goal is [goalId].  With both
    ids in the range of [INTEGER] it removes exactly these rows and answers
    with their number; when the row of that id belongs to another goal,
    nothing is removed, the store is unchanged and the answer is
    [{ deleted: 0 }].  With an id outside the range the statement is
    refused: the store is unchanged and the answer is 500. *)
Theorem delete_history_scoped (d : db) (goalId historyId : Z) :
  let hit r := (StageHistory.id r =? historyId)
               && int_is (StageHistory.goal_id r) goalId in
  let d' := fst (delete_career_goals_history d goalId historyId) in
  (forall r, In r (rows (career_stage_history d')) ->
     In r (rows (career_stage_history d))) /\
  (forall r, In r (rows (career_stage_history d)) ->
     ~ (StageHistory.id r = historyId /\
        StageHistory.goal_id r = Some goalId) ->
     In r (rows (career_stage_history d'))) /\
  (int4 historyId = true -> int4 goalId = true ->
   rows (career_stage_history d') =
     filter (fun r => negb (hit r)) (rows (career_stage_history d)) /\
   snd (delete_career_goals_history d goalId historyId) =
     Json (Deleted (length (filter hit (rows (career_stage_history d))))) /\
   (forall r, In r (rows (career_stage_history d)) ->
      (In r (rows (career_stage_history d'))
       <-> ~ (StageHistory.id r = historyId /\
              StageHistory.goal_id r = Some goalId))) /\
   ((forall r, In r (rows (career_stage_history d)) ->
       StageHistory.id r = historyId ->
       StageHistory.goal_id r <> Some goalId) ->
    delete_career_goals_history d goalId historyId = (d, Json (Deleted 0)))) /\
  ((forall r, In r (rows (career_stage_history d)) ->
      StageHistory.id r = historyId ->
      StageHistory.goal_id r <> Some goalId) ->
   d' = d) /\
  (int4 historyId = false \/ int4 goalId = false ->
   delete_career_goals_history d goalId historyId =
   (d, Failure 500 "Error deleting history entry." None)).
Proof.
  intros hit d'.
  assert (Hhit : forall r, hit r = true <->
            StageHistory.id r = historyId /\
            StageHistory.goal_id r = Some goalId).
  { intros r. unfold hit, int_is. rewrite andb_true_iff, Z.eqb_eq.
    destruct (StageHistory.goal_id r) as [g|].
    - rewrite Z.eqb_eq. split; intros [H1 H2]; split; congruence.
    - split; intros [_ H]; discriminate. }
  assert (Hnone : (forall r, In r (rows (career_stage_history d)) ->
                     StageHistory.id r = historyId ->
                     StageHistory.goal_id r <> Some goalId) ->
                  select hit (career_stage_history d) = []).
  { intros Hother. unfold select.
    destruct (filter hit (rows (career_stage_history d))) as [|r l] eqn:E;
      [reflexivity|]. exfalso.
    assert (Hin : In r (filter hit (rows (career_stage_history d))))
      by (rewrite E; now left).
    apply filter_In in Hin. destruct Hin as [Hin Hr].
    apply Hhit in Hr. destruct Hr as [Hi Hg]. exact (Hother r Hin Hi Hg). }
  assert (Hrun : int4 historyId && int4 goalId = true ->
            delete_career_goals_history d goalId historyId =
            (set_career_stage_history
               {| rows := filter (fun r => negb (hit r))
                            (rows (career_stage_history d));
                  serial := serial (career_stage_history d) |} d,
             Json (Deleted (length (filter hit
                                      (rows (career_stage_history d))))))).
  { intros Hr. unfold delete_career_goals_history. now rewrite Hr. }
  assert (Hskip : int4 historyId && int4 goalId = false ->
            delete_career_goals_history d goalId historyId =
            (d, Failure 500 "Error deleting history entry." None)).
  { intros Hr. unfold delete_career_goals_history. now rewrite Hr. }
  assert (Hsame : (forall r, In r (rows (career_stage_history d)) ->
                     StageHistory.id r = historyId ->
                     StageHistory.goal_id r <> Some goalId) ->
                  int4 historyId && int4 goalId = true ->
                  delete_career_goals_history d goalId historyId =
                  (d, Json (Deleted 0))).
  { intros Hother Hr. rewrite (Hrun Hr).
    pose proof (delete_where_none _ _ (Hnone Hother)) as D.
    unfold delete_where in D. injection D as Ht Hn.
    rewrite Ht, Hn. now rewrite set_career_stage_history_same. }
  split; [|split; [|split; [|split]]].
  - intros r. subst d'.
    destruct (int4 historyId && int4 goalId) eqn:Hr.
    + rewrite (Hrun eq_refl). cbn. intros Hin.
      now apply filter_In in Hin.
    + now rewrite (Hskip eq_refl).
  - intros r Hin Hn. subst d'.
    destruct (int4 historyId && int4 goalId) eqn:Hr.
    + rewrite (Hrun eq_refl). cbn. apply filter_In. split; [assumption|].
      destruct (hit r) eqn:E; [now apply Hhit in E|reflexivity].
    + now rewrite (Hskip eq_refl).
  - intros H1 H2.
    assert (Hr : int4 historyId && int4 goalId = true)
      by (now rewrite H1, H2).
    subst d'. rewrite (Hrun Hr). cbn.
    split; [reflexivity|]. split; [reflexivity|]. split.
    + intros r Hin. split.
      * intros Hin'. apply filter_In in Hin'. destruct Hin' as [_ Hn].
        intros Hh. apply Hhit in Hh. rewrite Hh in Hn. discriminate.
      * intros Hn. apply filter_In. split; [assumption|].
        destruct (hit r) eqn:E; [now apply Hhit in E|reflexivity].
    + intros Hother. rewrite <- (Hrun Hr). now apply Hsame.
  - intros Hother. subst d'.
    destruct (int4 historyId && int4 goalId) eqn:Hr.
    + now rewrite (Hsame Hother eq_refl).
    + now rewrite (Hskip eq_refl).
  - intros Hout. apply Hskip.
    destruct Hout as [-> | ->]; [reflexivity|apply andb_false_r].
Qed.

Lemma delete_history_scoped_witness :
  delete_career_goals_history goal_with_history 7 1
  = (goal_with_history, Json (Deleted 0)) /\
  snd (delete_career_goals_history goal_with_history 1 1) = Json (Deleted 1).
Proof.
  destruct (@delete_history_scoped goal_with_history 7 1)
    as (_ & _ & Hin & _).
  destruct (Hin eq_refl eq_refl) as (_ & _ & _ & Hother).
  destruct (@delete_history_scoped goal_with_history 1 1)
    as (_ & _ & Hin1 & _).
  destruct (Hin1 eq_refl eq_refl) as (_ & Hcount & _).
  split; [|exact Hcount].
  apply Hother. intros r Hr Hid.
  simpl in Hr. destruct Hr as [<-|[<-|[]]]; simpl in *; congruence.
Defined.

(** C10 as stated fails for a goal id that no [INTEGER] holds: the history
    row 1 exists and belongs to goal 1, not to goal 99999999999, yet the
    answer is 500 and not [{ deleted: 0 }]. *)
Lemma delete_history_out_of_range_counterexample :
  (exists r, In r (rows (career_stage_history goal_with_history)) /\
             StageHistory.id r = 1 /\
             StageHistory.goal_id r = Some 1) /\
  snd (delete_career_goals_history goal_with_history 99999999999 1) =
    Failure 500 "Error deleting history entry." None /\
  snd (delete_career_goals_history goal_with_history 99999999999 1) <>
    Json (Deleted 0).
Proof.
  split; [|split; [reflexivity|discriminate]].
  eexists. split; [left; reflexivity|]. split; reflexivity.
Qed.

(* ================================================================== *)
(** * Updates and deletes addressed to a missing id *)
(* ================================================================== *)

Ltac missing_row H :=
  repeat match goal with
         | |- context [update_where ?p ?f ?t] =>
             rewrite (update_where_none p f t H)
         | |- context [delete_where ?p ?t] =>
             rewrite (delete_where_none p t H)
         end.

(** The sibling handlers answer a missing id with a zero count and leave
    the store as it was. *)
Lemma missing_id_zero_count (d : db) (id : Z) :
  (select (fun r => Projects.id r =? id) (projects d) = [] ->
   (forall b, put_projects d id b = (d, Json (Updated 0))) /\
   delete_projects d id = (d, Json (Deleted 0))) /\
  (select (fun r => Ideas.id r =? id) (ideas d) = [] ->
   (forall b, put_ideas d id b = (d, Json (Updated 0))) /\
   delete_ideas d id = (d, Json (Deleted 0))) /\
  (select (fun r => Notes.id r =? id) (notes d) = [] ->
   (forall b, put_notes d id b = (d, Json (Updated 0))) /\
   delete_notes d id = (d, Json (Deleted 0))) /\
  (select (fun r => CareerGoals.id r =? id) (career_goals d) = [] ->
   (forall b, put_career_goals d id b = (d, Json (Updated 0))) /\
   snd (delete_career_goals d id) = Json (Deleted 0)) /\
  (select (fun r => FutureWork.id r =? id) (future_work d) = [] ->
   (forall b, put_future_work d id b = (d, Json (Updated 0))) /\
   delete_future_work d id = (d, Json (Deleted 0))) /\
  (select (fun r => Deadlines.id r =? id) (deadlines d) = [] ->
   (forall b, put_deadlines d id b = (d, Json (Updated 0))) /\
   delete_deadlines d id = (d, Json (Deleted 0))) /\
  (select (fun r => CalendarEvents.id r =? id) (calendar_events d) = [] ->
   (forall now b, put_events d now id b = (d, Json (Updated 0))) /\
   delete_events d id = (d, Json (Deleted 0)) /\
   (forall b, put_calendar_events d id b = (d, Json (Updated 0))) /\
   delete_calendar_events d id = (d, Json (Deleted 0))).
Proof.
  repeat split; intros;
    try (unfold put_projects, put_ideas, delete_ideas, put_notes,
           delete_notes, put_career_goals, put_future_work,
           delete_future_work, put_deadlines, delete_deadlines, put_events,
           delete_events, put_calendar_events, delete_calendar_events;
         missing_row H; now destruct d).
  - unfold delete_projects. rewrite H.
    replace (existsb _ (rows (colleagues d))) with false
      by (symmetry; induction (rows (colleagues d)); simpl; auto).
    missing_row H. now destruct d.
  - unfold delete_career_goals. simpl. unfold select in H. now rewrite H.
Qed.

(** C9, on the project description: [PUT /projects/:id/description] for an
    id with no row does not answer [{ updated: 0 }]; reading
    [result.rows[0].project_title] throws and the handler answers 500. *)
Theorem put_projects_description_missing_id (d : db) (id : Z)
  (b : Description.t) :
  select (fun r => Projects.id r =? id) (projects d) = [] ->
  put_projects_description d id b =
  (d, Failure 500 "Error updating description."
        (Some "Cannot read properties of undefined (reading 'project_title')")).
Proof.
  intros H. unfold put_projects_description. missing_row H.
  rewrite H. now rewrite set_projects_same.
Qed.

Lemma put_projects_description_missing_id_witness :
  status (snd (put_projects_description db_empty 999
                 (Description.to_json Projects.no_description))) = 500%nat /\
  status (snd (put_ideas db_empty 999
                 {| PutIdeas.title := None; PutIdeas.content := None;
                    PutIdeas.category := None |})) = 200%nat.
Proof.
  split; [|reflexivity].
  now rewrite (@put_projects_description_missing_id db_empty 999 _ eq_refl).
Defined.

(* ================================================================== *)
(** * Profile upsert *)
(* ================================================================== *)

Lemma filter_nil_existsb {A} (p : A -> bool) l :
  filter p l = [] -> existsb p l = false.
Proof.
  induction l as [|x l IH]; simpl; [reflexivity|].
  destruct (p x); [discriminate|]. exact IH.
Qed.

Lemma length_pos_ltb {A} (l : list A) :
  (0 <? length l)%nat = match l with [] => false | _ :: _ => true end.
Proof. now destruct l. Qed.

(** The three ways a profile write with a user email ends. *)
Lemma post_profile_cases {J : JSON} (d : db) (now later : string)
  (b : PostProfile.body) (e : string) :
  PostProfile.userEmail b = Some e -> e <> "" ->
  (select (owned_by e) (profiles d) <> [] ->
   exists upd,
     (forall r, Profiles.id (upd r) = Profiles.id r /\
                Profiles.user_email (upd r) = Profiles.user_email r /\
                Profiles.created_date (upd r) = Profiles.created_date r /\
                written now b (upd r)) /\
     post_profile d now later b =
     (set_profiles
        {| rows := map (fun r => if owned_by e r then upd r else r)
                     (rows (profiles d));
           serial := serial (profiles d) |} d,
      Json {| PostProfile.message := "Profile updated successfully";
              PostProfile.id := None |})) /\
  (select (owned_by e) (profiles d) = [] -> user_exists d e = true ->
   exists row,
     Profiles.id row = serial (profiles d) /\
     Profiles.user_email row = Some e /\
     Profiles.created_date row = Some later /\
     written now b row /\
     post_profile d now later b =
     (set_profiles {| rows := rows (profiles d) ++ [row];
                      serial := serial (profiles d) + 1 |} d,
      Json {| PostProfile.message := "Profile created successfully";
              PostProfile.id := Some (serial (profiles d)) |})) /\
  (select (owned_by e) (profiles d) = [] -> user_exists d e = false ->
   post_profile d now later b =
   (set_profiles (refused (profiles d)) d,
    Failure 500 "Error saving profile." None)).
Proof.
  intros Hb He.
  assert (Ht : str_truthy (PostProfile.userEmail b) = true).
  { rewrite Hb. simpl. destruct e; [congruence|reflexivity]. }
  unfold post_profile. rewrite Ht. simpl negb. cbv iota.
  rewrite Hb. simpl text. fold (owned_by e). rewrite length_pos_ltb.
  split; [|split].
  - intros Hsel.
    destruct (select (owned_by e) (profiles d)) as [|r0 l0]; [congruence|].
    eexists. split; [|reflexivity].
    intros r. simpl. unfold written. simpl. repeat split.
  - intros Hsel Hu. rewrite Hsel.
    unfold insert_profile, insert_owned, references_user. simpl.
    unfold select in Hsel. fold (owned_by e).
    rewrite (filter_nil_existsb _ _ Hsel), Hu. simpl.
    eexists. refine (conj _ (conj _ (conj _ (conj _ eq_refl))));
      try reflexivity.
    unfold written. simpl. repeat split.
  - intros Hsel Hu. rewrite Hsel.
    unfold insert_profile, insert_owned, references_user. simpl.
    unfold select in Hsel. fold (owned_by e).
    now rewrite (filter_nil_existsb _ _ Hsel), Hu.
Qed.

Lemma filter_map_same {R} (p : R -> bool) (g : R -> R) l :
  (forall r, p (g r) = p r) -> filter p (map g l) = map g (filter p l).
Proof.
  intros H. induction l as [|x l IH]; simpl; [reflexivity|].
  rewrite H. destruct (p x); simpl; now rewrite IH.
Qed.

Lemma owned_by_same_email e r r' :
  Profiles.user_email r' = Profiles.user_email r ->
  owned_by e r' = owned_by e r.
Proof. unfold owned_by. now intros ->. Qed.

Lemma owned_by_after_update e e' (upd : Profiles.row -> Profiles.row) :
  (forall r, Profiles.user_email (upd r) = Profiles.user_email r) ->
  forall r, owned_by e' (if owned_by e r then upd r else r) = owned_by e' r.
Proof.
  intros H r. destruct (owned_by e r); [|reflexivity].
  apply owned_by_same_email, H.
Qed.

Lemma owned_by_email e e' r :
  Profiles.user_email r = Some e -> owned_by e' r = (e =? e')%string.
Proof. unfold owned_by. now intros ->. Qed.

Section ProfileWrite.
Context {J : JSON}.
Variables (d : db) (now later : string) (b : PostProfile.body) (e : string).
Hypothesis Hbody : PostProfile.userEmail b = Some e.
Hypothesis Hemail : e <> "".

Let d' := fst (post_profile d now later b).

Lemma profile_update_branch :
select (owned_by e) (profiles d) <> [] ->
snd (post_profile d now later b) = Json updated_reply /\
map Profiles.id (rows (profiles d')) = map Profiles.id (rows (profiles d)) /\
(forall e', length (select (owned_by e') (profiles d')) =
            length (select (owned_by e') (profiles d))) /\
(forall r, In r (select (owned_by e) (profiles d')) -> written now b r).
Proof.
intros Hsel.
destruct (post_profile_cases d now later b Hbody Hemail)
  as [Hupd _].
destruct (Hupd Hsel) as (upd & Hprop & Heq). subst d'. rewrite Heq.
simpl. split; [reflexivity|split; [|split]].
- rewrite map_map. apply map_ext. intros r.
  destruct (owned_by e r); [apply Hprop|reflexivity].
- intros e'. unfold select. simpl.
  rewrite filter_map_same, length_map; [reflexivity|].
  apply owned_by_after_update. intros r. apply Hprop.
- intros r Hin. unfold select in Hin. simpl in Hin.
  rewrite filter_map_same in Hin.
  + apply in_map_iff in Hin. destruct Hin as (r0 & <- & Hr0).
    apply filter_In in Hr0. destruct Hr0 as [_ Hr0]. rewrite Hr0.
    apply Hprop.
  + apply owned_by_after_update. intros r1. apply Hprop.
Qed.

Lemma profile_insert_branch :
select (owned_by e) (profiles d) = [] -> user_exists d e = true ->
exists row,
  rows (profiles d') = rows (profiles d) ++ [row] /\
  Profiles.user_email row = Some e /\
  Profiles.created_date row = Some later /\
  written now b row /\
  select (owned_by e) (profiles d') = [row] /\
  snd (post_profile d now later b) =
    Json {| PostProfile.message := "Profile created successfully";
            PostProfile.id := Some (Profiles.id row) |}.
Proof.
intros Hsel Hu.
destruct (post_profile_cases d now later b Hbody Hemail)
  as (_ & Hins & _).
destruct (Hins Hsel Hu) as (row & Hid & Hown & Hcr & Hw & Heq).
exists row. subst d'. rewrite Heq. simpl.
split; [reflexivity|]. do 3 (split; [assumption|]). split.
- rewrite select_append. unfold select in Hsel. rewrite Hsel.
  now rewrite (@owned_by_email e e row Hown), String.eqb_refl.
- now rewrite Hid.
Qed.

Lemma profile_refused_branch :
select (owned_by e) (profiles d) = [] -> user_exists d e = false ->
rows (profiles d') = rows (profiles d) /\
snd (post_profile d now later b) = Failure 500 "Error saving profile." None.
Proof.
intros Hsel Hu.
destruct (post_profile_cases d now later b Hbody Hemail)
  as (_ & _ & Hno).
subst d'. now rewrite (Hno Hsel Hu).
Qed.

Lemma profile_write_keeps_singleton :
singleton_profiles d -> singleton_profiles d'.
Proof.
intros Hs e'.
destruct (select (owned_by e) (profiles d)) as [|r0 l0] eqn:Hsel.
- destruct (user_exists d e) eqn:Hu.
  + destruct (profile_insert_branch Hsel Hu) as (row & Hrows & Hown & _).
    unfold select. rewrite Hrows, filter_app, length_app. simpl.
    rewrite (@owned_by_email e e' row Hown).
    destruct (e =? e')%string eqn:E.
    * apply String.eqb_eq in E. subst e'. unfold select in Hsel.
      now rewrite Hsel.
    * simpl. specialize (Hs e'). unfold select in Hs. lia.
  + destruct (profile_refused_branch Hsel Hu) as [Hrows _].
    unfold select. rewrite Hrows. apply Hs.
- assert (Hne : select (owned_by e) (profiles d) <> [])
    by (rewrite Hsel; discriminate).
  destruct (profile_update_branch Hne) as (_ & _ & Hlen & _).
  rewrite Hlen. apply Hs.
Qed.

Lemma profile_written_is_stored reply :
snd (post_profile d now later b) = Json reply ->
exists r rest,
  select (owned_by e) (profiles d') = r :: rest /\ written now b r.
Proof.
intros Hr.
destruct (select (owned_by e) (profiles d)) as [|r0 l0] eqn:Hsel.
- destruct (user_exists d e) eqn:Hu.
  + destruct (profile_insert_branch Hsel Hu)
      as (row & _ & _ & _ & Hw & Hs & _).
    exists row, []. split; assumption.
  + destruct (profile_refused_branch Hsel Hu) as [_ Hf].
    rewrite Hf in Hr. discriminate.
- assert (Hne : select (owned_by e) (profiles d) <> [])
    by (rewrite Hsel; discriminate).
  destruct (profile_update_branch Hne) as (_ & _ & Hlen & Hw).
  specialize (Hlen e). rewrite Hsel in Hlen.
  destruct (select (owned_by e) (profiles d')) as [|r rest] eqn:Hs';
    [discriminate|].
  exists r, rest. split; [reflexivity|]. apply Hw. now left.
Qed.
End ProfileWrite.


Lemma singleton_registered : singleton_profiles db_registered.
Proof. intros e. simpl. lia. Qed.



(* ================================================================== *)
(** * JSON-encoded profile lists *)
(* ================================================================== *)

(** The stand-in satisfies the laws of the library. *)
Lemma checked_wf (x : Fragment.t) :
  Fragment.checked (Fragment.tree x) = Some x.
Proof.
  unfold Fragment.checked.
  destruct (Bool.bool_dec (Json.wf_json (Fragment.tree x)) true) as [H|H].
  - destruct x as [v Hv]. simpl in *. do 2 f_equal.
    apply Eqdep_dec.UIP_dec, Bool.bool_dec.
  - exfalso. apply H, Fragment.tree_wf.
Qed.

Lemma json_fragment_laws : JSONLaws json_fragment.
Proof.
  split.
  - reflexivity.
  - intros v. apply JsonFacts.stringify_is_nonempty.
  - intros v. simpl. unfold Fragment.parse.
    rewrite (JsonFacts.parse_inverts_stringify _ (Fragment.tree_wf v)).
    apply checked_wf.
Qed.

Lemma decode_absent {J : JSON} col :
  col = None \/ col = Some "" -> decode_list col = Some (array []).
Proof. now intros [->| ->]. Qed.

Lemma decode_refused {J : JSON} col :
  decode_list col = None ->
  str_truthy col = true /\ JSON_parse (text col) = None.
Proof.
  unfold decode_list. destruct (str_truthy col); [auto|discriminate].
Qed.

Lemma decode_stringify {J : JSON} {L : JSONLaws J} v :
  decode_list (Some (JSON_stringify v)) = Some v.
Proof.
  unfold decode_list. simpl.
  destruct (JSON_stringify v) eqn:E.
  - exfalso. exact (stringify_nonempty v E).
  - simpl. rewrite <- E. apply parse_stringify.
Qed.

Lemma get_profile_decodes {J : JSON} d e r rest dg em co gr aw :
  select (owned_by e) (profiles d) = r :: rest ->
  map decode_list (list_columns r) =
    [Some dg; Some em; Some co; Some gr; Some aw] ->
  exists view,
    get_profile d e = Json (Some view) /\
    view_lists view = [dg; em; co; gr; aw].
Proof.
  intros Hsel Hdec. unfold get_profile. fold (owned_by e). rewrite Hsel.
  unfold list_columns in Hdec. simpl in Hdec.
  injection Hdec as -> -> -> -> ->.
  eexists. split; reflexivity.
Qed.

(** What [GET /profile/:email] answers on the first row of the email:
    the decoded columns, or 500 when one of them does not decode. *)
Lemma get_profile_answers {J : JSON} d e r rest :
  select (owned_by e) (profiles d) = r :: rest ->
  (exists view,
     get_profile d e = Json (Some view) /\
     map decode_list (list_columns r) = map Some (view_lists view)) \/
  (get_profile d e = Failure 500 "Error fetching profile." None /\
   exists col, In col (list_columns r) /\ decode_list col = None).
Proof.
  intros Hsel. unfold get_profile. fold (owned_by e). rewrite Hsel.
  unfold list_columns.
  destruct (decode_list (Profiles.degrees r)) eqn:E1;
    [|right; split; [reflexivity|]; eexists; split; [|exact E1];
      simpl; tauto].
  destruct (decode_list (Profiles.employment r)) eqn:E2;
    [|right; split; [reflexivity|]; eexists; split; [|exact E2];
      simpl; tauto].
  destruct (decode_list (Profiles.courses r)) eqn:E3;
    [|right; split; [reflexivity|]; eexists; split; [|exact E3];
      simpl; tauto].
  destruct (decode_list (Profiles.grants r)) eqn:E4;
    [|right; split; [reflexivity|]; eexists; split; [|exact E4];
      simpl; tauto].
  destruct (decode_list (Profiles.awards r)) eqn:E5;
    [|right; split; [reflexivity|]; eexists; split; [|exact E5];
      simpl; tauto].
  left. eexists. split; [reflexivity|]. simpl.
  now rewrite E1, E2, E3, E4, E5.
Qed.



(* ================================================================== *)
(** * Creating rows *)
(* ================================================================== *)

Lemma insert_owned_done {R} (d : db) owner (mk : Z -> R) t t' r :
  insert_owned d owner mk t = (t', Done r) ->
  references_user d owner = true /\ r = mk (serial t) /\
  rows t' = rows t ++ [r].
Proof.
  unfold insert_owned. destruct (references_user d owner); [|discriminate].
  simpl. intros H. injection H as <- <-. auto.
Qed.

Lemma insert_owned_accepts {R} (d : db) owner (mk : Z -> R) t :
  references_user d owner = true ->
  exists t', insert_owned d owner mk t = (t', Done (mk (serial t))).
Proof. unfold insert_owned. intros ->. simpl. eauto. Qed.

Lemma text_is_same e : text_is (Some e) e = true.
Proof. apply String.eqb_refl. Qed.

Lemma Boolean_flag v : Boolean (Some (flag v)) = truthy v.
Proof. unfold Boolean, flag. now destruct (truthy v). Qed.

Lemma post_events_stores d now b r :
  snd (post_events d now b) = Json r ->
  rows (calendar_events (fst (post_events d now b))) =
    rows (calendar_events d) ++ [r] /\
  CalendarEvents.user_email r = PostEvents.userEmail b /\
  CalendarEvents.is_all_day r = Some (flag (PostEvents.isAllDay b)) /\
  CalendarEvents.is_online r = Some (flag (PostEvents.isOnline b)) /\
  CalendarEvents.repeat_weekly r = Some (flag (PostEvents.repeatWeekly b)) /\
  CalendarEvents.created_date r = Some now /\
  CalendarEvents.modified_date r = Some now.
Proof.
  unfold post_events.
  destruct (insert_owned _ _ _ _) as [t [r0|code]] eqn:E; simpl;
    [|discriminate].
  intros H. injection H as <-.
  apply insert_owned_done in E. destruct E as (_ & Hr & Hrows).
  split; [assumption|]. rewrite Hr. simpl. repeat split.
Qed.

(* ================================================================== *)
(** * Calendar booleans *)
(* ================================================================== *)

(** C6, as the code has it.  [POST /events] and [PUT /events/:id] store
    each of the three flags as the integer 1 when the value sent is truthy
    and as 0 otherwise, and [GET /events/:email] gives them back as
    booleans: an event written with a truthy [isAllDay] reads back with
    [isAllDay: true], and a stored 0 or [NULL] reads back as [false].  The
    legacy [GET /calendar_events/:email] sends the stored rows as they are:
    the integer column [is_all_day], and no [isAllDay] property. *)
Theorem calendar_flags_round_trip (d : db) (now : string)
  (b : PostEvents.body) (e : string) (r : CalendarEvents.row) :
  (snd (post_events d now b) = Json r ->
   In r (rows (calendar_events (fst (post_events d now b)))) /\
   CalendarEvents.is_all_day r =
     Some (if truthy (PostEvents.isAllDay b) then 1 else 0) /\
   CalendarEvents.is_online r =
     Some (if truthy (PostEvents.isOnline b) then 1 else 0) /\
   CalendarEvents.repeat_weekly r =
     Some (if truthy (PostEvents.repeatWeekly b) then 1 else 0)) /\
  (PostEvents.userEmail b = Some e ->
   snd (post_events d now b) = Json r ->
   exists views v,
     get_events (fst (post_events d now b)) e = Json views /\
     In v views /\ EventView.id v = CalendarEvents.id r /\
     EventView.isAllDay v = truthy (PostEvents.isAllDay b) /\
     EventView.isOnline v = truthy (PostEvents.isOnline b) /\
     EventView.repeatWeekly v = truthy (PostEvents.repeatWeekly b) /\
     property "isAllDay" (event_view_flags v) =
       Some (JBool (truthy (PostEvents.isAllDay b)))) /\
  (forall id (u : PutEvents.body) n,
     snd (put_events d now id u) = Json (Updated n) ->
     (forall s,
        In s (rows (calendar_events (fst (put_events d now id u)))) ->
        CalendarEvents.id s = id ->
        CalendarEvents.is_all_day s =
          Some (if truthy (PutEvents.isAllDay u) then 1 else 0) /\
        CalendarEvents.is_online s =
          Some (if truthy (PutEvents.isOnline u) then 1 else 0) /\
        CalendarEvents.repeat_weekly s =
          Some (if truthy (PutEvents.repeatWeekly u) then 1 else 0)) /\
     (forall views v,
        get_events (fst (put_events d now id u)) e = Json views ->
        In v views -> EventView.id v = id ->
        EventView.isAllDay v = truthy (PutEvents.isAllDay u) /\
        EventView.isOnline v = truthy (PutEvents.isOnline u) /\
        EventView.repeatWeekly v = truthy (PutEvents.repeatWeekly u))) /\
  (forall views,
     get_events d e = Json views ->
     forall v, In v views ->
       EventView.isAllDay v = Boolean (EventView.isallday v) /\
       EventView.isOnline v = Boolean (EventView.isonline v) /\
       EventView.repeatWeekly v = Boolean (EventView.repeatweekly v) /\
       exists s, In s (rows (calendar_events d)) /\
                 EventView.id v = CalendarEvents.id s /\
                 EventView.isallday v = CalendarEvents.is_all_day s /\
                 EventView.isonline v = CalendarEvents.is_online s /\
                 EventView.repeatweekly v = CalendarEvents.repeat_weekly s) /\
  (Boolean (Some 1) = true /\ Boolean (Some 0) = false /\
   Boolean None = false) /\
  (forall stored,
     get_calendar_events d e = Json stored ->
     forall s, In s stored ->
       In s (rows (calendar_events d)) /\
       property "isAllDay" (calendar_event_flags s) = None /\
       property "is_all_day" (calendar_event_flags s) =
         Some (int_json (CalendarEvents.is_all_day s))).
Proof.
  split; [|split; [|split; [|split; [|split]]]].
  - intros Hr.
    destruct (post_events_stores d now b Hr)
      as (Hrows & _ & Hday & Hon & Hrep & _).
    split; [rewrite Hrows; apply in_or_app; right; now left|].
    now rewrite Hday, Hon, Hrep.
  - intros Hb Hr.
    destruct (post_events_stores d now b Hr)
      as (Hrows & Hown & Hday & Hon & Hrep & _).
    eexists. exists (event_view r). split; [reflexivity|].
    split.
    + apply in_map, order_by_in. unfold select. apply filter_In. split.
      * rewrite Hrows. apply in_or_app. right. now left.
      * rewrite Hown, Hb. apply text_is_same.
    + unfold event_view_flags. simpl.
      rewrite Hday, Hon, Hrep, !Boolean_flag. repeat split.
  - intros id u n _. split.
    + intros s Hs Hid.
      unfold put_events, update_where in Hs. simpl in Hs.
      apply in_map_iff in Hs. destruct Hs as (s0 & <- & _).
      destruct (CalendarEvents.id s0 =? id) eqn:E.
      * repeat split.
      * apply Z.eqb_neq in E. congruence.
    + intros views v Hget Hin Hid.
      unfold get_events in Hget. injection Hget as <-.
      apply in_map_iff in Hin. destruct Hin as (s & <- & Hs).
      apply order_by_in in Hs. unfold select in Hs.
      apply filter_In in Hs. destruct Hs as [Hs _].
      unfold put_events, update_where in Hs. simpl in Hs.
      apply in_map_iff in Hs. destruct Hs as (s0 & <- & _).
      simpl in Hid.
      destruct (CalendarEvents.id s0 =? id) eqn:E.
      * unfold event_view. cbn -[Boolean flag]. now rewrite !Boolean_flag.
      * apply Z.eqb_neq in E. congruence.
  - intros views Hget v Hin.
    unfold get_events in Hget. injection Hget as <-.
    apply in_map_iff in Hin. destruct Hin as (s & <- & Hs).
    apply order_by_in in Hs. unfold select in Hs.
    apply filter_In in Hs. destruct Hs as [Hs _].
    do 3 (split; [reflexivity|]). exists s. repeat split. assumption.
  - repeat split.
  - intros stored Hget s Hin.
    unfold get_calendar_events in Hget. injection Hget as <-.
    apply order_by_in in Hin. unfold select in Hin.
    apply filter_In in Hin. destruct Hin as [Hin _]. repeat split.
    assumption.
Qed.

Lemma calendar_flags_round_trip_witness :
  exists views v,
    get_events db_all_day "a@x.com" = Json views /\ In v views /\
    EventView.isAllDay v = true /\ EventView.isallday v = Some 1.
Proof.
  assert (Hr : exists r,
             snd (post_events db_registered "2024-04-30T08:00:00.000Z"
                    (event_body "a@x.com" "2024-05-01" "10:00" (JBool true)
                       None)) = Json r)
    by (eexists; reflexivity).
  destruct Hr as [r Hr].
  destruct (@calendar_flags_round_trip db_registered
              "2024-04-30T08:00:00.000Z"
              (event_body "a@x.com" "2024-05-01" "10:00" (JBool true) None)
              "a@x.com" r)
    as (Hstore & Hwrite & _).
  destruct (Hstore Hr) as (_ & Hday1 & _).
  destruct (Hwrite eq_refl Hr) as (views & v & Hget & Hin & _ & Hday & _).
  exists views, v. split; [exact Hget|]. split; [exact Hin|].
  split; [exact Hday|].
  unfold get_events in Hget. injection Hget as <-.
  destruct Hin as [<-|[]]. reflexivity.
Defined.

(** C6 as stated fails on the legacy read: an event written with
    [isAllDay: true] comes back from [GET /calendar_events/:email] with the
    integer 1 in [is_all_day], not with a boolean. *)
Lemma legacy_read_unconverted_counterexample :
  ~ (forall d e stored s,
       get_calendar_events d e = Json stored -> In s stored ->
       property "isAllDay" (calendar_event_flags s) =
         Some (JBool (Boolean (CalendarEvents.is_all_day s))) \/
       property "is_all_day" (calendar_event_flags s) =
         Some (JBool (Boolean (CalendarEvents.is_all_day s)))).
Proof.
  intros H.
  assert (Hs : exists s, get_calendar_events db_all_day "a@x.com" = Json [s] /\
                         CalendarEvents.is_all_day s = Some 1)
    by (eexists; split; reflexivity).
  destruct Hs as (s & Hget & Hday).
  destruct (H db_all_day "a@x.com" [s] s Hget (or_introl eq_refl)) as [C|C];
    simpl in C; [discriminate|].
  rewrite Hday in C. discriminate.
Qed.

(* ================================================================== *)
(** * Listing by owner *)
(* ================================================================== *)

Lemma order_by_lists {R K} `{Order K} (key : R -> K) (owned : list R) :
  lists_in_order key owned (Json (order_by key owned)).
Proof.
  exists (order_by key owned). split; [reflexivity|].
  split; [apply order_by_perm|]. split; [apply order_by_ordered|].
  now intros ->.
Qed.




(* ================================================================== *)
(** * Creation timestamps *)
(* ================================================================== *)

Lemma post_ideas_stores d now b r :
  snd (post_ideas d now b) = Json r ->
  rows (ideas (fst (post_ideas d now b))) = rows (ideas d) ++ [r] /\
  Ideas.created_date r = Some (str_or (PostIdeas.created_date b) now).
Proof.
  unfold post_ideas.
  destruct (insert_owned _ _ _ _) as [t [r0|code]] eqn:E; simpl;
    [|discriminate].
  intros H. injection H as <-.
  apply insert_owned_done in E. destruct E as (_ & Hr & Hrows).
  split; [assumption|]. now rewrite Hr.
Qed.

Lemma post_notes_stores d now b r :
  snd (post_notes d now b) = Json r ->
  rows (notes (fst (post_notes d now b))) = rows (notes d) ++ [r] /\
  Notes.created_date r = Some (str_or (PostNotes.created_date b) now).
Proof.
  unfold post_notes.
  destruct (insert_owned _ _ _ _) as [t [r0|code]] eqn:E; simpl;
    [|discriminate].
  intros H. injection H as <-.
  apply insert_owned_done in E. destruct E as (_ & Hr & Hrows).
  split; [assumption|]. now rewrite Hr.
Qed.

Lemma post_career_goals_stores d now b r :
  snd (post_career_goals d now b) = Json r ->
  rows (career_goals (fst (post_career_goals d now b))) =
    rows (career_goals d) ++ [r] /\
  CareerGoals.created_date r =
    Some (str_or (PostCareerGoals.created_date b) now).
Proof.
  unfold post_career_goals.
  destruct (insert_owned _ _ _ _) as [t [r0|code]] eqn:E; simpl;
    [|discriminate].
  intros H. injection H as <-.
  apply insert_owned_done in E. destruct E as (_ & Hr & Hrows).
  split; [assumption|]. now rewrite Hr.
Qed.

Lemma post_future_work_stores d now b r :
  snd (post_future_work d now b) = Json r ->
  rows (future_work (fst (post_future_work d now b))) =
    rows (future_work d) ++ [r] /\
  FutureWork.created_date r =
    Some (str_or (PostFutureWork.created_date b) now).
Proof.
  unfold post_future_work.
  destruct (insert_owned _ _ _ _) as [t [r0|code]] eqn:E; simpl;
    [|discriminate].
  intros H. injection H as <-.
  apply insert_owned_done in E. destruct E as (_ & Hr & Hrows).
  split; [assumption|]. now rewrite Hr.
Qed.

Lemma post_deadlines_stores d now b r :
  snd (post_deadlines d now b) = Json r ->
  rows (deadlines (fst (post_deadlines d now b))) = rows (deadlines d) ++ [r] /\
  Deadlines.created_date r = Some (str_or (PostDeadlines.created_date b) now).
Proof.
  unfold post_deadlines.
  destruct (insert_owned _ _ _ _) as [t [r0|code]] eqn:E; simpl;
    [|discriminate].
  intros H. injection H as <-.
  apply insert_owned_done in E. destruct E as (_ & Hr & Hrows).
  split; [assumption|]. now rewrite Hr.
Qed.

Lemma post_calendar_events_stores d now b r :
  snd (post_calendar_events d now b) = Json r ->
  rows (calendar_events (fst (post_calendar_events d now b))) =
    rows (calendar_events d) ++ [r] /\
  CalendarEvents.created_date r =
    Some (str_or (PostCalendarEvents.created_date b) now).
Proof.
  unfold post_calendar_events.
  destruct (insert_owned _ _ _ _) as [t [r0|code]] eqn:E; simpl;
    [|discriminate].
  intros H. injection H as <-.
  apply insert_owned_done in E. destruct E as (_ & Hr & Hrows).
  split; [assumption|]. now rewrite Hr.
Qed.

(** Each create succeeds when the owner is a registered user. *)
Lemma creates_accept_registered_owner (d : db) (now : string) :
  (forall b, references_user d (PostIdeas.user_email b) = true ->
             exists r, snd (post_ideas d now b) = Json r) /\
  (forall b, references_user d (PostNotes.user_email b) = true ->
             exists r, snd (post_notes d now b) = Json r) /\
  (forall b, references_user d (PostCareerGoals.user_email b) = true ->
             exists r, snd (post_career_goals d now b) = Json r) /\
  (forall b, references_user d (PostFutureWork.user_email b) = true ->
             exists r, snd (post_future_work d now b) = Json r) /\
  (forall b, references_user d (PostDeadlines.user_email b) = true ->
             exists r, snd (post_deadlines d now b) = Json r) /\
  (forall b, references_user d (PostCalendarEvents.user_email b) = true ->
             exists r, snd (post_calendar_events d now b) = Json r) /\
  (forall b, references_user d (PostEvents.userEmail b) = true ->
             exists r, snd (post_events d now b) = Json r).
Proof.
  repeat split; intros b Hu;
    unfold post_ideas, post_notes, post_career_goals, post_future_work,
      post_deadlines, post_calendar_events, post_events, insert_owned;
    rewrite Hu; simpl; eauto.
Qed.




(* ================================================================== *)
(** * Normalized emails *)
(* ================================================================== *)

Lemma lower_unit_idempotent c : lower_unit (lower_unit c) = lower_unit c.
Proof. destruct c as [[] [] [] [] [] [] [] []]; reflexivity. Qed.

Lemma is_space_lower_unit c : is_space (lower_unit c) = is_space c.
Proof. destruct c as [[] [] [] [] [] [] [] []]; reflexivity. Qed.

Lemma toLowerCase_idempotent s : toLowerCase (toLowerCase s) = toLowerCase s.
Proof.
  induction s as [|c s IH]; simpl; [reflexivity|].
  now rewrite lower_unit_idempotent, IH.
Qed.

Lemma toLowerCase_trimStart s :
  toLowerCase (trimStart s) = trimStart (toLowerCase s).
Proof.
  induction s as [|c s IH]; simpl; [reflexivity|].
  rewrite is_space_lower_unit. now destruct (is_space c).
Qed.

Lemma toLowerCase_trimEnd s :
  toLowerCase (trimEnd s) = trimEnd (toLowerCase s).
Proof.
  induction s as [|c s IH]; simpl; [reflexivity|].
  rewrite <- IH, is_space_lower_unit.
  destruct (trimEnd s) as [|c' r]; simpl; [|reflexivity].
  now destruct (is_space c).
Qed.

Lemma toLowerCase_trim s : toLowerCase (trim s) = trim (toLowerCase s).
Proof. unfold trim. now rewrite toLowerCase_trimStart, toLowerCase_trimEnd. Qed.

Lemma trimEnd_fixed_tail c r :
  trimEnd (String c r) = String c r -> trimEnd r = r.
Proof.
  simpl. destruct (trimEnd r) as [|c' r'] eqn:E.
  - destruct (is_space c); [discriminate|]. intros H. now injection H as <-.
  - intros H. now injection H as <-.
Qed.

Lemma trimEnd_idempotent s : trimEnd (trimEnd s) = trimEnd s.
Proof.
  induction s as [|c s IH]; simpl; [reflexivity|].
  destruct (trimEnd s) as [|c' r] eqn:E.
  - destruct (is_space c) eqn:Ec; simpl; [reflexivity|]. now rewrite Ec.
  - simpl in *. now rewrite IH.
Qed.

Lemma trimStart_keeps_end s : trimEnd s = s -> trimEnd (trimStart s) = trimStart s.
Proof.
  induction s as [|c s IH]; intros H; [reflexivity|].
  simpl trimStart. destruct (is_space c); [|exact H].
  apply IH. eapply trimEnd_fixed_tail. exact H.
Qed.

Lemma trimStart_idempotent s : trimStart (trimStart s) = trimStart s.
Proof.
  induction s as [|c s IH]; simpl; [reflexivity|].
  destruct (is_space c) eqn:E; [assumption|]. simpl. now rewrite E.
Qed.

Lemma trim_idempotent s : trim (trim s) = trim s.
Proof.
  unfold trim.
  rewrite (@trimStart_keeps_end (trimEnd s) (trimEnd_idempotent s)).
  apply trimStart_idempotent.
Qed.

Lemma normalize_idempotent s :
  trim (toLowerCase (trim (toLowerCase s))) = trim (toLowerCase s).
Proof.
  now rewrite toLowerCase_trim, toLowerCase_idempotent, trim_idempotent.
Qed.

(** X1. [POST /signup] is [POST /register] under another path: on every
    store, salt and body the two handlers leave the same store and send the
    same response. *)
Theorem signup_is_register {B : Bcrypt} (d : db) (salt : string)
  (b : Credentials.body) :
  post_signup d salt b = post_register d salt b.
Proof. reflexivity. Qed.

Lemma register_users_grow {B : Bcrypt} d salt b :
  rows (users (fst (post_register d salt b))) = rows (users d) \/
  exists e p,
    rows (users (fst (post_register d salt b))) =
      rows (users d) ++
      [{| Users.id := serial (users d);
          Users.email := trim (toLowerCase e);
          Users.password := bcrypt_hash p 10 salt |}].
Proof.
  unfold post_register.
  destruct (negb (scalar_truthy (Credentials.email b))
            || negb (scalar_truthy (Credentials.password b))); [now left|].
  destruct (shorter (Credentials.password b) 6); [now left|].
  destruct (as_string (Credentials.password b)) as [p|]; [|now left].
  destruct (as_string (Credentials.email b)) as [e|]; [|now left].
  unfold insert_user. destruct (has_nul _); [now left|].
  destruct (user_exists d _); simpl; [now left|right; eauto].
Qed.

(** X2. Registration, under either path, keeps [users.email] unique and
    every stored email in its lowercased and trimmed form, and it never
    removes or changes a user row that was there. *)
Theorem registration_keeps_users_canonical {B : Bcrypt} (d : db)
  (salt : string) (b : Credentials.body) :
  unique_users d -> normalized_users d ->
  let d' := fst (post_register d salt b) in
  unique_users d' /\ normalized_users d' /\
  (exists added, rows (users d') = rows (users d) ++ added) /\
  unique_users (fst (post_signup d salt b)) /\
  normalized_users (fst (post_signup d salt b)).
Proof.
  intros Hu Hn d'.
  assert (U : unique_users d') by (now apply register_preserves_unique).
  assert (N : normalized_users d').
  { unfold normalized_users. subst d'.
    destruct (register_users_grow d salt b) as [-> | (e & p & ->)];
      [assumption|].
    apply Forall_app. split; [assumption|]. constructor; [|constructor].
    simpl. apply normalize_idempotent. }
  split; [exact U|]. split; [exact N|]. split; [|split; assumption].
  subst d'. destruct (register_users_grow d salt b) as [-> | (e & p & ->)].
  - exists []. now rewrite app_nil_r.
  - eauto.
Qed.

Lemma registration_keeps_users_canonical_witness :
  unique_users db_registered /\ normalized_users db_registered.
Proof.
  assert (U : unique_users db_empty) by constructor.
  assert (N : normalized_users db_empty) by constructor.
  destruct (@registration_keeps_users_canonical plain_bcrypt db_empty "salt"
              (credentials "a@x.com" "secret1") U N) as (HU & HN & _).
  split; [exact HU|exact HN].
Defined.

Lemma scalar_truthy_inverts v s :
  as_string v = Some s -> scalar_truthy v = true -> v = SStr s /\ s <> "".
Proof.
  destruct v; simpl; try discriminate. intros [= ->] H. split; [reflexivity|].
  intros ->. discriminate.
Qed.

Lemma register_success_inverts {B : Bcrypt} d salt b account :
  snd (post_register d salt b) = Json account ->
  exists e p,
    let normalized := trim (toLowerCase e) in
    Credentials.email b = SStr e /\ Credentials.password b = SStr p /\
    e <> "" /\ (6 <= String.length p)%nat /\ has_nul e = false /\
    user_exists d normalized = false /\
    Account.email account = normalized /\
    Account.id account = serial (users d) /\
    rows (users (fst (post_register d salt b))) =
      rows (users d) ++
      [{| Users.id := serial (users d);
          Users.email := normalized;
          Users.password := bcrypt_hash p 10 salt |}].
Proof.
  intros Hr.
  set (email := Credentials.email b) in *.
  set (password := Credentials.password b) in *.
  destruct (scalar_truthy email) eqn:He.
  2: { destruct (register_rejects d salt b (or_introl He)) as [_ [m Hm]].
       rewrite Hm in Hr. discriminate. }
  destruct (scalar_truthy password) eqn:Hp.
  2: { destruct (register_rejects d salt b (or_intror (or_introl Hp)))
         as [_ [m Hm]].
       rewrite Hm in Hr. discriminate. }
  destruct (shorter password 6) eqn:Hs.
  { destruct (register_rejects d salt b (or_intror (or_intror Hs)))
      as [_ [m Hm]].
    rewrite Hm in Hr. discriminate. }
  destruct (as_string email) as [e|] eqn:Ee.
  2: { rewrite (register_throws d salt b He Hp Hs (or_introl Ee)) in Hr.
       discriminate. }
  destruct (as_string password) as [p|] eqn:Ep.
  2: { rewrite (register_throws d salt b He Hp Hs (or_intror Ep)) in Hr.
       discriminate. }
  destruct (scalar_truthy_inverts _ Ee He) as [Hemail Hne].
  destruct (scalar_truthy_inverts _ Ep Hp) as [Hpassword _].
  assert (Hl : (6 <= String.length p)%nat).
  { rewrite Hpassword in Hs. simpl in Hs. now apply Nat.ltb_ge in Hs. }
  exists e, p. cbv zeta.
  destruct (has_nul e) eqn:Hn.
  { rewrite (@register_refused_text B d salt b e p Hemail Hpassword Hne Hl Hn)
      in Hr. discriminate. }
  destruct (user_exists d (trim (toLowerCase e))) eqn:Hx.
  { destruct (@register_conflict B d salt b e p Hemail Hpassword Hne Hl Hn Hx)
      as [Hc _].
    rewrite Hc in Hr. discriminate. }
  destruct (@register_creates B d salt b e p Hemail Hpassword Hne Hl Hn Hx)
    as [Hrows Hjson].
  rewrite Hjson in Hr. injection Hr as <-. simpl.
  repeat match goal with |- _ /\ _ => split end; try reflexivity;
    assumption.
Qed.

(** X3. The email that a successful registration returns, when it is not
    empty, is one the account can log in with: [POST /login] with that email
    and the registered password succeeds and returns the same email. *)
Theorem registered_email_logs_in {B : Bcrypt} (d : db) (salt : string)
  (b : Credentials.body) (account : Account.t) :
  BcryptVerifies B ->
  snd (post_register d salt b) = Json account ->
  Account.email account <> "" ->
  post_login (fst (post_register d salt b))
    {| Credentials.name := None;
       Credentials.email := SStr (Account.email account);
       Credentials.password := Credentials.password b |}
  = Json {| Session.success := true;
            Session.email := Account.email account;
            Session.message := "Login successful!" |}.
Proof.
  intros V Hr Hne.
  destruct (register_success_inverts d salt b Hr)
    as (e & p & He & Hp & Hnonempty & Hl & Hn & Hx & Hmail & _ & Hrows).
  rewrite Hmail in *. rewrite Hp.
  set (normalized := trim (toLowerCase e)) in *.
  assert (Hn' : has_nul normalized = false)
    by (unfold normalized; now rewrite has_nul_normalized).
  rewrite (@login_reaches_select B _
             {| Credentials.name := None;
                Credentials.email := SStr normalized;
                Credentials.password := SStr p |}
             (scalar_truthy_string Hne)
             (scalar_truthy_string (long_nonempty Hl))
             normalized eq_refl Hn').
  unfold select. unfold normalized at 1.
  rewrite normalize_idempotent. fold normalized.
  rewrite Hrows, filter_app, select_absent_email by exact Hx.
  simpl. rewrite String.eqb_refl. cbn [Users.password Users.email].
  now rewrite compare_hash.
Qed.

Lemma registered_email_logs_in_witness :
  @post_login plain_bcrypt db_registered (credentials "a@x.com" "secret1") =
  Json {| Session.success := true; Session.email := "a@x.com";
          Session.message := "Login successful!" |}.
Proof.
  assert (Hne : "a@x.com" <> "") by discriminate.
  exact (@registered_email_logs_in plain_bcrypt db_empty "salt"
           (credentials " A@X.com " "secret1")
           {| Account.success := true; Account.id := 1;
              Account.email := "a@x.com";
              Account.message := "Account created successfully!" |}
           plain_bcrypt_verifies eq_refl Hne).
Defined.

(** X4. Registration tests the email as sent, before trimming: an email of
    white space only passes, and the account is stored and returned under
    the empty email.  The returned email cannot log in (an empty email is a
    missing field), the white-space one can. *)
Theorem blank_email_registers {B : Bcrypt} (d : db) (salt : string)
  (e p : string) :
  BcryptVerifies B ->
  e <> "" -> trim (toLowerCase e) = "" -> (6 <= String.length p)%nat ->
  user_exists d "" = false ->
  let d' := fst (post_register d salt (credentials e p)) in
  snd (post_register d salt (credentials e p)) =
    Json {| Account.success := true; Account.id := serial (users d);
            Account.email := "";
            Account.message := "Account created successfully!" |} /\
  post_login d' (credentials "" p) =
    AuthFailure 400 "Email and password are required." /\
  post_login d' (credentials e p) =
    Json {| Session.success := true; Session.email := "";
            Session.message := "Login successful!" |}.
Proof.
  intros V He Hblank Hl Hx d'.
  assert (Hn : has_nul e = false)
    by (now rewrite <- has_nul_normalized, Hblank).
  assert (Hx' : user_exists d (trim (toLowerCase e)) = false)
    by (now rewrite Hblank).
  destruct (@register_creates B d salt (credentials e p) e p eq_refl eq_refl
              He Hl Hn Hx')
    as [Hrows Hjson].
  simpl in Hrows, Hjson. rewrite Hblank in Hrows, Hjson.
  split; [exact Hjson|]. split; [reflexivity|].
  rewrite (@login_reaches_select B _ (credentials e p)
             (scalar_truthy_string He)
             (scalar_truthy_string (long_nonempty Hl)) e eq_refl Hn).
  unfold select. rewrite Hblank. subst d'.
  rewrite Hrows, filter_app, select_absent_email by exact Hx.
  simpl. now rewrite compare_hash.
Qed.

Lemma blank_email_registers_witness :
  snd (@post_register plain_bcrypt db_empty "salt" (credentials "  " "secret1"))
  = Json {| Account.success := true; Account.id := 1; Account.email := "";
            Account.message := "Account created successfully!" |}.
Proof.
  assert (Hne : "  " <> "") by discriminate.
  assert (Hl : (6 <= String.length "secret1")%nat) by (simpl; lia).
  exact (proj1 (@blank_email_registers plain_bcrypt db_empty "salt" "  "
                  "secret1" plain_bcrypt_verifies Hne eq_refl Hl eq_refl)).
Defined.

(* ================================================================== *)
(** * Projects and their description *)
(* ================================================================== *)

Lemma description_json_columns b :
  Description.to_json (Description.to_columns b) = b.
Proof. now destruct b. Qed.

Lemma eq_Permutation {A} (l l' : list A) : l = l' -> Permutation l l'.
Proof. now intros ->. Qed.

Lemma in_last {A} (l : list A) x : In x (l ++ [x]).
Proof. apply in_or_app. right. now left. Qed.

(** X5. [POST /projects] refuses a missing or empty name or owner email
    with 400 and writes nothing.  When it answers with a row, name and
    owner email were there, the row is the one new row of the table,
    whatever the owner email (no user need exist), with [colleagues]
    defaulting to the text "[]" and [progress] to 0, and
    [GET /projects/:email] of the owner lists it. *)
Theorem project_creation (d : db) (b : PostProjects.body) :
  (str_truthy (PostProjects.name b) = false \/
   str_truthy (PostProjects.owner_email b) = false ->
   post_projects d b =
   (d, Failure 400 "Project name and owner email are required." None)) /\
  (forall r, snd (post_projects d b) = Json r ->
     str_truthy (PostProjects.name b) = true /\
     str_truthy (PostProjects.owner_email b) = true /\
     Permutation (rows (projects (fst (post_projects d b))))
       (r :: rows (projects d)) /\
     Projects.id r = serial (projects d) /\
     Projects.name r = PostProjects.name b /\
     Projects.owner_email r = PostProjects.owner_email b /\
     Projects.colleagues r = Some (str_or (PostProjects.colleagues b) "[]") /\
     Projects.progress r = Some (int_or (PostProjects.progress b) 0) /\
     exists listed,
       get_projects (fst (post_projects d b))
         (text (PostProjects.owner_email b)) = Json listed /\
       In r listed).
Proof.
  unfold post_projects. split.
  - intros [H|H]; rewrite H; simpl; [reflexivity|].
    now rewrite orb_true_r.
  - intros r.
    destruct (str_truthy (PostProjects.name b)) eqn:Hn;
      [|discriminate].
    destruct (str_truthy (PostProjects.owner_email b)) eqn:Ho;
      [|discriminate].
    simpl. intros Hr. injection Hr as <-.
    do 2 (split; [reflexivity|]).
    split; [symmetry; apply Permutation_cons_append|].
    do 5 (split; [reflexivity|]).
    eexists. split; [reflexivity|].
    unfold select. simpl. apply filter_In. split; [apply in_last|].
    simpl. rewrite (str_truthy_text _ Ho). apply String.eqb_refl.
Qed.

Lemma project_creation_witness :
  exists r,
    snd (post_projects db_empty
           (project_body (Some "Thesis") (Some "nobody@x.com"))) = Json r /\
    Projects.progress r = Some 0 /\ Projects.colleagues r = Some "[]" /\
    status (snd (post_projects db_empty
                   (project_body None (Some "nobody@x.com")))) = 400%nat.
Proof.
  destruct (@project_creation db_empty
              (project_body (Some "Thesis") (Some "nobody@x.com")))
    as [_ Hok].
  destruct (@project_creation db_empty
              (project_body None (Some "nobody@x.com"))) as [Hbad _].
  eexists.
  destruct (Hok _ eq_refl) as (_ & _ & _ & _ & _ & _ & Hc & Hp & _).
  split; [reflexivity|]. split; [exact Hp|]. split; [exact Hc|].
  now rewrite (Hbad (or_introl eq_refl)).
Defined.

Lemma filter_swap {A} (p q : A -> bool) l :
  filter p (filter q l) = filter q (filter p l).
Proof.
  induction l as [|x l IH]; simpl; [reflexivity|].
  destruct (p x) eqn:Ep, (q x) eqn:Eq; simpl; rewrite ?Ep, ?Eq, IH;
    reflexivity.
Qed.

(** X6. When [PUT /projects/:id] answers with a count, the count is the
    number of rows of that id, and the handler has overwritten name,
    colleagues and progress of these rows and nothing else: every row keeps
    its id, owner and description, and the rows of other ids are as they
    were.  A body without [progress] stores 0; a body with
    [progress: null] stores [NULL]. *)
Theorem project_update (d : db) (id : Z) (b : PutProjects.body) (n : nat) :
  snd (put_projects d id b) = Json (Updated n) ->
  let d' := fst (put_projects d id b) in
  n = length (select (fun r => Projects.id r =? id) (projects d)) /\
  Permutation
    (map (fun r => (Projects.id r, Projects.owner_email r,
                    Projects.description r)) (rows (projects d')))
    (map (fun r => (Projects.id r, Projects.owner_email r,
                    Projects.description r)) (rows (projects d))) /\
  (forall r, In r (rows (projects d')) -> Projects.id r = id ->
     Projects.name r = PutProjects.name b /\
     Projects.colleagues r = PutProjects.colleagues b /\
     Projects.progress r =
       match PutProjects.progress b with
       | None => Some 0
       | Some sent => sent
       end) /\
  (forall r, Projects.id r <> id ->
     (In r (rows (projects d')) <-> In r (rows (projects d)))).
Proof.
  intros Hn d'. subst d'. revert Hn. unfold put_projects. simpl.
  intros Hn. injection Hn as <-.
  split; [reflexivity|]. split; [|split].
  - apply eq_Permutation. rewrite map_map. apply map_ext. intros r.
    now destruct (Projects.id r =? id).
  - intros r Hin Hid. apply in_map_iff in Hin.
    destruct Hin as (r0 & <- & _).
    destruct (Projects.id r0 =? id) eqn:E; [simpl; now destruct b as [? ? [|]]|].
    apply Z.eqb_neq in E. congruence.
  - intros r Hid. rewrite in_map_iff. split.
    + intros (r0 & <- & Hin).
      destruct (Projects.id r0 =? id) eqn:E; [|assumption].
      apply Z.eqb_eq in E. simpl in Hid. congruence.
    + intros Hin. exists r. split; [|assumption].
      apply Z.eqb_neq in Hid. now rewrite Hid.
Qed.

Lemma project_update_witness :
  exists r,
    rows (projects
            (fst (put_projects db_project 1
                    {| PutProjects.name := Some "Thesis II";
                       PutProjects.colleagues := None;
                       PutProjects.progress := None |}))) = [r] /\
    Projects.name r = Some "Thesis II" /\
    Projects.progress r = Some 0 /\
    Projects.owner_email r = Some "nobody@x.com".
Proof.
  destruct (@project_update db_project 1
              {| PutProjects.name := Some "Thesis II";
                 PutProjects.colleagues := None;
                 PutProjects.progress := None |} 1 eq_refl)
    as (_ & _ & Hnew & _).
  eexists. split; [reflexivity|].
  destruct (Hnew _ (or_introl eq_refl) eq_refl) as (Hname & _ & Hprog).
  split; [exact Hname|]. split; [exact Hprog|reflexivity].
Defined.



(** X8. [DELETE /projects/:id] is refused when a colleague row refers to
    a project of that id: the foreign key answers, the response is 500 and
    nothing is removed.  When it answers with a count, no colleague
    referred to the project, the count is the number of rows of that id,
    the description of the id then reads as the empty object and the list
    of every owner holds its former projects except those of the id. *)
Theorem project_removal (d : db) (id : Z) :
  let blocked :=
    existsb (fun c => existsb (fun r => int_is (Colleagues.project_id c)
                                          (Projects.id r))
                        (select (fun r => Projects.id r =? id) (projects d)))
      (rows (colleagues d)) in
  (blocked = true ->
   delete_projects d id = (d, Failure 500 "Error deleting project." None)) /\
  (forall n, snd (delete_projects d id) = Json (Deleted n) ->
   let d' := fst (delete_projects d id) in
   blocked = false /\
   n = length (select (fun r => Projects.id r =? id) (projects d)) /\
   get_projects_description d' id = Json None /\
   forall email, exists l l',
     get_projects d email = Json l /\
     get_projects d' email = Json l' /\
     Permutation l' (filter (fun r => negb (Projects.id r =? id)) l)) /\
  (rows (colleagues d) = [] -> blocked = false).
Proof.
  intros blocked. unfold delete_projects. fold blocked.
  split; [|split].
  - now intros ->.
  - intros n. destruct blocked; [discriminate|]. simpl.
    intros Hn. injection Hn as <-.
    do 2 (split; [reflexivity|]). split.
    + unfold get_projects_description, select. simpl.
      now rewrite filter_filter_neg.
    + intros email. unfold get_projects, select. simpl.
      do 2 eexists. do 2 (split; [reflexivity|]).
      now rewrite filter_swap.
  - intros H. subst blocked. now rewrite H.
Qed.

Lemma project_removal_witness :
  snd (delete_projects db_project 1) = Json (Deleted 1) /\
  get_projects (fst (delete_projects db_project 1)) "nobody@x.com" = Json [].
Proof.
  destruct (@project_removal db_project 1) as (_ & Hdel & _).
  destruct (Hdel 1%nat eq_refl) as (_ & _ & _ & _).
  split; reflexivity.
Defined.

(* ================================================================== *)
(** * Lists after a write *)
(* ================================================================== *)

Lemma filter_map_comm {A B} (p : B -> bool) (f : A -> B) l :
  filter p (map f l) = map f (filter (fun x => p (f x)) l).
Proof.
  induction l as [|x l IH]; simpl; [reflexivity|].
  destruct (p (f x)); simpl; now rewrite IH.
Qed.

Lemma Forall2_map_same {A} (P : A -> A -> Prop) (g : A -> A) l :
  (forall x, P x (g x)) -> Forall2 P l (map g l).
Proof. intros Hg. induction l; simpl; constructor; auto. Qed.

Section ListFacts.
Context {R K : Type} `{Order K}.
Variable key : R -> K.

Lemma insert_row_least x l :
  Forall (fun y => le_key (key x) (key y) = true) l ->
  insert_row key x l = x :: l.
Proof. destruct 1 as [|y t Hy _]; simpl; [reflexivity|]. now rewrite Hy. Qed.

Lemma filter_insert_row p x l :
  ordered key l ->
  filter p (insert_row key x l) =
  if p x then insert_row key x (filter p l) else filter p l.
Proof.
  unfold ordered. induction 1 as [|y t Ht IH Hy]; simpl.
  - now destruct (p x).
  - destruct (le_key (key x) (key y)) eqn:E; simpl.
    + destruct (p x) eqn:Ex; [|reflexivity].
      destruct (p y) eqn:Ey; simpl; [now rewrite E|].
      symmetry. apply insert_row_least.
      apply Forall_forall. intros z Hz. apply filter_In in Hz.
      destruct Hz as [Hz _]. rewrite Forall_forall in Hy.
      eapply le_key_trans; [exact E|]. now apply Hy.
    + destruct (p y) eqn:Ey; simpl.
      * rewrite IH. destruct (p x); simpl; [now rewrite E|reflexivity].
      * exact IH.
Qed.

Lemma order_by_filter p l :
  filter p (order_by key l) = order_by key (filter p l).
Proof.
  induction l as [|x l IH]; simpl; [reflexivity|].
  rewrite filter_insert_row by apply order_by_ordered.
  rewrite IH. now destruct (p x).
Qed.

Lemma insert_row_map (g : R -> R) x l :
  (forall r, key (g r) = key r) ->
  insert_row key (g x) (map g l) = map g (insert_row key x l).
Proof.
  intros Hg. induction l as [|y l IH]; simpl; [reflexivity|].
  rewrite !Hg. destruct (le_key (key x) (key y)); simpl; [reflexivity|].
  now rewrite IH.
Qed.

Lemma order_by_map (g : R -> R) l :
  (forall r, key (g r) = key r) ->
  order_by key (map g l) = map g (order_by key l).
Proof.
  intros Hg. induction l as [|x l IH]; simpl; [reflexivity|].
  now rewrite IH, insert_row_map.
Qed.

Lemma list_after_delete (own gone : R -> bool) t :
  order_by key (select own (fst (delete_where gone t))) =
  filter (fun r => negb (gone r)) (order_by key (select own t)).
Proof.
  unfold select, delete_where. simpl.
  now rewrite filter_swap, order_by_filter.
Qed.

Lemma list_after_update (own p : R -> bool) (f : R -> R) t :
  (forall r, key (f r) = key r) -> (forall r, own (f r) = own r) ->
  order_by key (select own (fst (update_where p f t))) =
  map (fun r => if p r then f r else r) (order_by key (select own t)).
Proof.
  intros Hkey Hown. unfold select, update_where. simpl.
  rewrite filter_map_same by (intros r; destruct (p r); auto).
  apply order_by_map. intros r. destruct (p r); auto.
Qed.

Lemma list_after_insert (own : R -> bool) l r :
  (own r = true ->
   Permutation (order_by key (filter own (l ++ [r])))
     (r :: order_by key (filter own l))) /\
  (own r = false -> filter own (l ++ [r]) = filter own l).
Proof.
  rewrite filter_app. simpl. split; intros ->.
  - rewrite order_by_perm.
    rewrite <- Permutation_cons_append.
    constructor. symmetry. apply order_by_perm.
  - apply List.app_nil_r.
Qed.
End ListFacts.

(** X9. After a delete by id, each list of an owner holds the rows of the
    former list except those of that id: ideas, notes, career goals, future
    work, deadlines, and events under both reads.  The two event deletes
    are the same operation. *)
Theorem delete_unlists (d : db) (id : Z) (email : string) :
  (exists l l', get_ideas d email = Json l /\
     get_ideas (fst (delete_ideas d id)) email = Json l' /\
     Permutation l' (filter (fun r => negb (Ideas.id r =? id)) l)) /\
  (exists l l', get_notes d email = Json l /\
     get_notes (fst (delete_notes d id)) email = Json l' /\
     Permutation l' (filter (fun r => negb (Notes.id r =? id)) l)) /\
  (exists l l', get_career_goals d email = Json l /\
     get_career_goals (fst (delete_career_goals d id)) email = Json l' /\
     Permutation l' (filter (fun r => negb (CareerGoals.id r =? id)) l)) /\
  (exists l l', get_future_work d email = Json l /\
     get_future_work (fst (delete_future_work d id)) email = Json l' /\
     Permutation l' (filter (fun r => negb (FutureWork.id r =? id)) l)) /\
  (exists l l', get_deadlines d email = Json l /\
     get_deadlines (fst (delete_deadlines d id)) email = Json l' /\
     Permutation l' (filter (fun r => negb (Deadlines.id r =? id)) l)) /\
  (exists l l', get_events d email = Json l /\
     get_events (fst (delete_events d id)) email = Json l' /\
     Permutation l' (filter (fun v => negb (EventView.id v =? id)) l)) /\
  (exists l l', get_calendar_events d email = Json l /\
     get_calendar_events (fst (delete_calendar_events d id)) email = Json l' /\
     Permutation l' (filter (fun r => negb (CalendarEvents.id r =? id)) l)) /\
  delete_calendar_events d id = delete_events d id.
Proof.
  repeat match goal with
         | |- (exists l l', _) /\ _ =>
             split; [do 2 eexists; do 2 (split; [reflexivity|]);
                     apply eq_Permutation|]
         end; try reflexivity.
  - unfold get_ideas, delete_ideas.
    apply (list_after_delete (fun r => desc (Ideas.created_date r))).
  - unfold get_notes, delete_notes.
    apply (list_after_delete (fun r => desc (Notes.created_date r))).
  - unfold get_career_goals, delete_career_goals.
    apply (list_after_delete (fun r => desc (CareerGoals.created_date r))).
  - unfold get_future_work, delete_future_work.
    apply (list_after_delete (fun r => desc (FutureWork.created_date r))).
  - unfold get_deadlines, delete_deadlines.
    apply (list_after_delete (fun r => Deadlines.due_date r)).
  - unfold get_events, delete_events.
    rewrite filter_map_comm. f_equal.
    apply (list_after_delete (fun r => (CalendarEvents.event_date r,
                                        CalendarEvents.start_time r))).
  - unfold get_calendar_events, delete_calendar_events.
    apply (list_after_delete (fun r => CalendarEvents.event_date r)).
Qed.

(** X10. When an update by id of an idea, a note, a career goal or a
    future-work item answers with a count, the list of an owner has changed
    only in the rows of that id: it holds the former rows, each with its
    id, owner and [created_date]; the rows of the id carry every field of
    the body that the statement sets, and the other rows are as they
    were. *)
Theorem update_relists (d : db) (id : Z) (email : string) :
  (forall b n, snd (put_ideas d id b) = Json (Updated n) ->
   exists l m l',
     get_ideas d email = Json l /\
     get_ideas (fst (put_ideas d id b)) email = Json l' /\
     Permutation l' m /\
     Forall2 (fun r r' =>
       Ideas.id r' = Ideas.id r /\
       Ideas.user_email r' = Ideas.user_email r /\
       Ideas.created_date r' = Ideas.created_date r /\
       if Ideas.id r =? id then
         Ideas.title r' = PutIdeas.title b /\
         Ideas.content r' = PutIdeas.content b /\
         Ideas.category r' = PutIdeas.category b
       else r' = r) l m) /\
  (forall b n, snd (put_notes d id b) = Json (Updated n) ->
   exists l m l',
     get_notes d email = Json l /\
     get_notes (fst (put_notes d id b)) email = Json l' /\
     Permutation l' m /\
     Forall2 (fun r r' =>
       Notes.id r' = Notes.id r /\
       Notes.user_email r' = Notes.user_email r /\
       Notes.created_date r' = Notes.created_date r /\
       if Notes.id r =? id then
         Notes.title r' = PutNotes.title b /\
         Notes.content r' = PutNotes.content b
       else r' = r) l m) /\
  (forall b n, snd (put_career_goals d id b) = Json (Updated n) ->
   exists l m l',
     get_career_goals d email = Json l /\
     get_career_goals (fst (put_career_goals d id b)) email = Json l' /\
     Permutation l' m /\
     Forall2 (fun r r' =>
       CareerGoals.id r' = CareerGoals.id r /\
       CareerGoals.user_email r' = CareerGoals.user_email r /\
       CareerGoals.created_date r' = CareerGoals.created_date r /\
       if CareerGoals.id r =? id then
         CareerGoals.title r' = PutCareerGoals.title b /\
         CareerGoals.description r' = PutCareerGoals.description b /\
         CareerGoals.progress r' = PutCareerGoals.progress b /\
         CareerGoals.goal_type r' = PutCareerGoals.goal_type b /\
         CareerGoals.target_date r' = PutCareerGoals.target_date b /\
         CareerGoals.total_stages r' = PutCareerGoals.total_stages b /\
         CareerGoals.current_stage r' = PutCareerGoals.current_stage b /\
         CareerGoals.start_date r' = PutCareerGoals.start_date b /\
         CareerGoals.stage_description r' = PutCareerGoals.stage_description b
       else r' = r) l m) /\
  (forall b n, snd (put_future_work d id b) = Json (Updated n) ->
   exists l m l',
     get_future_work d email = Json l /\
     get_future_work (fst (put_future_work d id b)) email = Json l' /\
     Permutation l' m /\
     Forall2 (fun r r' =>
       FutureWork.id r' = FutureWork.id r /\
       FutureWork.user_email r' = FutureWork.user_email r /\
       FutureWork.created_date r' = FutureWork.created_date r /\
       if FutureWork.id r =? id then
         FutureWork.title r' = PutFutureWork.title b /\
         FutureWork.description r' = PutFutureWork.description b /\
         FutureWork.priority r' = PutFutureWork.priority b /\
         FutureWork.timeline r' = PutFutureWork.timeline b
       else r' = r) l m).
Proof.
  split; [|split; [|split]]; intros b n _;
    do 3 eexists; do 2 (split; [reflexivity|]).
  - unfold get_ideas, put_ideas.
    split; [apply eq_Permutation;
            apply (list_after_update (fun r => desc (Ideas.created_date r)));
            reflexivity|].
    apply Forall2_map_same. intros r.
    destruct (Ideas.id r =? id); simpl; repeat split.
  - unfold get_notes, put_notes.
    split; [apply eq_Permutation;
            apply (list_after_update (fun r => desc (Notes.created_date r)));
            reflexivity|].
    apply Forall2_map_same. intros r.
    destruct (Notes.id r =? id); simpl; repeat split.
  - unfold get_career_goals, put_career_goals.
    split; [apply eq_Permutation;
            apply (list_after_update (fun r => desc (CareerGoals.created_date r)));
            reflexivity|].
    apply Forall2_map_same. intros r.
    destruct (CareerGoals.id r =? id); simpl; repeat split.
  - unfold get_future_work, put_future_work.
    split; [apply eq_Permutation;
            apply (list_after_update (fun r => desc (FutureWork.created_date r)));
            reflexivity|].
    apply Forall2_map_same. intros r.
    destruct (FutureWork.id r =? id); simpl; repeat split.
Qed.

Lemma delete_unlists_witness :
  exists l,
    get_ideas (fst (delete_ideas db_two_ideas 1)) "a@x.com" = Json l /\
    map Ideas.id l = [2].
Proof.
  destruct (@delete_unlists db_two_ideas 1 "a@x.com")
    as ((l & l' & Hl & Hd & _) & _).
  exists l'. split; [exact Hd|].
  unfold get_ideas in Hd. injection Hd as <-. reflexivity.
Defined.

Lemma update_relists_witness :
  exists l,
    get_ideas (fst (put_ideas db_two_ideas 2 (idea_update "Renamed")))
      "a@x.com" = Json l /\
    map (fun r => (Ideas.id r, Ideas.title r)) l =
      [(1, Some "Idea"); (2, Some "Renamed")].
Proof.
  destruct (@update_relists db_two_ideas 2 "a@x.com") as (Hideas & _).
  destruct (Hideas (idea_update "Renamed") 1%nat eq_refl)
    as (l & m & l' & _ & Hl' & _).
  exists l'. split; [exact Hl'|].
  unfold get_ideas in Hl'. injection Hl' as <-. reflexivity.
Defined.

Lemma insert_owned_refuses {R} (d : db) owner (mk : Z -> R) t :
  references_user d owner = false ->
  insert_owned d owner mk t = (refused t, Raised foreign_key_violation).
Proof. unfold insert_owned. now intros ->. Qed.

Ltac created H :=
  match type of H with
  | snd ?call = Json _ =>
      let E := fresh "E" in
      let t := fresh "t" in
      let Hrows := fresh "Hrows" in
      unfold post_ideas, post_notes, post_career_goals, post_future_work,
        post_deadlines, post_events, post_calendar_events in *;
      destruct (insert_owned _ _ _ _) as [t [?|?]] eqn:E;
      cbn [fst snd] in *; [|discriminate H];
      injection H as <-;
      apply insert_owned_done in E; destruct E as (_ & -> & Hrows)
  end.

(** X11. A row that a create returns is in the list of its owner from then
    on, and in no other list: the list of the owner is a rearrangement of
    the new row and the former list, the list of every other email is as
    it was.  A row created without an owner is in no list. *)
Theorem create_then_list (d : db) (now email : string) :
  (forall b r, snd (post_ideas d now b) = Json r ->
     exists l l',
       get_ideas d email = Json l /\
       get_ideas (fst (post_ideas d now b)) email = Json l' /\
       if text_is (PostIdeas.user_email b) email
       then Permutation l' (r :: l) else l' = l) /\
  (forall b r, snd (post_notes d now b) = Json r ->
     exists l l',
       get_notes d email = Json l /\
       get_notes (fst (post_notes d now b)) email = Json l' /\
       if text_is (PostNotes.user_email b) email
       then Permutation l' (r :: l) else l' = l) /\
  (forall b r, snd (post_career_goals d now b) = Json r ->
     exists l l',
       get_career_goals d email = Json l /\
       get_career_goals (fst (post_career_goals d now b)) email = Json l' /\
       if text_is (PostCareerGoals.user_email b) email
       then Permutation l' (r :: l) else l' = l) /\
  (forall b r, snd (post_future_work d now b) = Json r ->
     exists l l',
       get_future_work d email = Json l /\
       get_future_work (fst (post_future_work d now b)) email = Json l' /\
       if text_is (PostFutureWork.user_email b) email
       then Permutation l' (r :: l) else l' = l) /\
  (forall b r, snd (post_deadlines d now b) = Json r ->
     exists l l',
       get_deadlines d email = Json l /\
       get_deadlines (fst (post_deadlines d now b)) email = Json l' /\
       if text_is (PostDeadlines.user_email b) email
       then Permutation l' (r :: l) else l' = l) /\
  (forall b r, snd (post_events d now b) = Json r ->
     exists l l',
       get_events d email = Json l /\
       get_events (fst (post_events d now b)) email = Json l' /\
       if text_is (PostEvents.userEmail b) email
       then Permutation l' (event_view r :: l) else l' = l) /\
  (forall b r, snd (post_calendar_events d now b) = Json r ->
     exists l l',
       get_events d email = Json l /\
       get_events (fst (post_calendar_events d now b)) email = Json l' /\
       if text_is (PostCalendarEvents.user_email b) email
       then Permutation l' (event_view r :: l) else l' = l).
Proof.
  split; [|split; [|split; [|split; [|split; [|split]]]]]; intros b r Hr;
    do 2 eexists; (split; [reflexivity|]); (split; [reflexivity|]);
    created Hr;
    unfold get_ideas, get_notes, get_career_goals, get_future_work,
      get_deadlines, get_events, select;
    cbn [ideas set_ideas notes set_notes career_goals set_career_goals
         future_work set_future_work deadlines set_deadlines
         calendar_events set_calendar_events];
    rewrite Hrows;
    match goal with
    | |- context [filter ?own (?l ++ [?x])] =>
        match goal with
        | |- context [order_by ?key (filter own (l ++ [x]))] =>
            destruct (list_after_insert key own l x) as [Hin Hout]
        end;
        cbn beta in Hin, Hout;
        cbn [Ideas.user_email Notes.user_email CareerGoals.user_email
             FutureWork.user_email Deadlines.user_email
             CalendarEvents.user_email] in Hin, Hout
    end;
    match goal with
    | |- if ?c then _ else _ =>
        destruct c;
        [ try apply Permutation_map with (f := event_view) in Hin;
          auto
        | now rewrite (Hout eq_refl) ]
    end.
Qed.

Lemma create_then_list_witness :
  exists r l,
    snd (post_ideas db_registered "2024-04-30T08:00:00.000Z"
           (idea_body "a@x.com" None)) = Json r /\
    get_ideas (fst (post_ideas db_registered "2024-04-30T08:00:00.000Z"
                      (idea_body "a@x.com" None))) "a@x.com" = Json l /\
    Permutation l [r].
Proof.
  destruct (@create_then_list db_registered "2024-04-30T08:00:00.000Z"
              "a@x.com") as (Hideas & _).
  eexists.
  destruct (Hideas (idea_body "a@x.com" None) _ eq_refl)
    as (l & l' & Hl & Hl' & Hp).
  exists l'. split; [reflexivity|]. split; [exact Hl'|].
  unfold get_ideas in Hl. injection Hl as <-. exact Hp.
Defined.

(** X12. A create for an owner email that no user has is refused by the
    foreign key of the table: the answer is 500 with the error of the
    route, and the table has the rows it had.  This holds for ideas, notes,
    career goals, future work, deadlines and events under both routes. *)
Theorem creates_refuse_unregistered_owner (d : db) (now e : string) :
  user_exists d e = false ->
  (forall b, PostIdeas.user_email b = Some e ->
     snd (post_ideas d now b) = Failure 500 "Error creating idea." None /\
     rows (ideas (fst (post_ideas d now b))) = rows (ideas d)) /\
  (forall b, PostNotes.user_email b = Some e ->
     snd (post_notes d now b) = Failure 500 "Error creating note." None /\
     rows (notes (fst (post_notes d now b))) = rows (notes d)) /\
  (forall b, PostCareerGoals.user_email b = Some e ->
     snd (post_career_goals d now b) =
       Failure 500 "Error creating career goal." None /\
     rows (career_goals (fst (post_career_goals d now b))) =
       rows (career_goals d)) /\
  (forall b, PostFutureWork.user_email b = Some e ->
     snd (post_future_work d now b) =
       Failure 500 "Error creating future work." None /\
     rows (future_work (fst (post_future_work d now b))) =
       rows (future_work d)) /\
  (forall b, PostDeadlines.user_email b = Some e ->
     snd (post_deadlines d now b) =
       Failure 500 "Error creating deadline." None /\
     rows (deadlines (fst (post_deadlines d now b))) = rows (deadlines d)) /\
  (forall b, PostEvents.userEmail b = Some e ->
     snd (post_events d now b) = Failure 500 "Error creating event." None /\
     rows (calendar_events (fst (post_events d now b))) =
       rows (calendar_events d)) /\
  (forall b, PostCalendarEvents.user_email b = Some e ->
     snd (post_calendar_events d now b) =
       Failure 500 "Error creating event." None /\
     rows (calendar_events (fst (post_calendar_events d now b))) =
       rows (calendar_events d)).
Proof.
  intros Hu.
  split; [|split; [|split; [|split; [|split; [|split]]]]]; intros b Hb;
    unfold post_ideas, post_notes, post_career_goals, post_future_work,
      post_deadlines, post_events, post_calendar_events;
    rewrite insert_owned_refuses by (rewrite Hb; exact Hu);
    split; reflexivity.
Qed.

Lemma creates_refuse_unregistered_owner_witness :
  status (snd (post_ideas db_registered "2024-04-30T08:00:00.000Z"
                 (idea_body "ghost@x.com" None))) = 500%nat.
Proof.
  destruct (@creates_refuse_unregistered_owner db_registered
              "2024-04-30T08:00:00.000Z" "ghost@x.com" eq_refl)
    as (Hideas & _).
  destruct (Hideas (idea_body "ghost@x.com" None) eq_refl) as [-> _].
  reflexivity.
Defined.

(* ================================================================== *)
(** * Invariants of the reachable stores *)
(* ================================================================== *)

Ltac open_handlers :=
  unfold post_register, post_signup, insert_user, post_projects,
    put_projects, delete_projects, post_meetings,
    put_projects_description, post_ideas, put_ideas, delete_ideas,
    post_notes, put_notes, delete_notes, post_career_goals,
    put_career_goals, delete_career_goals, cascade,
    post_career_goals_history, delete_career_goals_history,
    post_future_work, put_future_work, delete_future_work,
    post_deadlines, put_deadlines, delete_deadlines, post_events,
    put_events, delete_events, post_calendar_events,
    put_calendar_events, delete_calendar_events, post_profile,
    insert_profile, delete_profile, insert_owned;
  repeat match goal with
         | |- context [match insert ?mk ?t with pair _ _ => _ end] =>
             change (insert mk t)
               with (fst (insert mk t), snd (insert mk t))
         | |- context [match update_where ?p ?f ?t with
                       | pair _ _ => _ end] =>
             change (update_where p f t)
               with (fst (update_where p f t), snd (update_where p f t))
         | |- context [match delete_where ?p ?t with
                       | pair _ _ => _ end] =>
             change (delete_where p t)
               with (fst (delete_where p t), snd (delete_where p t))
         end;
  cbn -[insert update_where delete_where refused];
  repeat match goal with
         | |- context [if ?c then _ else _] => destruct c eqn:?
         | |- context [match ?c with [] => _ | _ :: _ => _ end] =>
             destruct c eqn:?
         | |- context [match as_string ?v with Some _ => _ | None => _ end] =>
             destruct (as_string v) eqn:?
         end;
  cbn -[insert update_where delete_where refused].

(** Each request takes every table through statements of the five kinds. *)
Lemma serve_steps {B : Bcrypt} {J : JSON} (d : db) (q : request) :
  db_step d (serve d q).
Proof.
  destruct q; cbn [serve]; open_handlers; unfold db_step;
    cbn -[insert update_where delete_where refused]; repeat split.
  all: first
         [ apply step_none
         | apply step_refused
         | apply step_insert; [reflexivity | first [exact I | assumption]]
         | apply step_delete
         | apply step_update; [reflexivity | intros; assumption]
         | eapply step_then; apply step_delete ].
Qed.

Section TableSteps.
Context {R : Type}.
Variable id : R -> Z.
Variable P : R -> Prop.

Lemma NoDup_map_filter (p : R -> bool) l :
  NoDup (map id l) -> NoDup (map id (filter p l)).
Proof.
  induction l as [|a l IH]; simpl; intros Hn; [constructor|].
  inversion Hn as [|x xs Hx Hxs]; subst.
  destruct (p a); simpl; auto.
  constructor; auto. intros Hin. apply Hx.
  apply in_map_iff in Hin. destruct Hin as (r & Hr & Hin).
  apply filter_In in Hin. apply in_map_iff. exists r. tauto.
Qed.

Lemma map_id_update (p : R -> bool) (f : R -> R) l :
  (forall r, id (f r) = id r) ->
  map id (map (fun r => if p r then f r else r) l) = map id l.
Proof.
  intros Hf. rewrite map_map. apply map_ext. intros r.
  destruct (p r); auto.
Qed.

Lemma table_step_keyed t t' :
  table_step id P t t' -> keyed id t -> keyed id t'.
Proof.
  unfold keyed.
  induction 1 as [t|t mk Hmk _|t|t p|t p f Hf _|t t1 t2 _ IH1 _ IH2];
    simpl; intros [Hn Hlt]; auto.
  - split.
    + rewrite map_app. simpl. rewrite Hmk.
      apply (Permutation_NoDup (Permutation_cons_append _ _)).
      constructor; [|assumption]. intros Hin.
      apply in_map_iff in Hin. destruct Hin as (r & Hr & Hin).
      rewrite Forall_forall in Hlt. specialize (Hlt r Hin). lia.
    + apply Forall_app. split.
      * eapply Forall_impl; [|exact Hlt]. simpl. intros; lia.
      * constructor; [rewrite Hmk; lia|constructor].
  - split; [assumption|].
    eapply Forall_impl; [|exact Hlt]. simpl. intros; lia.
  - split; [now apply NoDup_map_filter|].
    apply Forall_forall. intros r Hr. apply filter_In in Hr.
    rewrite Forall_forall in Hlt. now apply Hlt.
  - split; [now rewrite map_id_update|].
    apply Forall_forall. intros r Hr. apply in_map_iff in Hr.
    destruct Hr as (x & <- & Hx). rewrite Forall_forall in Hlt.
    destruct (p x); [rewrite Hf|]; auto.
Qed.

Lemma table_step_retired i t t' :
  table_step id P t t' -> retired id i t -> retired id i t'.
Proof.
  unfold retired.
  induction 1 as [t|t mk Hmk _|t|t p|t p f Hf _|t t1 t2 _ IH1 _ IH2];
    simpl; intros [Hi Hn]; auto.
  - split; [lia|]. rewrite map_app, in_app_iff. simpl. rewrite Hmk.
    intros [Hin|[Hin|[]]]; [auto|lia].
  - split; [lia|assumption].
  - split; [assumption|]. intros Hin. apply Hn.
    apply in_map_iff in Hin. destruct Hin as (r & Hr & Hin).
    apply filter_In in Hin. apply in_map_iff. exists r. tauto.
  - split; [assumption|]. now rewrite map_id_update.
Qed.

Lemma table_step_rows t t' :
  table_step id P t t' -> Forall P (rows t) -> Forall P (rows t').
Proof.
  induction 1 as [t|t mk _ Hmk|t|t p|t p f _ Hf|t t1 t2 _ IH1 _ IH2];
    simpl; intros HP; auto.
  - apply Forall_app. split; [assumption|]. now constructor.
  - apply Forall_forall. intros r Hr. apply filter_In in Hr.
    rewrite Forall_forall in HP. now apply HP.
  - apply Forall_forall. intros r Hr. apply in_map_iff in Hr.
    destruct Hr as (x & <- & Hx). rewrite Forall_forall in HP.
    destruct (p x); auto.
Qed.

Lemma filter_all_false (p : R -> bool) l :
  (forall r, In r l -> p r = false) -> filter p l = [].
Proof.
  induction l as [|a l IH]; simpl; intros Hp; [reflexivity|].
  rewrite (Hp a) by now left. apply IH. intros r Hr. apply Hp. now right.
Qed.

Lemma keyed_at_most_one t (i : Z) :
  keyed id t -> (length (select (fun r => (id r =? i)%Z) t) <= 1)%nat.
Proof.
  intros [Hn _]. unfold select.
  induction (rows t) as [|a l IH]; simpl in *; [lia|].
  inversion Hn as [|x xs Hx Hxs]; subst.
  destruct (id a =? i) eqn:E; [|auto].
  apply Z.eqb_eq in E. simpl.
  replace (filter (fun r => id r =? i) l) with (@nil R); [simpl; lia|].
  symmetry. apply filter_all_false. intros r Hr.
  apply Z.eqb_neq. intros Hri. apply Hx. apply in_map_iff. exists r.
  split; [congruence|assumption].
Qed.
End TableSteps.

Lemma serve_keyed {B : Bcrypt} {J : JSON} (d : db) (q : request) :
  keyed_db d -> keyed_db (serve d q).
Proof.
  unfold keyed_db.
  intros (H1 & H2 & H3 & H4 & H5 & H6 & H7 & H8 & H9 & H10 & H11 & H12).
  destruct (serve_steps d q)
    as (S1 & S2 & S3 & S4 & S5 & S6 & S7 & S8 & S9 & S10 & S11 & S12).
  repeat split; eapply table_step_keyed; eassumption.
Qed.

Lemma keyed_db_empty : keyed_db db_empty.
Proof. unfold keyed_db, keyed. simpl. repeat split; constructor. Qed.

(** X13. The ids of every table stay distinct and below the next value of
    its sequence, whatever the request: an [INSERT] takes a value that no
    row has, an [UPDATE] keeps the id of every row it touches. *)
Theorem ids_stay_distinct {B : Bcrypt} {J : JSON} (d : db) (q : request) :
  keyed_db d -> keyed_db (serve d q).
Proof. apply serve_keyed. Qed.

Lemma ids_stay_distinct_witness :
  keyed_db (@serve plain_bcrypt json_fragment db_registered
              (POST_ideas "2024-04-30T08:00:00.000Z"
                 (idea_body "a@x.com" None))).
Proof.
  apply (@ids_stay_distinct plain_bcrypt json_fragment).
  apply (@ids_stay_distinct plain_bcrypt json_fragment db_empty
           (POST_register "salt" (credentials "a@x.com" "secret1"))).
  unfold keyed_db, keyed. simpl. repeat split; constructor.
Defined.

(** X14. On a store whose ids are distinct, a request by id touches at most
    one row: every [updated] and [deleted] count is 0 or 1, and a
    description write that succeeds reports exactly 1. *)
Theorem by_id_at_most_one (d : db) (id : Z) :
  keyed_db d ->
  (forall b n, snd (put_projects d id b) = Json (Updated n) ->
     (n <= 1)%nat) /\
  (forall n, snd (delete_projects d id) = Json (Deleted n) -> (n <= 1)%nat) /\
  (forall b reply, snd (put_projects_description d id b) = Json reply ->
     PutDescription.updated reply = 1%nat) /\
  (forall b n, snd (put_ideas d id b) = Json (Updated n) -> (n <= 1)%nat) /\
  (forall n, snd (delete_ideas d id) = Json (Deleted n) -> (n <= 1)%nat) /\
  (forall b n, snd (put_notes d id b) = Json (Updated n) -> (n <= 1)%nat) /\
  (forall n, snd (delete_notes d id) = Json (Deleted n) -> (n <= 1)%nat) /\
  (forall b n, snd (put_career_goals d id b) = Json (Updated n) ->
     (n <= 1)%nat) /\
  (forall n, snd (delete_career_goals d id) = Json (Deleted n) ->
     (n <= 1)%nat) /\
  (forall goalId n,
     snd (delete_career_goals_history d goalId id) = Json (Deleted n) ->
     (n <= 1)%nat) /\
  (forall b n, snd (put_future_work d id b) = Json (Updated n) ->
     (n <= 1)%nat) /\
  (forall n, snd (delete_future_work d id) = Json (Deleted n) ->
     (n <= 1)%nat) /\
  (forall b n, snd (put_deadlines d id b) = Json (Updated n) ->
     (n <= 1)%nat) /\
  (forall n, snd (delete_deadlines d id) = Json (Deleted n) ->
     (n <= 1)%nat) /\
  (forall now b n, snd (put_events d now id b) = Json (Updated n) ->
     (n <= 1)%nat) /\
  (forall n, snd (delete_events d id) = Json (Deleted n) -> (n <= 1)%nat) /\
  (forall b n, snd (put_calendar_events d id b) = Json (Updated n) ->
     (n <= 1)%nat) /\
  (forall n, snd (delete_calendar_events d id) = Json (Deleted n) ->
     (n <= 1)%nat).
Proof.
  unfold keyed_db.
  intros (H1 & H2 & H3 & H4 & H5 & H6 & H7 & H8 & H9 & H10 & H11 & H12).
  pose proof (fun i => keyed_at_most_one i H2) as K2.
  pose proof (fun i => keyed_at_most_one i H5) as K5.
  pose proof (fun i => keyed_at_most_one i H6) as K6.
  pose proof (fun i => keyed_at_most_one i H7) as K7.
  pose proof (fun i => keyed_at_most_one i H8) as K8.
  pose proof (fun i => keyed_at_most_one i H9) as K9.
  pose proof (fun i => keyed_at_most_one i H10) as K10.
  pose proof (fun i => keyed_at_most_one i H11) as K11.
  unfold select in *.
  repeat split; intros.
  all: match goal with
       | H : snd _ = _ |- _ => revert H
       end.
  all: open_handlers; unfold select in *.
  all: cbn; intros Heq; try discriminate Heq; injection Heq as <-; auto.
  - cbn. specialize (K2 id).
    match goal with
    | H : filter _ _ = _ :: _ |- _ =>
        cbn in H; rewrite filter_map_same in H
          by (intros x; destruct (Projects.id x =? id) eqn:E; simpl; auto)
    end.
    destruct (filter (fun r => Projects.id r =? id) (rows (projects d)))
      as [|x [|y l']]; simpl in *; [discriminate|reflexivity|lia].
  - etransitivity; [|apply (K8 id)].
    clear. induction (rows (career_stage_history d)) as [|h l IH];
      simpl; [lia|].
    destruct (StageHistory.id h =? id); simpl;
      [destruct (int_is (StageHistory.goal_id h) goalId); simpl; lia|lia].
Qed.

Lemma by_id_at_most_one_witness :
  snd (delete_ideas db_two_ideas 2) = Json (Deleted 1).
Proof.
  destruct (@by_id_at_most_one db_two_ideas 2) as (_ & _ & _ & _ & H & _).
  - unfold keyed_db, keyed. simpl.
    repeat split; repeat constructor; simpl; intuition lia.
  - reflexivity.
Defined.

(** X15. An id is never handed out twice: an id that the sequence of a
    table has passed and that no row carries is carried by no row after any
    request, in every table. *)
Theorem retired_ids_not_reused {B : Bcrypt} {J : JSON} (d : db) (q : request) (i : Z) :
  (retired Users.id i (users d) -> retired Users.id i (users (serve d q))) /\
  (retired Projects.id i (projects d) ->
   retired Projects.id i (projects (serve d q))) /\
  (retired Meetings.id i (meetings d) ->
   retired Meetings.id i (meetings (serve d q))) /\
  (retired Ideas.id i (ideas d) -> retired Ideas.id i (ideas (serve d q))) /\
  (retired Notes.id i (notes d) -> retired Notes.id i (notes (serve d q))) /\
  (retired CareerGoals.id i (career_goals d) ->
   retired CareerGoals.id i (career_goals (serve d q))) /\
  (retired StageHistory.id i (career_stage_history d) ->
   retired StageHistory.id i (career_stage_history (serve d q))) /\
  (retired FutureWork.id i (future_work d) ->
   retired FutureWork.id i (future_work (serve d q))) /\
  (retired Deadlines.id i (deadlines d) ->
   retired Deadlines.id i (deadlines (serve d q))) /\
  (retired CalendarEvents.id i (calendar_events d) ->
   retired CalendarEvents.id i (calendar_events (serve d q))) /\
  (retired Profiles.id i (profiles d) ->
   retired Profiles.id i (profiles (serve d q))).
Proof.
  destruct (serve_steps d q)
    as (S1 & S2 & S3 & S4 & S5 & S6 & S7 & S8 & S9 & S10 & S11 & S12).
  repeat match goal with |- _ /\ _ => split end; intros Hr;
    (eapply table_step_retired; [eassumption|exact Hr]).
Qed.

Lemma retired_ids_not_reused_witness :
  exists r,
    snd (post_ideas (fst (delete_ideas db_two_ideas 2))
           "2024-05-01T08:00:00.000Z" (idea_body "a@x.com" None)) = Json r /\
    Ideas.id r = 3 /\
    retired Ideas.id 2
      (ideas (@serve plain_bcrypt json_fragment (fst (delete_ideas db_two_ideas 2))
                (POST_ideas "2024-05-01T08:00:00.000Z"
                   (idea_body "a@x.com" None)))).
Proof.
  eexists. split; [reflexivity|]. split; [reflexivity|].
  destruct (@retired_ids_not_reused plain_bcrypt json_fragment
              (fst (delete_ideas db_two_ideas 2))
              (POST_ideas "2024-05-01T08:00:00.000Z"
                 (idea_body "a@x.com" None)) 2)
    as (_ & _ & _ & H & _).
  apply H. unfold retired. simpl. split; [lia|]. intros [E|[]]. discriminate E.
Defined.

(** ** Users *)

Lemma serve_users {B : Bcrypt} {J : JSON} (d : db) (q : request) :
  match q with
  | POST_register salt b =>
      users (serve d q) = users (fst (post_register d salt b))
  | POST_signup salt b =>
      users (serve d q) = users (fst (post_register d salt b))
  | _ => users (serve d q) = users d
  end.
Proof. destruct q; try reflexivity; cbn [serve]; open_handlers; reflexivity. Qed.

Lemma serve_users_kept {B : Bcrypt} {J : JSON} (d : db) (q : request) :
  exists added, rows (users (serve d q)) = rows (users d) ++ added.
Proof.
  assert (Hreg : forall salt b, exists added,
             rows (users (fst (post_register d salt b))) =
             rows (users d) ++ added).
  { intros salt b.
    destruct (register_users_grow d salt b) as [-> | (e & p & ->)].
    - exists []. now rewrite List.app_nil_r.
    - eauto. }
  pose proof (serve_users d q) as Hq.
  destruct q; rewrite Hq; try apply Hreg;
    exists []; now rewrite List.app_nil_r.
Qed.

Lemma user_exists_kept {B : Bcrypt} {J : JSON} (d : db) (q : request) e :
  user_exists d e = true -> user_exists (serve d q) e = true.
Proof.
  unfold user_exists. destruct (serve_users_kept d q) as [added ->].
  rewrite existsb_app. now intros ->.
Qed.

Lemma references_user_kept {B : Bcrypt} {J : JSON} (d : db) (q : request) o :
  references_user d o = true -> references_user (serve d q) o = true.
Proof. destruct o as [e|]; simpl; [apply user_exists_kept|auto]. Qed.

Lemma serve_unique_users {B : Bcrypt} {J : JSON} (d : db) (q : request) :
  unique_users d -> unique_users (serve d q).
Proof.
  unfold unique_users. intros Hu. pose proof (serve_users d q) as Hq.
  destruct q; rewrite Hq; try assumption;
    now apply register_preserves_unique.
Qed.

Lemma serve_normalized_users {B : Bcrypt} {J : JSON} (d : db) (q : request) :
  normalized_users d -> normalized_users (serve d q).
Proof.
  unfold normalized_users. intros Hn.
  assert (Hreg : forall salt b,
             Forall (fun u => trim (toLowerCase (Users.email u)) =
                              Users.email u)
               (rows (users (fst (post_register d salt b))))).
  { intros salt b.
    destruct (register_users_grow d salt b) as [-> | (e & p & ->)];
      [assumption|].
    apply Forall_app. split; [assumption|]. constructor; [|constructor].
    simpl. apply normalize_idempotent. }
  pose proof (serve_users d q) as Hq.
  destruct q; rewrite Hq; try assumption; apply Hreg.
Qed.

(** ** Owners *)

Lemma serve_owners_registered {B : Bcrypt} {J : JSON} (d : db) (q : request) :
  owners_registered d -> owners_registered (serve d q).
Proof.
  unfold owners_registered.
  intros (H5 & H6 & H7 & H9 & H10 & H11 & H12).
  destruct (serve_steps d q)
    as (_ & _ & _ & _ & S5 & S6 & S7 & _ & S9 & S10 & S11 & S12).
  repeat split;
    match goal with
    | |- Forall _ (rows (?tbl _)) =>
        match goal with
        | S : table_step _ ?P (tbl d) _, H : Forall _ (rows (tbl d)) |- _ =>
            eapply Forall_impl; [|exact (table_step_rows S H)]
        end
    end;
    intros r Hr; now apply references_user_kept.
Qed.

(** ** Colleagues and profiles *)

Lemma serve_colleagues {B : Bcrypt} {J : JSON} (d : db) (q : request) :
  colleagues (serve d q) = colleagues d.
Proof. destruct q; cbn [serve]; open_handlers; reflexivity. Qed.

Lemma serve_profiles {B : Bcrypt} {J : JSON} (d : db) (q : request) :
  match q with
  | POST_profile _ _ _ | DELETE_profile _ => True
  | _ => profiles (serve d q) = profiles d
  end.
Proof.
  destruct q; try exact I; cbn [serve]; open_handlers; reflexivity.
Qed.

Lemma filter_length_le {A} (p q : A -> bool) l :
  (length (filter p (filter q l)) <= length (filter p l))%nat.
Proof.
  induction l as [|x l IH]; simpl; [lia|].
  destruct (q x), (p x) eqn:E; simpl; rewrite ?E; simpl; lia.
Qed.

Lemma serve_singleton_profiles {B : Bcrypt} {J : JSON} (d : db) (q : request) :
  singleton_profiles d -> singleton_profiles (serve d q).
Proof.
  intros Hs. pose proof (serve_profiles d q) as Hq.
  destruct q;
    try (unfold singleton_profiles in *; rewrite Hq; exact Hs).
  - cbn [serve].
    destruct (PostProfile.userEmail b) as [e|] eqn:Hb.
    + destruct (String.eqb e "") eqn:He.
      * apply String.eqb_eq in He. subst e.
        unfold post_profile. rewrite Hb. exact Hs.
      * apply String.eqb_neq in He.
        now apply (@profile_write_keeps_singleton J d now later b e Hb He).
    + unfold post_profile. rewrite Hb. exact Hs.
  - cbn [serve]. unfold delete_profile, delete_where. cbn.
    intros e. unfold select. cbn.
    etransitivity; [apply filter_length_le|apply Hs].
Qed.

(** ** Stage history *)

Lemma serve_goals_history {B : Bcrypt} {J : JSON} (d : db) (q : request) :
  match q with
  | POST_career_goals _ _ | PUT_career_goals _ _ | DELETE_career_goals _
  | POST_career_goals_history _ _ _ | DELETE_career_goals_history _ _ => True
  | _ => career_goals (serve d q) = career_goals d /\
         career_stage_history (serve d q) = career_stage_history d
  end.
Proof.
  destruct q; try exact I; cbn [serve]; open_handlers; split; reflexivity.
Qed.

Lemma serve_history_refs {B : Bcrypt} {J : JSON} (d : db) (q : request) :
  history_refs d -> history_refs (serve d q).
Proof.
  intros Hh. pose proof (serve_goals_history d q) as Hq.
  destruct q;
    try (unfold history_refs in *; rewrite (proj1 Hq), (proj2 Hq);
         exact Hh);
    clear Hq; unfold history_refs in *; cbn [serve].
  - unfold post_career_goals, insert_owned.
    destruct (references_user d (PostCareerGoals.user_email b)); cbn;
      [|exact Hh].
    eapply Forall_impl; [|exact Hh]. intros h (g & Hg & Hid).
    exists g. split; [|exact Hid]. apply in_or_app. now left.
  - unfold put_career_goals, update_where. cbn.
    eapply Forall_impl; [|exact Hh]. intros h (g & Hg & Hid).
    eexists. split; [apply in_map_iff; exists g; split; [reflexivity|exact Hg]|].
    rewrite Hid. now destruct (CareerGoals.id g =? id).
  - unfold delete_career_goals, cascade, delete_where, select. cbn.
    apply Forall_forall. intros h Hin.
    apply filter_In in Hin. destruct Hin as [Hin _].
    apply filter_In in Hin. destruct Hin as [Hin Hne].
    rewrite Forall_forall in Hh. destruct (Hh h Hin) as (g & Hg & Hid).
    exists g. split; [|exact Hid]. apply filter_In. split; [exact Hg|].
    rewrite Hid in Hne. exact Hne.
  - unfold post_career_goals_history.
    destruct (existsb (fun g => CareerGoals.id g =? id)
                (rows (career_goals d))) eqn:E; cbn; [|exact Hh].
    apply Forall_app. split; [exact Hh|]. constructor; [|constructor].
    apply existsb_exists in E. destruct E as (g & Hg & Hid).
    apply Z.eqb_eq in Hid. exists g. split; [exact Hg|]. cbn. congruence.
  - unfold delete_career_goals_history, delete_where.
    destruct (int4 historyId && int4 goalId); cbn; [|exact Hh].
    apply Forall_forall. intros h Hin. apply filter_In in Hin.
    rewrite Forall_forall in Hh. now apply Hh.
Qed.

Lemma reachable_invariants {B : Bcrypt} {J : JSON} (d : db) :
  reachable d ->
  keyed_db d /\ unique_users d /\ normalized_users d /\
  owners_registered d /\ history_refs d /\ singleton_profiles d /\
  rows (colleagues d) = [].
Proof.
  induction 1 as [|d q _ (K & U & N & O & Hh & S & C)].
  - split; [apply keyed_db_empty|].
    unfold unique_users, normalized_users, owners_registered, history_refs,
      singleton_profiles. simpl.
    split; [constructor|]. split; [constructor|].
    split; [repeat split; constructor|]. split; [constructor|].
    split; [|reflexivity]. intros e. simpl. lia.
  - split; [now apply serve_keyed|].
    split; [now apply serve_unique_users|].
    split; [now apply serve_normalized_users|].
    split; [now apply serve_owners_registered|].
    split; [now apply serve_history_refs|].
    split; [now apply serve_singleton_profiles|].
    now rewrite serve_colleagues.
Qed.

(** X16. On every store that a server started on a fresh database can
    reach: ids are distinct in each table; user emails are distinct and in
    lowercased, trimmed form; the owner of every idea, note, career goal,
    future-work item, deadline, event and profile is a registered user or
    [NULL]; every stage-history entry belongs to a goal that exists; no
    email has two profiles; and the colleagues table is empty, no route
    writing to it. *)
Theorem reachable_store_invariants {B : Bcrypt} {J : JSON} (d : db) :
  reachable d ->
  keyed_db d /\ unique_users d /\ normalized_users d /\
  owners_registered d /\ history_refs d /\ singleton_profiles d /\
  rows (colleagues d) = [].
Proof. apply reachable_invariants. Qed.

Lemma reachable_store_invariants_witness :
  history_refs goal_with_history /\ owners_registered goal_with_history.
Proof.
  assert (R : @reachable plain_bcrypt json_fragment goal_with_history).
  { apply (@served plain_bcrypt json_fragment _
             (POST_career_goals_history "2024-01-03T00:00:00.000Z" 1
                {| PostHistory.stage := Some 2;
                   PostHistory.description := None |})).
    apply (@served plain_bcrypt json_fragment _
             (POST_career_goals_history "2024-01-02T00:00:00.000Z" 1
                {| PostHistory.stage := Some 1;
                   PostHistory.description := Some "done" |})).
    apply (@served plain_bcrypt json_fragment _
             (POST_career_goals "2024-01-01T00:00:00.000Z"
                (goal_body "a@x.com" "Promotion"))).
    apply (@served plain_bcrypt json_fragment _
             (POST_register "salt" (credentials "a@x.com" "secret1"))).
    apply started. }
  destruct (@reachable_store_invariants plain_bcrypt json_fragment goal_with_history R)
    as (_ & _ & _ & O & Hh & _).
  split; assumption.
Defined.

(** X17. On a reachable store the foreign key from the colleagues table
    never refuses [DELETE /projects/:id]: no route writes that table, so no
    colleague refers to a project.  When the delete answers with a count,
    the count is the number of projects of that id, 0 or 1, and the project
    is gone. *)
Theorem reachable_project_delete {B : Bcrypt} {J : JSON} (d : db) (id : Z) :
  reachable d ->
  existsb (fun c => existsb (fun r => int_is (Colleagues.project_id c)
                                        (Projects.id r))
                      (select (fun r => Projects.id r =? id) (projects d)))
    (rows (colleagues d)) = false /\
  (forall n, snd (delete_projects d id) = Json (Deleted n) ->
     (n <= 1)%nat /\
     n = length (select (fun r => Projects.id r =? id) (projects d)) /\
     select (fun r => Projects.id r =? id)
       (projects (fst (delete_projects d id))) = []).
Proof.
  intros Hr. destruct (reachable_invariants Hr) as (K & _ & _ & _ & _ & _ & C).
  destruct K as (_ & K2 & _).
  unfold delete_projects. rewrite C. cbn.
  split; [reflexivity|]. intros n Hn. injection Hn as <-.
  split; [apply (keyed_at_most_one id K2)|].
  split; [reflexivity|]. apply filter_filter_neg.
Qed.

Lemma reachable_project_delete_witness :
  select (fun r => Projects.id r =? 1)
    (projects (fst (delete_projects db_project 1))) = [].
Proof.
  assert (R : @reachable plain_bcrypt json_fragment db_project).
  { apply (@served plain_bcrypt json_fragment _
             (POST_projects
                (project_body (Some "Thesis") (Some "nobody@x.com")))).
    apply started. }
  destruct (@reachable_project_delete plain_bcrypt json_fragment db_project 1 R)
    as (_ & Hdel).
  exact (proj2 (proj2 (Hdel 1%nat eq_refl))).
Defined.

Lemma select_first_kept {R} (p : R -> bool) (l added : list R) x xs :
  filter p l = x :: xs ->
  exists ys, filter p (l ++ added) = x :: ys.
Proof. intros H. rewrite filter_app, H. simpl. eauto. Qed.

(** X18. No request removes or changes a user row: only the two
    registration routes write the users table, and they append.  So a login
    that succeeds keeps succeeding, with the same answer, after any
    request. *)
Theorem accounts_persist {B : Bcrypt} {J : JSON} (d : db) (q : request) :
  (exists added, rows (users (serve d q)) = rows (users d) ++ added) /\
  (forall b session,
     post_login d b = Json session ->
     post_login (serve d q) b = Json session) /\
  match q with
  | POST_register _ _ | POST_signup _ _ => True
  | _ => forall b, post_login (serve d q) b = post_login d b
  end.
Proof.
  split; [apply serve_users_kept|]. split.
  - intros b session. unfold post_login.
    destruct (negb (scalar_truthy (Credentials.email b))
              || negb (scalar_truthy (Credentials.password b)));
      [discriminate|].
    destruct (as_string (Credentials.email b)) as [e|]; [|discriminate].
    destruct (has_nul _); [discriminate|].
    unfold select. destruct (serve_users_kept d q) as [added ->].
    destruct (filter _ (rows (users d))) as [|u l] eqn:E; [discriminate|].
    destruct (select_first_kept _ _ added E) as [ys ->]. auto.
  - pose proof (serve_users d q) as Hq.
    destruct q; try exact I; intros b0; unfold post_login; now rewrite Hq.
Qed.

Lemma accounts_persist_witness :
  exists session,
    @post_login plain_bcrypt
      (@serve plain_bcrypt json_fragment db_registered
         (POST_register "salt" (credentials "b@x.com" "secret2")))
      (credentials "a@x.com" "secret1") = Json session.
Proof.
  destruct (@accounts_persist plain_bcrypt json_fragment db_registered
              (POST_register "salt" (credentials "b@x.com" "secret2")))
    as (_ & H & _).
  eexists. apply H. reflexivity.
Defined.

(* ================================================================== *)
(** * Stage history, login, defaults, meetings, events, profiles *)
(* ================================================================== *)



(** X20. [POST /login] looks the email up in lowercased and trimmed form:
    two non-empty emails that agree in that form get the same answer. *)
Theorem login_normalizes_email {B : Bcrypt} (d : db) (e e' p : string) :
  e <> "" -> e' <> "" ->
  trim (toLowerCase e) = trim (toLowerCase e') ->
  post_login d (credentials e p) = post_login d (credentials e' p).
Proof.
  intros He He' Hn. unfold post_login, credentials.
  cbn [Credentials.email Credentials.password as_string].
  rewrite (scalar_truthy_string He), (scalar_truthy_string He').
  now rewrite Hn.
Qed.

Lemma login_normalizes_email_witness :
  @post_login plain_bcrypt db_registered (credentials " A@X.com " "secret1") =
  @post_login plain_bcrypt db_registered (credentials "a@x.com" "secret1").
Proof.
  apply (@login_normalizes_email plain_bcrypt); [discriminate|discriminate|].
  reflexivity.
Defined.

Lemma str_or_nonempty x dflt : dflt <> "" -> str_or x dflt <> "".
Proof.
  intros Hd. destruct x as [s|]; simpl; [|assumption].
  destruct (s =? "")%string eqn:E; [assumption|]. now apply String.eqb_neq.
Qed.

(** X21. A row that a create returns has a value in every column for
    which the handler has a default: a text column of this kind is never
    [NULL] nor empty, an integer column of this kind never [NULL].  A
    [total_stages] or [reminder] sent as the number 0 is replaced by the
    default, 5 and 15. *)
Theorem creates_fill_defaults (d : db) (now : string) :
  (forall b r, snd (post_projects d b) = Json r ->
     exists c p, Projects.colleagues r = Some c /\ c <> "" /\
                 Projects.progress r = Some p) /\
  (forall b r, snd (post_ideas d now b) = Json r ->
     exists c, Ideas.category r = Some c /\ c <> "") /\
  (forall b r, snd (post_career_goals d now b) = Json r ->
     exists p t n c,
       CareerGoals.progress r = Some p /\
       CareerGoals.goal_type r = Some t /\ t <> "" /\
       CareerGoals.total_stages r = Some n /\
       CareerGoals.current_stage r = Some c /\
       (PostCareerGoals.total_stages b = Some 0 -> n = 5)) /\
  (forall b r, snd (post_future_work d now b) = Json r ->
     exists p, FutureWork.priority r = Some p /\ p <> "") /\
  (forall b r, snd (post_deadlines d now b) = Json r ->
     exists p s, Deadlines.priority r = Some p /\ p <> "" /\
                 Deadlines.status r = Some s /\ s <> "") /\
  (forall b r, snd (post_events d now b) = Json r ->
     exists c n rec s p,
       CalendarEvents.category r = Some c /\ c <> "" /\
       CalendarEvents.reminder r = Some n /\
       CalendarEvents.recurrence r = Some rec /\ rec <> "" /\
       CalendarEvents.show_as r = Some s /\ s <> "" /\
       CalendarEvents.priority r = Some p /\ p <> "" /\
       (PostEvents.reminder b = Some 0 -> n = 15)).
Proof.
  split.
  { intros b r. unfold post_projects.
    destruct (negb (str_truthy (PostProjects.name b))
              || negb (str_truthy (PostProjects.owner_email b)));
      [discriminate|].
    cbn. intros Hr. injection Hr as <-. cbn.
    do 2 eexists. split; [reflexivity|]. split; [|reflexivity].
    now apply str_or_nonempty. }
  repeat match goal with |- _ /\ _ => split end; intros b r Hr;
    created Hr; cbn;
    repeat eexists;
    try (apply str_or_nonempty; discriminate);
    try (intros Hz; rewrite Hz; reflexivity).
Qed.

Lemma creates_fill_defaults_witness :
  exists r,
    snd (post_events db_registered "2024-04-30T08:00:00.000Z"
           (event_body "a@x.com" "2024-05-01" "10:00" JNull None)) = Json r /\
    CalendarEvents.reminder r = Some 15 /\
    CalendarEvents.category r = Some "Work".
Proof.
  destruct (@creates_fill_defaults db_registered "2024-04-30T08:00:00.000Z")
    as (_ & _ & _ & _ & _ & Hev).
  eexists. split; [reflexivity|].
  destruct (Hev (event_body "a@x.com" "2024-05-01" "10:00" JNull None) _
              eq_refl) as (c & n & _).
  split; reflexivity.
Defined.

(** X22. [POST /meetings] checks neither its fields nor a user.  A meeting
    that it returns has the next id and the three fields of the body; it
    is in the list of its colleague email from then on, the list of every
    other email is as it was, and a meeting without a colleague email is in
    no list. *)
Theorem meeting_creation (d : db) (b : PostMeetings.body) (email : string)
  (r : Meetings.row) :
  snd (post_meetings d b) = Json r ->
  Meetings.id r = serial (meetings d) /\
  Meetings.colleague_email r = PostMeetings.colleague_email b /\
  Meetings.date r = PostMeetings.date b /\
  Meetings.description r = PostMeetings.description b /\
  exists l l',
    get_meetings d email = Json l /\
    get_meetings (fst (post_meetings d b)) email = Json l' /\
    if text_is (PostMeetings.colleague_email b) email
    then Permutation l' (r :: l) else Permutation l' l.
Proof.
  unfold post_meetings, get_meetings, select. cbn.
  intros Hr. injection Hr as <-. cbn.
  do 4 (split; [reflexivity|]).
  do 2 eexists. do 2 (split; [reflexivity|]).
  rewrite filter_app. cbn.
  destruct (text_is (PostMeetings.colleague_email b) email).
  - symmetry. apply Permutation_cons_append.
  - now rewrite List.app_nil_r.
Qed.

Lemma meeting_creation_witness :
  exists l,
    get_meetings
      (fst (post_meetings db_empty
              {| PostMeetings.colleague_email := Some "c@x.com";
                 PostMeetings.date := Some "2024-05-01";
                 PostMeetings.description := None |})) "c@x.com" = Json l /\
    map Meetings.id l = [1].
Proof.
  destruct (@meeting_creation db_empty
              {| PostMeetings.colleague_email := Some "c@x.com";
                 PostMeetings.date := Some "2024-05-01";
                 PostMeetings.description := None |} "c@x.com" _ eq_refl)
    as (_ & _ & _ & _ & l & l' & _ & Hl' & _).
  exists l'. split; [exact Hl'|].
  unfold get_meetings in Hl'. injection Hl' as <-. reflexivity.
Defined.



Lemma filter_implied {A} (p q : A -> bool) l :
  (forall x, p x = true -> q x = true) ->
  filter p (filter q l) = filter p l.
Proof.
  intros Hpq. induction l as [|x l IH]; simpl; [reflexivity|].
  destruct (q x) eqn:Eq; simpl; [now rewrite IH|].
  destruct (p x) eqn:Ep; [|exact IH].
  apply Hpq in Ep. congruence.
Qed.



Section Readable.
Context {B : Bcrypt} {J : JSON} {L : JSONLaws J}.

Lemma written_readable now b r :
  written now b r ->
  Forall (fun col => decode_list col <> None) (list_columns r).
Proof.
  intros Hw. unfold written in Hw.
  destruct Hw as (_ & _ & _ & _ & _ & _ & _ & _ & _ & Hdg & Hem & _ & _
                  & _ & Hco & Hgr & _ & Haw & _).
  unfold list_columns. rewrite Hdg, Hem, Hco, Hgr, Haw.
  repeat constructor; rewrite decode_stringify; discriminate.
Qed.

Lemma post_profile_readable d now later b :
  readable_profiles d ->
  readable_profiles (fst (post_profile d now later b)).
Proof.
  intros Hr. unfold readable_profiles in *.
  destruct (PostProfile.userEmail b) as [e|] eqn:Hb;
    [|unfold post_profile; rewrite Hb; exact Hr].
  destruct (String.eqb e "") eqn:He.
  { apply String.eqb_eq in He. subst e.
    unfold post_profile. rewrite Hb. exact Hr. }
  apply String.eqb_neq in He.
  destruct (post_profile_cases d now later b Hb He) as (Hupd & Hins & Hno).
  destruct (select (owned_by e) (profiles d)) as [|r0 l0] eqn:Hsel.
  - destruct (user_exists d e) eqn:Hu.
    + destruct (Hins eq_refl eq_refl) as (row & _ & _ & _ & Hw & ->).
      cbn. apply Forall_app. split; [exact Hr|].
      constructor; [|constructor]. now apply (written_readable Hw).
    + rewrite (Hno eq_refl eq_refl). exact Hr.
  - destruct Hupd as (upd & Hprop & ->); [discriminate|].
    cbn. apply Forall_forall. intros r Hin. apply in_map_iff in Hin.
    destruct Hin as (x & <- & Hx). rewrite Forall_forall in Hr.
    destruct (owned_by e x); [|now apply Hr].
    destruct (Hprop x) as (_ & _ & _ & Hw). now apply (written_readable Hw).
Qed.

Lemma serve_readable d q :
  readable_profiles d -> readable_profiles (serve d q).
Proof.
  intros Hr. pose proof (serve_profiles d q) as Hp.
  destruct q;
    try (unfold readable_profiles in *; rewrite Hp; exact Hr).
  - cbn [serve]. now apply post_profile_readable.
  - cbn [serve]. unfold delete_profile, delete_where, readable_profiles.
    cbn. apply Forall_forall. intros r Hin. apply filter_In in Hin.
    unfold readable_profiles in Hr. rewrite Forall_forall in Hr.
    now apply Hr.
Qed.

Lemma reachable_readable d : reachable d -> readable_profiles d.
Proof.
  induction 1 as [|d q _ IH]; [constructor|]. now apply serve_readable.
Qed.

Lemma readable_answers d e :
  readable_profiles d -> exists answer, get_profile d e = Json answer.
Proof.
  intros Hr.
  destruct (select (owned_by e) (profiles d)) as [|row rest] eqn:Hsel.
  { unfold get_profile. fold (owned_by e). rewrite Hsel. eauto. }
  destruct (get_profile_answers d e Hsel)
    as [(view & -> & _)|[_ (col & Hin & Hcol)]]; [eauto|].
  exfalso.
  assert (Hrow : In row (rows (profiles d))).
  { assert (Hf : In row (select (owned_by e) (profiles d)))
      by (rewrite Hsel; now left).
    unfold select in Hf. now apply filter_In in Hf. }
  unfold readable_profiles in Hr. rewrite Forall_forall in Hr.
  specialize (Hr row Hrow). rewrite Forall_forall in Hr.
  now apply (Hr col Hin).
Qed.
End Readable.



Lemma no_rows_of_unregistered {R} (d : db) (owner : R -> option string)
  (l : list R) (email : string) :
  user_exists d email = false ->
  Forall (fun r => references_user d (owner r) = true) l ->
  filter (fun r => text_is (owner r) email) l = [].
Proof.
  intros Hu Hl. induction Hl as [|r l Hr _ IH]; simpl; [reflexivity|].
  destruct (owner r) as [o|] eqn:E; simpl; [|exact IH].
  destruct (o =? email)%string eqn:Eo; [|exact IH].
  apply String.eqb_eq in Eo. subst o. simpl in Hr. congruence.
Qed.


